(** * Advent-of-code solutions: a shallow embedding and its properties

    The repository is a collection of independent Python scripts.  The
    first part of this file embeds the scripts of days 1, 4, 10, 12, 13, 16
    and 25 of the 2022 puzzles, one module per script, after a small model
    of the Python they are written in: integers are [Z], [str] values are
    [string] (characters are code points below 256), lists are [list],
    sets are [gset], a raised exception and a loop that has not finished
    are constructors of [outcome], the files a script can open are a
    [filesystem] and what it prints is a text.  Loops that Python runs
    until a condition fails take a [fuel] argument.

    The second part holds the vocabulary of the statements (walks on a
    heightmap, the plain maximum over pairs of orders, printed lines) and
    of the proofs (loop invariants); the third part holds the properties. *)

From Stdlib Require Import ZArith List String Ascii Bool Lia Permutation.
From Stdlib Require Import Sorting.Sorted.
From stdpp Require Import base option list gmap strings sorting.
Import ListNotations.

Local Open Scope string_scope.
Local Open Scope list_scope.
Local Open Scope Z_scope.

(** ** Python outcomes *)

(** The exceptions the modelled scripts can raise. *)
Inductive exn : Type :=
  | ValueError
  | IndexError
  | KeyError
  | AssertionError
  | ZeroDivisionError
  | FileNotFoundError.

(** A call either returns a value, raises an exception that nobody
    catches, or is still running when the fuel of a loop is used up. *)
Inductive outcome (A : Type) : Type :=
  | Returns (a : A)
  | Raises (e : exn)
  | OutOfFuel.
Arguments Returns {A} a.
Arguments Raises {A} e.
Arguments OutOfFuel {A}.

Global Instance outcome_bind : MBind outcome := λ A B k m,
  match m with
  | Returns a => k a
  | Raises e => Raises e
  | OutOfFuel => OutOfFuel
  end.
Global Instance outcome_ret : MRet outcome := @Returns.

(** Monadic iteration: a [for] loop whose body may raise. *)
Fixpoint foldM {A S} (f : S → A → outcome S) (l : list A) (s : S) : outcome S :=
  match l with
  | [] => Returns s
  | x :: l' => s' ← f s x; foldM f l' s'
  end.

(** A comprehension whose element expression may raise. *)
Fixpoint py_map {A B} (f : A → outcome B) (l : list A) : outcome (list B) :=
  match l with
  | [] => Returns []
  | x :: l' => y ← f x; ys ← py_map f l'; Returns (y :: ys)
  end.

(** [sum(iterable)]: left-to-right addition starting from 0. *)
Definition py_sum (l : list Z) : Z := fold_left Z.add l 0.

(** [enumerate(iterable, start)]. *)
Fixpoint enumerate_from {A} (i : Z) (l : list A) : list (Z * A) :=
  match l with
  | [] => []
  | x :: l' => (i, x) :: enumerate_from (i + 1) l'
  end.
Definition enumerate {A} (l : list A) : list (Z * A) := enumerate_from 0 l.

(** [d[k]] on a dict: [KeyError] when the key is missing. *)
Definition dict_get {K V} `{Countable K} (d : gmap K V) (k : K) : outcome V :=
  match d !! k with
  | Some v => Returns v
  | None => Raises KeyError
  end.

(** [l[i]] on a list: negative indices count from the end, anything outside
    [-len, len) raises [IndexError]. *)
Definition py_index {A} (l : list A) (i : Z) : outcome A :=
  let n := Z.of_nat (length l) in
  if (- n <=? i) && (i <? n) then
    match l !! Z.to_nat (if i <? 0 then i + n else i) with
    | Some x => Returns x
    | None => Raises IndexError
    end
  else Raises IndexError.

(** [l[i] = x] on a list, with the same index rules. *)
Definition py_setitem {A} (l : list A) (i : Z) (x : A) : outcome (list A) :=
  let n := Z.of_nat (length l) in
  if (- n <=? i) && (i <? n) then
    Returns (<[Z.to_nat (if i <? 0 then i + n else i) := x]> l)
  else Raises IndexError.

(** *** Characters and strings *)

Definition chars (s : string) : list ascii := list_ascii_of_string s.
Definition str_of (l : list ascii) : string := string_of_list_ascii l.

Definition ord (c : ascii) : Z := Z.of_nat (nat_of_ascii c).

Definition is_digit (c : ascii) : bool := (48 <=? ord c) && (ord c <=? 57).

(** [str.isspace] on code points below 256. *)
Definition is_space (c : ascii) : bool :=
  let n := ord c in
  ((9 <=? n) && (n <=? 13)) || ((28 <=? n) && (n <=? 32))
  || (n =? 133) || (n =? 160).

(** [int(c)] for a one-character string. *)
Definition int_of_char (c : ascii) : outcome Z :=
  if is_digit c then Returns (ord c - 48) else Raises ValueError.

(** [str(n)] for an integer. *)
Definition digit_char (d : Z) : ascii := ascii_of_nat (Z.to_nat (48 + d)).

Fixpoint str_pos_go (fuel : nat) (n : Z) (acc : list ascii) : list ascii :=
  match fuel with
  | O => acc
  | S fuel' =>
      if n <? 10 then digit_char n :: acc
      else str_pos_go fuel' (n / 10) (digit_char (n mod 10) :: acc)
  end.

Definition str_int (n : Z) : string :=
  if n <? 0 then str_of ("-"%char :: str_pos_go (Z.to_nat (- n)) (- n) [])
  else str_of (str_pos_go (S (Z.to_nat n)) n []).

(** A one-element unpacking [(x,) = values]. *)
Definition unpack_single {A} (values : list A) : outcome A :=
  match values with
  | [x] => Returns x
  | _ => Raises ValueError
  end.

(** A comprehension with a condition that may raise. *)
Fixpoint py_filter {A} (f : A → outcome bool) (l : list A) : outcome (list A) :=
  match l with
  | [] => Returns []
  | x :: l' =>
      b ← f x; ys ← py_filter f l'; Returns (if b : bool then x :: ys else ys)
  end.

(** [range(n)]. *)
Definition py_range (n : nat) : list Z := map Z.of_nat (seq 0 n).

(** *** Integers extended with [math.inf] *)

Inductive num : Type :=
  | Fin (n : Z)
  | Inf.

Definition is_inf (x : num) : bool :=
  match x with Inf => true | Fin _ => false end.

(** [x + 1]. *)
Definition num_succ (x : num) : num :=
  match x with Fin n => Fin (n + 1) | Inf => Inf end.

(** [x < y]. *)
Definition num_ltb (x y : num) : bool :=
  match x, y with
  | Fin a, Fin b => a <? b
  | Fin _, Inf => true
  | Inf, _ => false
  end.

(** [min(iterable)]: the first smallest element, [ValueError] when the
    iterable is empty. *)
Definition py_min (l : list num) : outcome num :=
  match l with
  | [] => Raises ValueError
  | x :: l' => Returns (fold_left (λ m y, if num_ltb y m then y else m) l' x)
  end.

(** *** Paths and files *)

(** A [pathlib] path: whether it is anchored at the root, and its
    components. *)
Record path : Type := Path { absolute : bool; parts : list string }.

Global Instance path_eq_dec : EqDecision path.
Proof. solve_decision. Defined.

Definition parent (p : path) : path :=
  Path (absolute p) (removelast (parts p)).

Definition joinpath (p : path) (name : string) : path :=
  Path (absolute p) (parts p ++ [name]).

(** The files a script can see: the text of each existing file. *)
Definition filesystem : Type := path → option string.

(** [open(filepath).read()]. *)
Definition read_file (fs : filesystem) (filepath : path) : outcome string :=
  match fs filepath with
  | Some text => Returns text
  | None => Raises FileNotFoundError
  end.

Definition newline : ascii := ascii_of_nat 10.

(** Iterating over an open text file: the lines, each with its
    terminating newline when it has one. *)
Fixpoint file_lines_go (s cur : list ascii) : list string :=
  match s with
  | [] => match cur with [] => [] | _ => [str_of (rev cur)] end
  | c :: s' =>
      if Ascii.eqb c newline then str_of (rev (c :: cur)) :: file_lines_go s' []
      else file_lines_go s' (c :: cur)
  end.
Definition file_lines (text : string) : list string :=
  file_lines_go (chars text) [].

(** [str.splitlines()] on code points below 256: the lines without their
    terminators; a carriage return followed by a line feed is one break. *)
Definition is_linebreak (c : ascii) : bool :=
  let n := ord c in
  ((10 <=? n) && (n <=? 13)) || ((28 <=? n) && (n <=? 30)) || (n =? 133).

Fixpoint splitlines_go (s cur : list ascii) (after_cr : bool) : list string :=
  match s with
  | [] => match cur with [] => [] | _ => [str_of (rev cur)] end
  | c :: s' =>
      if after_cr && Ascii.eqb c newline then splitlines_go s' cur false
      else if is_linebreak c then
        str_of (rev cur) :: splitlines_go s' [] (ord c =? 13)
      else splitlines_go s' (c :: cur) false
  end.
Definition splitlines (text : string) : list string :=
  splitlines_go (chars text) [] false.

(** [str.strip()]. *)
Fixpoint lstrip (s : list ascii) : list ascii :=
  match s with
  | c :: s' => if is_space c then lstrip s' else s
  | [] => []
  end.
Definition strip (s : string) : string :=
  str_of (rev (lstrip (rev (lstrip (chars s))))).

(** [int(s)] for a string: surrounding whitespace is dropped, a sign may
    come first, the digits may be grouped by single underscores. *)
Fixpoint int_digits (s : list ascii) (acc : Z) (after_digit : bool)
    : option Z :=
  match s with
  | [] => if after_digit then Some acc else None
  | c :: s' =>
      if is_digit c then int_digits s' (10 * acc + (ord c - 48)) true
      else if Ascii.eqb c "_" && after_digit then
        match s' with
        | [] => None
        | _ => int_digits s' acc false
        end
      else None
  end.

Definition py_int (s : string) : outcome Z :=
  let body := chars (strip s) in
  let parsed :=
    match body with
    | c :: rest =>
        if Ascii.eqb c "-" then Z.opp <$> int_digits rest 0 false
        else if Ascii.eqb c "+" then int_digits rest 0 false
        else int_digits body 0 false
    | [] => None
    end in
  match parsed with
  | Some n => Returns n
  | None => Raises ValueError
  end.

(** [s.split(sep)] for a non-empty separator. *)
Fixpoint is_prefix (p s : list ascii) : bool :=
  match p, s with
  | [], _ => true
  | c :: p', d :: s' => Ascii.eqb c d && is_prefix p' s'
  | _ :: _, [] => false
  end.

Fixpoint split_go (sep s cur : list ascii) (skip : nat) : list string :=
  match s with
  | [] => [str_of (rev cur)]
  | c :: s' =>
      match skip with
      | S skip' => split_go sep s' cur skip'
      | O =>
          if is_prefix sep s then
            str_of (rev cur) :: split_go sep s' [] (length sep - 1)
          else split_go sep s' (c :: cur) O
      end
  end.
Definition split (s sep : string) : list string :=
  split_go (chars sep) (chars s) [] O.

(** [l.index(x)]: position of the first occurrence, [ValueError] when
    there is none. *)
Fixpoint list_index {A} `{EqDecision A} (l : list A) (x : A) : outcome nat :=
  match l with
  | [] => Raises ValueError
  | y :: l' =>
      if decide (y = x) then Returns O
      else i ← list_index l' x; Returns (S i)
  end.

(** [max(iterable)] of integers. *)
Definition py_max (l : list Z) : outcome Z :=
  match l with
  | [] => Raises ValueError
  | x :: l' => Returns (fold_left (λ m y, if m <? y then y else m) l' x)
  end.

(** [s.split()]: the maximal runs of non-whitespace characters. *)
Fixpoint split_whitespace_go (s cur : list ascii) : list string :=
  match s with
  | [] => match cur with [] => [] | _ => [str_of (rev cur)] end
  | c :: s' =>
      if is_space c then
        match cur with
        | [] => split_whitespace_go s' []
        | _ => str_of (rev cur) :: split_whitespace_go s' []
        end
      else split_whitespace_go s' (c :: cur)
  end.
Definition split_whitespace (s : string) : list string :=
  split_whitespace_go (chars s) [].

(** *** NumPy integer arrays *)

(** The elements of an integer array have 64 bits: a sum that leaves
    their range wraps around. *)
Definition int64_wrap (x : Z) : Z := (x + 2 ^ 63) mod 2 ^ 64 - 2 ^ 63.

(** [array + x], for an integer [x] that fits in 64 bits itself. *)
Definition np_add (array : list Z) (x : Z) : list Z :=
  map (λ element, int64_wrap (element + x)) array.

(** [x in array]. *)
Definition np_contains (array : list Z) (x : Z) : bool :=
  existsb (Z.eqb x) array.

(** *** Standard output *)

(** What [print] writes: the arguments separated by spaces and a
    newline. *)
Definition py_print (args : list string) : string :=
  String.concat " " args +:+ String newline "".

(** A sequence of [print] statements, each given by the text it writes
    once its arguments are evaluated: the text written to standard output
    and how the sequence ends.  A statement whose arguments raise writes
    nothing and ends the run. *)
Fixpoint run_prints (statements : list (outcome string))
    : string * outcome unit :=
  match statements with
  | [] => ("", Returns tt)
  | statement :: statements' =>
      match statement with
      | Returns text =>
          let '(written, ending) := run_prints statements' in
          (text +:+ written, ending)
      | Raises e => ("", Raises e)
      | OutOfFuel => ("", OutOfFuel)
      end
  end.

(** The lines of a text written to standard output. *)
Definition output_lines (written : string) : list string := file_lines written.

(** ** Day 25 (2022): SNAFU numbers *)

Module Day25.

(** Maps snafu chars to decimal representation. *)
Definition SNAFU_TO_DECIMAL_MAP : gmap ascii Z :=
  list_to_map
    ((map (fun i => (i, ord i - 48)) ["0"; "1"; "2"]%char)
     ++ [("-"%char, -1); ("="%char, -2)]).

(** Maps decimal integers to their SNAFU representation. *)
Definition DECIMAL_TO_SNAFU_MAP : gmap Z ascii :=
  list_to_map (map (fun '(snafu_char, n) => (n, snafu_char))
                   (map_to_list SNAFU_TO_DECIMAL_MAP)).

Definition snafu_to_decimal (snafu_number : string) : outcome Z :=
  terms ← py_map (fun '(digit_index, snafu_digit) =>
                  v ← dict_get SNAFU_TO_DECIMAL_MAP snafu_digit;
                  Returns (v * 5 ^ digit_index))
               (enumerate (rev (chars snafu_number)));
  Returns (py_sum terms).

(** The [while decimal_number:] loop; [digits] is the deque, leftmost
    element first. *)
Fixpoint decimal_to_base_loop (fuel : nat) (decimal_number base : Z)
    (digits : list string) : outcome (list string) :=
  if decimal_number =? 0 then Returns digits
  else match fuel with
       | O => OutOfFuel
       | S fuel' =>
           if base =? 0 then Raises ZeroDivisionError
           else
             decimal_to_base_loop fuel' (decimal_number / base) base
               (str_int (decimal_number mod base) :: digits)
       end.

Definition decimal_to_base (fuel : nat) (decimal_number base : Z)
    : outcome string :=
  digits ← decimal_to_base_loop fuel decimal_number base [];
  Returns (String.concat "" digits).

(** One iteration of the [for digit in map(int, reversed(...))] loop; the
    state is [(snafu_digits, remainder)]. *)
Definition snafu_step (base : Z) (st : list ascii * Z) (c : ascii)
    : outcome (list ascii * Z) :=
  let '(snafu_digits, remainder) := st in
  d ← int_of_char c;
  let digit := d + remainder in
  if (digit =? 0) || (digit =? 1) || (digit =? 2) then
    ch ← dict_get DECIMAL_TO_SNAFU_MAP digit;
    Returns (snafu_digits ++ [ch], 0)
  else if (digit =? 3) || (digit =? 4) || (digit =? 5) then
    let current_digit := digit - base in
    ch ← dict_get DECIMAL_TO_SNAFU_MAP current_digit;
    Returns (snafu_digits ++ [ch], 1)
  else Raises ValueError.

Definition decimal_to_snafu (fuel : nat) (decimal_number base : Z)
    : outcome string :=
  base_five_number ← decimal_to_base fuel decimal_number base;
  '(snafu_digits, remainder) ←
      foldM (snafu_step base) (rev (chars base_five_number)) ([], 0);
  let snafu_digits :=
    if remainder =? 0 then snafu_digits else snafu_digits ++ ["1"%char] in
  Returns (str_of (rev snafu_digits)).

Definition default_filepath (script_file : path) : path :=
  joinpath (parent (parent script_file)) "inputs.txt".

(** The generator [parse_inputs]: the stripped lines. *)
Definition parse_inputs (fs : filesystem) (filepath : path)
    : outcome (list string) :=
  text ← read_file fs filepath;
  Returns (map strip (file_lines text)).

Definition part_1 (fuel : nat) (fs : filesystem) (filepath : path)
    : outcome string :=
  snafu_numbers ← parse_inputs fs filepath;
  decimals ← py_map snafu_to_decimal snafu_numbers;
  decimal_to_snafu fuel (py_sum decimals) 5.

Definition main (fuel : nat) (fs : filesystem) (script_file : path)
    : string * outcome unit :=
  run_prints
    [ (answer ← part_1 fuel fs (default_filepath script_file);
       Returns (py_print ["Part 1:"; answer]));
      Returns (py_print ["Part 2: There is no part 2 :("]) ].

End Day25.

(** ** Day 13 (2022): packet comparison *)

Module Day13.

(** A packet item: an integer or a list of items. *)
#[warnings="-register-all"]
Inductive item : Type :=
  | Int (n : Z)
  | List (l : list item).

(** [x == []]. *)
Definition is_empty_list (x : item) : bool :=
  match x with
  | List [] => true
  | _ => false
  end.

Fixpoint pairwise_comparison (fuel : nat) (left_item right_item : item)
    : outcome Z :=
  match fuel with
  | O => OutOfFuel
  | S fuel' =>
      if is_empty_list right_item && is_empty_list left_item then Returns 1
      else if is_empty_list right_item then Returns (-1)
      else if is_empty_list left_item then Returns 1
      else
        match left_item, right_item with
        | Int l, Int r =>
            if l <? r then Returns 1
            else if l >? r then Returns (-1)
            else Returns 0
        | Int l, List _ =>
            pairwise_comparison fuel' (List [Int l]) right_item
        | List _, Int r =>
            pairwise_comparison fuel' left_item (List [Int r])
        | List (left_element :: left_tail),
          List (right_element :: right_tail) =>
            if is_empty_list left_element && is_empty_list right_element then
              if is_empty_list (List left_tail)
                 && is_empty_list (List right_tail)
              then Returns 1
              else pairwise_comparison fuel' (List left_tail) (List right_tail)
            else
              element_comparison ←
                pairwise_comparison fuel' left_element right_element;
              if negb (element_comparison =? 0) then Returns element_comparison
              else pairwise_comparison fuel' (List left_tail) (List right_tail)
        | List [], List _ | List _, List [] =>
            (* the starred unpacking of an empty list *)
            Raises ValueError
        end
  end.

(** [comparison_function(left_item, right_item) in (0, 1)], with the
    default comparison function. *)
Definition is_pair_sorted (fuel : nat) (left_item right_item : item)
    : outcome bool :=
  c ← pairwise_comparison fuel left_item right_item;
  Returns ((c =? 0) || (c =? 1)).

End Day13.

(** ** Day 12 (2022): hill climbing *)

Module Day12.

(** The input path every function of the script defaults to:
    [Path(__file__).parent.parent.joinpath("inputs.txt")]. *)
Definition default_filepath (script_file : path) : path :=
  joinpath (parent (parent script_file)) "inputs.txt".

Definition get_heightmap (fs : filesystem) (filepath : path)
    : outcome (list string) :=
  text ← read_file fs filepath;
  Returns (splitlines text).

(** [heightmap[row_index][column_index]]. *)
Definition letter_at (heightmap : list string) (row_index column_index : Z)
    : outcome ascii :=
  row ← py_index heightmap row_index;
  py_index (chars row) column_index.

Definition positions_with_elevation_letter (heightmap : list string)
    (elevation_letter : ascii) : outcome (list (Z * Z)) :=
  first_row ← py_index heightmap 0;
  let num_rows := length heightmap in
  let num_columns := length (chars first_row) in
  py_filter
    (λ '(row_index, column_index),
       letter ← letter_at heightmap row_index column_index;
       Returns (Ascii.eqb letter elevation_letter))
    (row_index ← py_range num_rows;
     column_index ← py_range num_columns;
     [(row_index, column_index)]).

Definition height_at_position (heightmap : list string)
    (row_index column_index : Z) : outcome Z :=
  letter_at_position ← letter_at heightmap row_index column_index;
  (* "S" is the start and always has elevation "a" and "E" is the goal
     and always has elevation "z". *)
  let letter_at_position :=
    if Ascii.eqb letter_at_position "S" then "a"%char
    else if Ascii.eqb letter_at_position "E" then "z"%char
    else letter_at_position in
  Returns (ord letter_at_position).

(** [steps[row][column]] and [steps[row][column] = value]. *)
Definition grid_get (steps : list (list num)) (row column : Z) : outcome num :=
  r ← py_index steps row;
  py_index r column.

Definition grid_set (steps : list (list num)) (row column : Z) (value : num)
    : outcome (list (list num)) :=
  r ← py_index steps row;
  r' ← py_setitem r column value;
  py_setitem steps row r'.

Definition step_offsets : list (Z * Z) := [(1, 0); (-1, 0); (0, 1); (0, -1)].

(** The body of the inner [for] loop, for one offset; the state is
    [(steps, index_queue)].  The conditions are evaluated left to right
    and the later ones only when the earlier ones hold. *)
Definition visit (heightmap : list string) (num_rows num_columns : Z)
    (current : Z * Z) (st : list (list num) * list (Z * Z)) (offset : Z * Z)
    : outcome (list (list num) * list (Z * Z)) :=
  let '(steps, index_queue) := st in
  let '(current_row_index, current_column_index) := current in
  let '(step_row_offset, step_column_offset) := offset in
  let new_row_index := current_row_index + step_row_offset in
  let new_column_index := current_column_index + step_column_offset in
  if (0 <=? new_row_index) && (new_row_index <? num_rows) then
    if (0 <=? new_column_index) && (new_column_index <? num_columns) then
      seen ← grid_get steps new_row_index new_column_index;
      if is_inf seen then
        new_height ← height_at_position heightmap new_row_index new_column_index;
        current_height ←
          height_at_position heightmap current_row_index current_column_index;
        if new_height <=? current_height + 1 then
          current_steps ← grid_get steps current_row_index current_column_index;
          steps' ← grid_set steps new_row_index new_column_index
                     (num_succ current_steps);
          Returns (steps', index_queue ++ [(new_row_index, new_column_index)])
        else Returns st
      else Returns st
    else Returns st
  else Returns st.

(** The [while index_queue:] loop. *)
Fixpoint search_loop (fuel : nat) (heightmap : list string)
    (num_rows num_columns : Z) (steps : list (list num))
    (index_queue : list (Z * Z)) : outcome (list (list num)) :=
  match index_queue with
  | [] => Returns steps
  | current :: index_queue' =>
      match fuel with
      | O => OutOfFuel
      | S fuel' =>
          '(steps', index_queue'') ←
            foldM (visit heightmap num_rows num_columns current)
                  step_offsets (steps, index_queue');
          search_loop fuel' heightmap num_rows num_columns steps' index_queue''
      end
  end.

Definition breadth_first_height_search (fuel : nat) (heightmap : list string)
    (start_position_index goal_position_index : Z * Z) : outcome num :=
  first_row ← py_index heightmap 0;
  let num_rows := length heightmap in
  let num_columns := length (chars first_row) in
  let '(start_row_index, start_column_index) := start_position_index in
  let '(goal_row_index, goal_column_index) := goal_position_index in
  let steps := replicate num_rows (replicate num_columns Inf) in
  steps ← grid_set steps start_row_index start_column_index (Fin 0);
  steps ← search_loop fuel heightmap (Z.of_nat num_rows) (Z.of_nat num_columns)
            steps [(start_row_index, start_column_index)];
  grid_get steps goal_row_index goal_column_index.

(** [part_1] and [part_2] take a [filepath] but call [get_heightmap()]
    without it. *)
Definition part_1 (fuel : nat) (fs : filesystem) (script_file : path)
    (filepath : path) : outcome num :=
  heightmap ← get_heightmap fs (default_filepath script_file);
  starts ← positions_with_elevation_letter heightmap "S";
  start_position_index ← unpack_single starts;
  goals ← positions_with_elevation_letter heightmap "E";
  goal_position_index ← unpack_single goals;
  breadth_first_height_search fuel heightmap
    start_position_index goal_position_index.

(** The heart of [part_2], once the heightmap is read. *)
Definition part_2_on (fuel : nat) (heightmap : list string) : outcome num :=
  start_position_indices ← positions_with_elevation_letter heightmap "a";
  goals ← positions_with_elevation_letter heightmap "E";
  goal_position_index ← unpack_single goals;
  results ← py_map (λ start_position_index,
                      breadth_first_height_search fuel heightmap
                        start_position_index goal_position_index)
                   start_position_indices;
  py_min results.

Definition part_2 (fuel : nat) (fs : filesystem) (script_file : path)
    (filepath : path) : outcome num :=
  heightmap ← get_heightmap fs (default_filepath script_file);
  part_2_on fuel heightmap.

(** [str(answer)]: the digits of an integer, [inf] for [math.inf]. *)
Definition str_num (x : num) : string :=
  match x with
  | Fin n => str_int n
  | Inf => "inf"
  end.

Definition main (fuel : nat) (fs : filesystem) (script_file : path)
    : string * outcome unit :=
  run_prints
    [ (answer ← part_1 fuel fs script_file (default_filepath script_file);
       Returns (py_print ["Part 1:"; str_num answer]));
      (answer ← part_2 fuel fs script_file (default_filepath script_file);
       Returns (py_print ["Part 2:"; str_num answer])) ].

End Day12.

(** ** Day 16 (2022): valves and tunnels *)

Module Day16.

(** Tuple of valve index visiting order and corresponding pressure
    released score. *)
Record ScoredOrder : Type := { order : list nat; score : Z }.

(** [best_score]: [float("-inf")] until a pair has been scored. *)
Inductive best : Type :=
  | NegInf
  | Best (n : Z).

(** [x < best_score] and [max(best_score, x)] for an integer [x]. *)
Definition lt_best (x : Z) (b : best) : bool :=
  match b with
  | NegInf => false
  | Best n => x <? n
  end.

Definition max_best (b : best) (x : Z) : best :=
  match b with
  | NegInf => Best x
  | Best n => if n <? x then Best x else Best n
  end.

(** [itertools.combinations(l, r=2)]. *)
Fixpoint combinations {A} (l : list A) : list (A * A) :=
  match l with
  | [] => []
  | x :: l' => map (pair x) l' ++ combinations l'
  end.

(** [sorted(orders, key=score, reverse=True)]: stable, highest score
    first. *)
Fixpoint insert_by_score (x : ScoredOrder) (l : list ScoredOrder)
    : list ScoredOrder :=
  match l with
  | [] => [x]
  | y :: l' =>
      if score x <? score y then y :: insert_by_score x l' else x :: l
  end.

Definition sorted_by_score (l : list ScoredOrder) : list ScoredOrder :=
  foldr insert_by_score [] l.

(** Truth value of [set(a).intersection(b)]. *)
Definition share_valve (a b : list nat) : bool :=
  existsb (λ v, bool_decide (v ∈ b)) a.

Section Solver.

(** The regular expression search on one line: the groups [name], [rate]
    and [connected_valves] of the first match, if any. *)
Variable re_search : string → option (string * string * string).

(** [Graph(n, edges, directed=True).shortest_paths()], as a table indexed
    by two valves; the graph is kept as this table, the only thing the
    script asks of it. *)
Variable shortest_paths : nat → list (nat * nat) → nat → nat → Z.

(** The order in which a [for] loop runs through a set. *)
Variable set_iter : gset nat → list nat.

(** The parsing loop of [parse_lines]; the state is
    [(valve_names, valve_rates, valve_edges)]. *)
Definition parse_line (st : list string * list Z * list (string * string))
    (line : string)
    : outcome (list string * list Z * list (string * string)) :=
  let '(valve_names, valve_rates, valve_edges) := st in
  match re_search line with
  | Some (name, rate, connected) =>
      rate ← py_int rate;
      let connected_valves := split connected ", " in
      Returns (valve_names ++ [name], valve_rates ++ [rate],
               valve_edges ++ map (pair name) connected_valves)
  | None => Raises ValueError
  end.

Definition parse_lines (fs : filesystem) (filepath : path)
    : outcome (list string * list Z * (nat → nat → Z)) :=
  text ← read_file fs filepath;
  '(valve_names, valve_rates, valve_edges) ←
     foldM parse_line (file_lines text) ([], [], []);
  valve_id_edges ←
    py_map (λ edge : string * string,
              a ← list_index valve_names edge.1;
              b ← list_index valve_names edge.2;
              Returns (a, b))
           valve_edges;
  let connectivity_graph :=
    shortest_paths (length valve_names) valve_id_edges in
  Returns (valve_names, valve_rates, connectivity_graph).

(** [valve_rates[valve]] for a valve that [relevant_valves] has found in
    range. *)
Definition rate_of (valve_rates : list Z) (valve : nat) : Z :=
  valve_rates !!! valve.

Definition process_visiting_order (distances : nat → nat → Z)
    (valve_order : list nat) (valve_rates : list Z) (start_valve : nat)
    (time_left : Z) : Z :=
  let '(pressure_released, _, _) :=
    fold_left
      (λ '(pressure_released, current_valve, time_left) next_valve,
         let travel_time := distances current_valve next_valve in
         let time_left := time_left - travel_time in
         let time_left := time_left - 1 in
         (pressure_released + time_left * rate_of valve_rates next_valve,
          next_valve, time_left))
      valve_order (0, start_valve, time_left) in
  pressure_released.

(** The generator, by recursion on the number [n] of valves left to
    visit: with none left the loop body never runs. *)
Fixpoint generate_visiting_orders (n : nat) (distances : nat → nat → Z)
    (start_valve : nat) (valves_left_to_visit : gset nat)
    (valves_visited : list nat) (time_left : Z) : list (list nat) :=
  match n with
  | O => [valves_visited]
  | S n' =>
      flat_map
        (λ valve_to_visit,
           let travel_time := distances start_valve valve_to_visit in
           if travel_time + 1 <? time_left then
             generate_visiting_orders n' distances valve_to_visit
               (valves_left_to_visit ∖ {[valve_to_visit]})
               (valves_visited ++ [valve_to_visit])
               (time_left - (travel_time + 1))
           else [])
        (set_iter valves_left_to_visit)
      ++ [valves_visited]
  end.

Definition recursively_generate_visiting_orders (distances : nat → nat → Z)
    (start_valve : nat) (valves_left_to_visit : gset nat)
    (valves_visited : list nat) (time_left : Z) : list (list nat) :=
  generate_visiting_orders (size valves_left_to_visit) distances start_valve
    valves_left_to_visit valves_visited time_left.

(** Valves with rate 0 never contribute, so just drop them. *)
Definition relevant_valves (valve_names : list string) (valve_rates : list Z)
    : outcome (gset nat) :=
  valves ← py_filter (λ valve_index,
                        rate ← py_index valve_rates (Z.of_nat valve_index);
                        Returns (rate >? 0))
                     (seq 0 (length valve_names));
  Returns (list_to_set valves).

(** [part_1], once the lines are parsed. *)
Definition part_1_on (valve_names : list string) (valve_rates : list Z)
    (distances : nat → nat → Z) (start_valve_name : string)
    (time_left_at_start : Z) : outcome Z :=
  relevant ← relevant_valves valve_names valve_rates;
  start_valve ← list_index valve_names start_valve_name;
  let visiting_orders :=
    recursively_generate_visiting_orders distances start_valve
      relevant [] time_left_at_start in
  py_max (map (λ visiting_order,
                 process_visiting_order distances visiting_order valve_rates
                   start_valve time_left_at_start)
              visiting_orders).

Definition part_1 (fs : filesystem) (filepath : path)
    (start_valve_name : string) (time_left_at_start : Z) : outcome Z :=
  '(valve_names, valve_rates, distances) ← parse_lines fs filepath;
  part_1_on valve_names valve_rates distances start_valve_name
    time_left_at_start.

(** The scored visiting orders of [part_2]. *)
Definition orders_with_scores (valve_rates : list Z)
    (distances : nat → nat → Z) (start_valve : nat)
    (relevant : gset nat) (time_left_at_start : Z) : list ScoredOrder :=
  map (λ visiting_order,
         {| order := visiting_order;
            score := process_visiting_order distances visiting_order
                       valve_rates start_valve time_left_at_start |})
      (recursively_generate_visiting_orders distances start_valve
         relevant [] time_left_at_start).

(** The loop over the pairs, with its [break] and its [continue]. *)
Fixpoint best_pair_loop (pairs : list (ScoredOrder * ScoredOrder))
    (best_score : best) : best :=
  match pairs with
  | [] => best_score
  | (scored_order_human, scored_order_elephant) :: pairs' =>
      if lt_best (score scored_order_human * 2) best_score then best_score
      else if share_valve (order scored_order_human)
                          (order scored_order_elephant)
      then best_pair_loop pairs' best_score
      else
        let combined_score :=
          score scored_order_human + score scored_order_elephant in
        best_pair_loop pairs' (max_best best_score combined_score)
  end.

(** [part_2], once the lines are parsed. *)
Definition part_2_on (valve_names : list string) (valve_rates : list Z)
    (distances : nat → nat → Z) (start_valve_name : string)
    (time_left_at_start : Z) : outcome best :=
  relevant ← relevant_valves valve_names valve_rates;
  start_valve ← list_index valve_names start_valve_name;
  let scored :=
    orders_with_scores valve_rates distances start_valve
      relevant time_left_at_start in
  Returns (best_pair_loop (combinations (sorted_by_score scored)) NegInf).

Definition part_2 (fs : filesystem) (filepath : path)
    (start_valve_name : string) (time_left_at_start : Z) : outcome best :=
  '(valve_names, valve_rates, distances) ← parse_lines fs filepath;
  part_2_on valve_names valve_rates distances start_valve_name
    time_left_at_start.

Definition default_filepath (script_file : path) : path :=
  joinpath (parent (parent script_file)) "inputs.txt".

(** [str(best_score)]. *)
Definition str_best (b : best) : string :=
  match b with
  | NegInf => "-inf"
  | Best n => str_int n
  end.

Definition main (fs : filesystem) (script_file : path)
    : string * outcome unit :=
  run_prints
    [ (answer ← part_1 fs (default_filepath script_file) "AA" 30;
       Returns (py_print ["Part 1:"; str_int answer]));
      (answer ← part_2 fs (default_filepath script_file) "AA" 26;
       Returns (py_print ["Part 2:"; str_best answer])) ].

End Solver.

End Day16.

(** ** Day 1 (2022): calorie counting *)

Module Day1.

(** The default [filepath] of [generate_elf_calories_from_file] and of
    [part_1_solution]:
    [Path(__file__).parent.parent.joinpath("inputs.txt")]. *)
Definition default_filepath (script_file : path) : path :=
  joinpath (parent (parent script_file)) "inputs.txt".

(** The default [filepath] of [part_2_solution]:
    [Path(__file__).parent.joinpath("inputs.txt")]. *)
Definition part_2_default_filepath (script_file : path) : path :=
  joinpath (parent script_file) "inputs.txt".

(** One line of the file; the state is the elves yielded so far and
    [single_elf_calories]. *)
Definition read_calorie_line (st : list (list Z) * list Z) (line : string)
    : outcome (list (list Z) * list Z) :=
  let '(yielded, single_elf_calories) := st in
  if String.eqb (strip line) "" then
    Returns (yielded ++ [single_elf_calories], [])
  else
    single_calorie_entry ← py_int (strip line);
    Returns (yielded, single_elf_calories ++ [single_calorie_entry]).

(** Everything the generator yields when it is run to its end. *)
Definition generate_elf_calories_from_file (fs : filesystem) (filepath : path)
    : outcome (list (list Z)) :=
  text ← read_file fs filepath;
  '(yielded, single_elf_calories) ←
     foldM read_calorie_line (file_lines text) ([], []);
  Returns (yielded ++ [single_elf_calories]).

(** The argument [elf_calories] is a generator that this function never
    runs: it calls [generate_elf_calories_from_file()] afresh, with the
    default path. *)
Definition carried_calories_per_elf (fs : filesystem) (script_file : path)
    (elf_calories : outcome (list (list Z))) : outcome (list Z) :=
  calories ← generate_elf_calories_from_file fs (default_filepath script_file);
  Returns (map py_sum calories).

Definition part_1_solution (fs : filesystem) (script_file : path)
    (filepath : path) : outcome Z :=
  carried ← carried_calories_per_elf fs script_file
              (generate_elf_calories_from_file fs filepath);
  py_max carried.

(** [heapq.nlargest(n, iterable)]: the [n] largest, largest first. *)
Fixpoint insert_desc (x : Z) (l : list Z) : list Z :=
  match l with
  | [] => [x]
  | y :: l' => if x <? y then y :: insert_desc x l' else x :: l
  end.
Definition nlargest (n : nat) (l : list Z) : list Z :=
  take n (foldr insert_desc [] l).

(** The generator that [carried_calories_per_elf] returns opens the file
    when its first element is asked for.  [heapq.nlargest] asks for none
    when [n] is 0, and runs the generator to its end otherwise. *)
Definition part_2_solution (fs : filesystem) (script_file : path)
    (filepath : path) (num_highest_calorie_elfs_to_consider : nat)
    : outcome Z :=
  match num_highest_calorie_elfs_to_consider with
  | O => Returns (py_sum [])
  | S _ =>
      carried ← carried_calories_per_elf fs script_file
                  (generate_elf_calories_from_file fs filepath);
      let highest_calories_carried :=
        nlargest num_highest_calorie_elfs_to_consider carried in
      Returns (py_sum highest_calories_carried)
  end.

Definition main (fs : filesystem) (script_file : path)
    : string * outcome unit :=
  run_prints
    [ (answer ← part_1_solution fs script_file (default_filepath script_file);
       Returns (py_print ["PART 1:"; str_int answer]));
      (answer ← part_2_solution fs script_file
                  (part_2_default_filepath script_file) 3;
       Returns (py_print ["PART 2:"; str_int answer])) ].

End Day1.

(** ** Day 4 (2022): section assignments *)

Module Day4.

Definition default_filepath (script_file : path) : path :=
  joinpath (parent (parent script_file)) "inputs.txt".

(** [left_assignment, right_assignment = line.split(",")]. *)
Definition split_assignments (line : string) : outcome (string * string) :=
  match split line "," with
  | [left_assignment; right_assignment] =>
      Returns (left_assignment, right_assignment)
  | _ => Raises ValueError
  end.

(** The generator: opening the file may fail, and then each line is split
    when the consumer asks for the next pair. *)
Definition generate_assignment_pairs (fs : filesystem) (filepath : path)
    : outcome (list (outcome (string * string))) :=
  text ← read_file fs filepath;
  Returns (map split_assignments (file_lines text)).

(** The longest run of digits a string starts with, and what follows. *)
Fixpoint span_digits (s : list ascii) : list ascii * list ascii :=
  match s with
  | c :: s' =>
      if is_digit c then
        let '(digits, rest) := span_digits s' in (c :: digits, rest)
      else ([], s)
  | [] => ([], [])
  end.

(** [re.match] of the pattern [(\d+)-(\d+)] at the start of the string:
    the two groups. *)
Definition re_match_assignment (assignment : string)
    : option (string * string) :=
  let '(assignment_start, rest) := span_digits (chars assignment) in
  match assignment_start, rest with
  | _ :: _, dash :: rest' =>
      if Ascii.eqb dash "-" then
        let '(assignment_end, _) := span_digits rest' in
        match assignment_end with
        | _ :: _ => Some (str_of assignment_start, str_of assignment_end)
        | [] => None
        end
      else None
  | _, _ => None
  end.

(** [set(range(start, stop))]. *)
Definition range_set (start stop : Z) : gset Z :=
  list_to_set (map (λ i, start + Z.of_nat i) (seq 0 (Z.to_nat (stop - start)))).

Definition assignment_to_range_set (assignment : string) : outcome (gset Z) :=
  match re_match_assignment assignment with
  | None => Raises ValueError
  | Some (start_group, end_group) =>
      assignment_start ← py_int start_group;
      assignment_end ← py_int end_group;
      Returns (range_set assignment_start (assignment_end + 1))
  end.

(** The loop shared by the two parts: count the pairs for which [test]
    holds. *)
Definition count_pairs (test : gset Z → gset Z → bool)
    (fs : filesystem) (filepath : path) : outcome Z :=
  pairs ← generate_assignment_pairs fs filepath;
  foldM (λ count next_pair,
           '(left_assignment, right_assignment) ← next_pair;
           left_range ← assignment_to_range_set left_assignment;
           right_range ← assignment_to_range_set right_assignment;
           Returns (if test left_range right_range then count + 1 else count))
        pairs 0.

Definition part_1 (fs : filesystem) (filepath : path) : outcome Z :=
  count_pairs (λ left_range right_range,
                 bool_decide (left_range ⊆ right_range)
                 || bool_decide (right_range ⊆ left_range))
              fs filepath.

Definition part_2 (fs : filesystem) (filepath : path) : outcome Z :=
  count_pairs (λ left_range right_range,
                 negb (bool_decide (left_range ∩ right_range = ∅))
                 || negb (bool_decide (right_range ∩ left_range = ∅)))
              fs filepath.

Definition main (fs : filesystem) (script_file : path)
    : string * outcome unit :=
  run_prints
    [ (answer ← part_1 fs (default_filepath script_file);
       Returns (py_print [str_int answer]));
      (answer ← part_2 fs (default_filepath script_file);
       Returns (py_print [str_int answer])) ].

End Day4.

(** ** Day 10 (2022): cathode-ray tube *)

Module Day10.

Definition default_filepath (script_file : path) : path :=
  joinpath (parent (parent script_file)) "inputs.txt".

Record instruction : Type :=
  { name : string; num_cycles : nat; register_increase : Z }.

Definition parse_instruction (line_ : string) : outcome instruction :=
  let line := strip line_ in
  if String.eqb line "noop" then
    Returns {| name := "noop"; num_cycles := 1; register_increase := 0 |}
  else
    match split_whitespace line with
    | [instruction_name; register_increase] =>
        if String.eqb instruction_name "addx" then
          increase ← py_int register_increase;
          Returns {| name := instruction_name; num_cycles := 2;
                     register_increase := increase |}
        else Raises AssertionError
    | _ => Raises ValueError
    end.

Definition generate_instructions (fs : filesystem) (filepath : path)
    : outcome (list instruction) :=
  text ← read_file fs filepath;
  py_map parse_instruction (file_lines text).

(** [range(1, n + 1)]. *)
Definition cycle_indices (n : nat) : list Z := map Z.of_nat (seq 1 n).

(** [report_cycle_values]; the state is [(num_cycles_processed,
    register_value, next_cycle_to_report)] and the pairs yielded. *)
Definition report_cycle_values (instructions : list instruction)
    (first_cycle_to_report cycle_to_report_increment : Z) : list (Z * Z) :=
  snd
    (fold_left
       (λ '((num_cycles_processed, register_value, next_cycle_to_report),
            yielded) instr,
          let '(next_cycle_to_report, yielded) :=
            fold_left
              (λ '(next_cycle_to_report, yielded) instruction_cycle_index,
                 if num_cycles_processed + instruction_cycle_index
                    =? next_cycle_to_report
                 then (next_cycle_to_report + cycle_to_report_increment,
                       yielded ++ [(next_cycle_to_report, register_value)])
                 else (next_cycle_to_report, yielded))
              (cycle_indices (num_cycles instr))
              (next_cycle_to_report, yielded) in
          ((num_cycles_processed + Z.of_nat (num_cycles instr),
            register_value + register_increase instr,
            next_cycle_to_report), yielded))
       instructions ((0, 1, first_cycle_to_report), [])).

Definition part_1 (fs : filesystem) (filepath : path) : outcome Z :=
  instructions ← generate_instructions fs filepath;
  Returns (fold_left (λ signal_strength '(cycle_index, register_value),
                        signal_strength + cycle_index * register_value)
                     (report_cycle_values instructions 20 40) 0).

(** [part_2]; the state is [(num_cycles_processed, sprite_positions,
    crt_rows, current_crt_row)], the sprite positions being the array
    [np.asarray([0, 1, 2])] at first. *)
Definition part_2 (fs : filesystem) (filepath : path) : outcome string :=
  instructions ← generate_instructions fs filepath;
  let '(_, _, crt_rows, _) :=
    fold_left
      (λ '(num_cycles_processed, sprite_positions, crt_rows, current_crt_row)
         instr,
         let '(crt_rows, current_crt_row) :=
           fold_left
             (λ '(crt_rows, current_crt_row) instruction_cycle_index,
                let crt_char :=
                  if np_contains sprite_positions
                       (Z.of_nat (length current_crt_row))
                  then "#"%char else "."%char in
                let current_crt_row := current_crt_row ++ [crt_char] in
                if (num_cycles_processed + instruction_cycle_index) mod 40 =? 0
                then (crt_rows ++ [str_of current_crt_row], [])
                else (crt_rows, current_crt_row))
             (cycle_indices (num_cycles instr)) (crt_rows, current_crt_row) in
         (num_cycles_processed + Z.of_nat (num_cycles instr),
          np_add sprite_positions (register_increase instr),
          crt_rows, current_crt_row))
      instructions (0, [0; 1; 2], [], []) in
  Returns (String.concat (String newline "") crt_rows).

Definition main (fs : filesystem) (script_file : path)
    : string * outcome unit :=
  run_prints
    [ (answer ← part_1 fs (default_filepath script_file);
       Returns (py_print ["Part 1:"; str_int answer]));
      Returns (py_print ["Part 2:"]);
      (image ← part_2 fs (default_filepath script_file);
       Returns (py_print [image])) ].

End Day10.

(** * Vocabulary of the statements and of the proofs *)

(** ** Day 25: place values *)

(** Value of a little-endian list of base-5 digits. *)
Fixpoint value_lsb (ds : list Z) : Z :=
  match ds with
  | [] => 0
  | d :: ds' => d + 5 * value_lsb ds'
  end.

Definition digit_str (d : Z) : string := String (digit_char d) EmptyString.

Definition sval (c : ascii) : Z := default 0 (Day25.SNAFU_TO_DECIMAL_MAP !! c).

(** The digits the carry loop emits are keys of the SNAFU table. *)
Definition snafu_chars (l : list ascii) : Prop :=
  Forall (λ c, is_Some (Day25.SNAFU_TO_DECIMAL_MAP !! c)) l.

(** ** Day 12: walks on the heightmap, and the state of the search *)

Definition num_columns (heightmap : list string) : nat :=
  match heightmap with
  | [] => O
  | row :: _ => length (chars row)
  end.

Definition rectangular (heightmap : list string) : Prop :=
  Forall (λ row, length (chars row) = num_columns heightmap) heightmap.

Definition in_bounds (heightmap : list string) (p : Z * Z) : Prop :=
  0 <= p.1 < Z.of_nat (length heightmap)
  ∧ 0 <= p.2 < Z.of_nat (num_columns heightmap).

(** The cell of a grid at a position with non-negative coordinates. *)
Definition cell {A} (grid : list (list A)) (p : Z * Z) : option A :=
  grid !! Z.to_nat p.1 ≫= λ row, row !! Z.to_nat p.2.

(** Elevation of a cell: the code point of its letter, with ["S"] read as
    ["a"] and ["E"] as ["z"]. *)
Definition elevation (heightmap : list string) (p : Z * Z) : Z :=
  match cell (map chars heightmap) p with
  | Some letter =>
      ord (if Ascii.eqb letter "S" then "a"%char
           else if Ascii.eqb letter "E" then "z"%char
           else letter)
  | None => 0
  end.

(** One cell up, down, left or right. *)
Definition adjacent (p q : Z * Z) : Prop :=
  (q.1 = p.1 + 1 ∧ q.2 = p.2) ∨ (q.1 = p.1 - 1 ∧ q.2 = p.2)
  ∨ (q.1 = p.1 ∧ q.2 = p.2 + 1) ∨ (q.1 = p.1 ∧ q.2 = p.2 - 1).

(** A step stays in the grid and climbs by at most one. *)
Definition can_step (heightmap : list string) (p q : Z * Z) : Prop :=
  in_bounds heightmap p ∧ in_bounds heightmap q ∧ adjacent p q
  ∧ elevation heightmap q <= elevation heightmap p + 1.

(** [walk heightmap p q n]: [q] is reached from [p] in [n] steps. *)
Inductive walk (heightmap : list string) (p : Z * Z) : Z * Z → nat → Prop :=
  | walk_here : in_bounds heightmap p → walk heightmap p p O
  | walk_more (q r : Z * Z) (n : nat) :
      walk heightmap p q n → can_step heightmap q r →
      walk heightmap p r (S n).

(** What the search has to return for a start and a goal. *)
Definition shortest (heightmap : list string) (start goal : Z * Z) (r : num)
    : Prop :=
  match r with
  | Fin d =>
      ∃ n : nat, d = Z.of_nat n ∧ walk heightmap start goal n
                 ∧ ∀ m, walk heightmap start goal m → (n <= m)%nat
  | Inf => ∀ m, ¬ walk heightmap start goal m
  end.

(** In-place update of one cell. *)
Definition grid_upd {A} (grid : list (list A)) (p : Z * Z) (x : A)
    : list (list A) :=
  alter (λ row, <[Z.to_nat p.2 := x]> row) (Z.to_nat p.1) grid.

Definition shape {A} (grid : list (list A)) (rows cols : nat) : Prop :=
  length grid = rows ∧ Forall (λ row, length row = cols) grid.

(** Cells still holding [math.inf]; each loop iteration uses one up. *)
Definition count_inf (steps : list (list num)) : nat :=
  foldr (λ row n, length (filter (λ x, is_inf x = true) row) + n)%nat O steps.

Definition shift (p offset : Z * Z) : Z * Z := (p.1 + offset.1, p.2 + offset.2).

(** A marked cell is closed when each of its neighbours one can step to
    is marked, with at most one more step. *)
Definition closed (heightmap : list string) (steps : list (list num))
    (p : Z * Z) (x : Z) : Prop :=
  ∀ q, can_step heightmap p q →
       ∃ y, cell steps q = Some (Fin y) ∧ y <= x + 1.

Definition sorted_queue (steps : list (list num)) (queue : list (Z * Z))
    : Prop :=
  ∀ (i j : nat) (p q : Z * Z) (x y : Z),
    (i <= j)%nat → queue !! i = Some p → queue !! j = Some q →
    cell steps p = Some (Fin x) → cell steps q = Some (Fin y) → x <= y.

(** Invariant at the head of the [while] loop. *)
Record search_inv (heightmap : list string) (start : Z * Z)
    (steps : list (list num)) (queue : list (Z * Z)) : Prop := {
  inv_shape : shape steps (length heightmap) (num_columns heightmap);
  inv_start : cell steps start = Some (Fin 0);
  inv_sound : ∀ p x, in_bounds heightmap p → cell steps p = Some (Fin x) →
                     ∃ n, x = Z.of_nat n ∧ walk heightmap start p n;
  inv_queue : Forall (λ p, in_bounds heightmap p
                           ∧ ∃ x, cell steps p = Some (Fin x)) queue;
  inv_sorted : sorted_queue steps queue;
  inv_bound : ∀ u xu p x, head queue = Some u → cell steps u = Some (Fin xu) →
                          in_bounds heightmap p → cell steps p = Some (Fin x) →
                          x <= xu + 1;
  inv_closed : ∀ p x, in_bounds heightmap p → cell steps p = Some (Fin x) →
                      p ∉ queue → closed heightmap steps p x
}.

(** Invariant inside the [for] loop over the offsets, while [current] (at
    distance [d]) is expanded and the offsets in [seen] are done. *)
Record expand_inv (heightmap : list string) (start current : Z * Z) (d : Z)
    (seen : list (Z * Z)) (steps : list (list num)) (queue : list (Z * Z))
    : Prop := {
  mid_shape : shape steps (length heightmap) (num_columns heightmap);
  mid_start : cell steps start = Some (Fin 0);
  mid_sound : ∀ p x, in_bounds heightmap p → cell steps p = Some (Fin x) →
                     ∃ n, x = Z.of_nat n ∧ walk heightmap start p n;
  mid_current : in_bounds heightmap current ∧ cell steps current = Some (Fin d);
  mid_queue : Forall (λ p, in_bounds heightmap p
                           ∧ ∃ x, cell steps p = Some (Fin x) ∧ d <= x) queue;
  mid_sorted : sorted_queue steps queue;
  mid_bound : ∀ p x, in_bounds heightmap p → cell steps p = Some (Fin x) →
                     x <= d + 1;
  mid_closed : ∀ p x, in_bounds heightmap p → cell steps p = Some (Fin x) →
                      p ∉ queue → p ≠ current → closed heightmap steps p x;
  mid_seen : ∀ offset, offset ∈ seen →
                       can_step heightmap current (shift current offset) →
                       ∃ y, cell steps (shift current offset) = Some (Fin y)
}.

(** Letter at a position of the heightmap. *)
Definition letter_is (heightmap : list string) (p : Z * Z) (c : ascii) : Prop :=
  cell (map chars heightmap) p = Some c.

(** [x <= y] on extended integers. *)
Definition num_le (x y : num) : Prop := num_ltb y x = false.

(** A one-row heightmap: the left 'a' climbs to 'E', the right 'a' is
    walled in. *)
Definition ridge : list string := ["abcdefghijklmnopqrstuvwxyEa"]%string.

(** ** Day 16: the plain maximum over pairs *)

Section Day16Vocabulary.

Import Day16.

(** Largest of a list of integers, [NegInf] for the empty list. *)
Definition max_of (vals : list Z) : best := fold_left max_best vals NegInf.

Definition disjoint_orders (pair : ScoredOrder * ScoredOrder) : bool :=
  negb (share_valve (order pair.1) (order pair.2)).

Definition combined_score (pair : ScoredOrder * ScoredOrder) : Z :=
  score pair.1 + score pair.2.

(** The maximum, over all pairs of two entries of the list whose orders
    have disjoint valve sets, of the sum of the two scores. *)
Definition unpruned_maximum (scored : list ScoredOrder) : best :=
  max_of (map combined_score (List.filter disjoint_orders (combinations scored))).

(** [part_2] with the plain maximum in place of the pruned loop. *)
Definition part_2_unpruned (set_iter : gset nat → list nat)
    (valve_names : list string) (valve_rates : list Z)
    (distances : nat → nat → Z) (start_valve_name : string)
    (time_left_at_start : Z) : outcome best :=
  relevant ← relevant_valves valve_names valve_rates;
  start_valve ← list_index valve_names start_valve_name;
  Returns (unpruned_maximum
             (orders_with_scores set_iter valve_rates distances start_valve
                relevant time_left_at_start)).

(** [b] is the largest element of [vals]. *)
Definition is_max (vals : list Z) (b : best) : Prop :=
  match b with
  | NegInf => vals = []
  | Best m => In m vals ∧ ∀ v, In v vals → v <= m
  end.

(** The pairs are listed with the first order's score going down, and in
    each pair the second score is at most the first. *)
Definition ordered_pairs (pairs : list (ScoredOrder * ScoredOrder)) : Prop :=
  Forall (λ pair, score pair.2 <= score pair.1) pairs
  ∧ StronglySorted (λ p q, score q.1 <= score p.1) pairs.

End Day16Vocabulary.

(** ** Malformed input *)

(** The format of a line of the day 4 puzzle: two ranges [a-b] of decimal
    numbers separated by one comma, and nothing else but the newline. *)
Definition exact_range (s : string) : bool :=
  let '(first, rest) := Day4.span_digits (chars s) in
  match first, rest with
  | _ :: _, dash :: last =>
      Ascii.eqb dash "-"
      && match last with [] => false | _ => forallb is_digit last end
  | _, _ => false
  end.

Definition chomp (line : string) : string :=
  match rev (chars line) with
  | c :: body => if Ascii.eqb c newline then str_of (rev body) else line
  | [] => line
  end.

Definition expected_assignment_line (line : string) : bool :=
  match split (chomp line) "," with
  | [left_assignment; right_assignment] =>
      exact_range left_assignment && exact_range right_assignment
  | _ => false
  end.

(** "Malformed input produces an unhandled parsing failure", read for
    every malformed file of day 4. *)
Definition raises_on_every_malformed_file : Prop :=
  ∀ (fs : filesystem) (filepath : path) (text : string),
    fs filepath = Some text →
    (∃ line, line ∈ file_lines text ∧ expected_assignment_line line = false) →
    ∃ e, Day4.part_1 fs filepath = Raises e.

Definition trailing_text : string := "2-4,6-8 and more" +:+ String newline "".

(** What the body of the loop of [count_pairs] does with one line. *)
Definition count_line (test : gset Z → gset Z → bool) (count : Z)
    (next_pair : outcome (string * string)) : outcome Z :=
  '(left_assignment, right_assignment) ← next_pair;
  left_range ← Day4.assignment_to_range_set left_assignment;
  right_range ← Day4.assignment_to_range_set right_assignment;
  Returns (if test left_range right_range then count + 1 else count).

(** A line the script cannot take apart: not exactly two comma-separated
    fields, or a field that does not start with digits, a dash and
    digits. *)
Definition unmatched_assignment_line (line : string) : Prop :=
  match split line "," with
  | [left_assignment; right_assignment] =>
      Day4.re_match_assignment left_assignment = None
      ∨ Day4.re_match_assignment right_assignment = None
  | _ => True
  end.

Definition no_dash : string := "24,6-8" +:+ String newline "".

(** ** Printed lines *)

Definition no_newline (s : string) : Prop := ¬ In newline (chars s).

Ltac literal_no_newline :=
  unfold no_newline; simpl; intuition discriminate.

(** A main entry point that writes exactly two lines whenever it runs to
    its end. *)
Definition writes_two_lines (main : filesystem → path → string * outcome unit)
    : Prop :=
  ∀ fs script_file,
    (main fs script_file).2 = Returns tt →
    length (output_lines (main fs script_file).1) = 2%nat.

Definition one_noop (p : path) : option string :=
  Some ("noop" +:+ String newline "").

(** ** Files for the entry points *)

Definition day1_script : path :=
  Path true ["repo"; "22"; "day1"; "python"; "solution.py"].
Definition day12_script : path :=
  Path true ["repo"; "22"; "day12"; "python"; "solution.py"].
Definition my_file : path := Path true ["home"; "me"; "puzzle.txt"].

Definition text_line (s : string) : string := s +:+ String newline "".

(** Two file systems that agree on [my_file] and differ on the file next
    to the script. *)
Definition calories_here (p : path) : option string :=
  if decide (p = Day1.default_filepath day1_script)
  then Some (text_line "1000" +:+ text_line "2000" +:+ text_line "" +:+ text_line "4000")
  else if decide (p = my_file) then Some (text_line "7") else None.

Definition calories_there (p : path) : option string :=
  if decide (p = Day1.default_filepath day1_script)
  then Some (text_line "5")
  else if decide (p = my_file) then Some (text_line "7") else None.

Definition hills_here (p : path) : option string :=
  if decide (p = Day12.default_filepath day12_script)
  then Some (text_line "SbcdefghijklmnopqrstuvwxyE")
  else if decide (p = my_file) then Some (text_line "SyE") else None.

Definition hills_there (p : path) : option string :=
  if decide (p = Day12.default_filepath day12_script)
  then Some (text_line "SbcdefghijklmnopqrstuvwxyzE")
  else if decide (p = my_file) then Some (text_line "SyE") else None.

(** ** Day 25: the digits of a SNAFU number *)

(** The five SNAFU digits. *)
Definition snafu_alphabet : list ascii := ["="; "-"; "0"; "1"; "2"]%char.

(** Digit values of a SNAFU number, least significant first. *)
Definition balanced (ds : list Z) : Prop := Forall (λ d, -2 <= d <= 2) ds.

(** The most significant digit, when there is one, is not zero. *)
Definition no_leading_zero (ds : list Z) : Prop := last ds ≠ Some 0.

(** The value of a string of SNAFU digits. *)
Definition snafu_value (s : string) : Z := value_lsb (map sval (rev (chars s))).

(** ** Day 13: the size of a packet, and flat packets *)

(** Number of integers and brackets of a packet item. *)
Fixpoint packet_size (x : Day13.item) : nat :=
  match x with
  | Day13.Int _ => 1
  | Day13.List l => S (list_sum (map packet_size l))
  end.

(** Comparison of two lists of integers, first difference first; a list
    that runs out first, or at the same time, is the smaller one. *)
Fixpoint compare_flat (xs ys : list Z) : Z :=
  match xs, ys with
  | [], _ => 1
  | _ :: _, [] => -1
  | x :: xs', y :: ys' =>
      if x <? y then 1 else if x >? y then -1 else compare_flat xs' ys'
  end.

(** ** Day 12: the one cell with a letter *)

(** [p] is the only cell of the heightmap that holds [letter]. *)
Definition only_cell (heightmap : list string) (letter : ascii) (p : Z * Z)
    : Prop :=
  in_bounds heightmap p ∧ letter_is heightmap p letter
  ∧ ∀ q, in_bounds heightmap q → letter_is heightmap q letter → q = p.

(** A file that has no line, or a line shorter than its first one. *)
Definition short_row (heightmap : list string) : Prop :=
  heightmap = []
  ∨ ∃ (i : nat) (row : string),
      heightmap !! i = Some row
      ∧ (length (chars row) < num_columns heightmap)%nat.

(** ** Day 12: small heightmaps *)

(** One row of two cells, the right one out of reach of the left one. *)
Definition cliff : list string := ["az"].

(** One row of two cells that are a step apart. *)
Definition slope : list string := ["ab"].

(** A second row that is shorter than the first. *)
Definition ragged : list string := ["ab"; "z"].

(** ** Day 16: the clock along a visiting order *)

(** The time left after each valve of an order has been opened, as
    [process_visiting_order] counts it: the travel time and one minute
    are taken off for each valve. *)
Fixpoint clock (distances : nat → nat → Z) (current_valve : nat)
    (time_left : Z) (valve_order : list nat) : list Z :=
  match valve_order with
  | [] => []
  | next_valve :: valve_order' =>
      let time_left := time_left - distances current_valve next_valve - 1 in
      time_left :: clock distances next_valve time_left valve_order'
  end.

(** A line whose tunnel leads to a valve that no line describes. *)
Definition dangling_tunnel : string :=
  "Valve AA has flow rate=1; tunnel leads to valve BB".

(** ** Day 1: blank lines *)

(** A line that separates two elves: nothing is left once it is
    stripped. *)
Definition blank_line (line : string) : bool := String.eqb (strip line) "".

(** A file system whose every file lists the calories of three elves. *)
Definition three_elves (p : path) : option string :=
  Some (text_line "1000" +:+ text_line "2000" +:+ text_line ""
        +:+ text_line "4000" +:+ text_line "" +:+ text_line "500").

(** ** Integers as text *)

(** The number that decimal digits denote when they follow the digits of
    [acc]. *)
Definition digits_value (l : list ascii) (acc : Z) : Z :=
  fold_left (λ a c, 10 * a + (ord c - 48)) l acc.

(** ** Day 4: assignments as text and as intervals *)

(** The text of an assignment, and of a line with two assignments. *)
Definition assignment_text (r : Z * Z) : string :=
  str_int r.1 +:+ "-" +:+ str_int r.2.

Definition assignment_line (pair : (Z * Z) * (Z * Z)) : string :=
  assignment_text pair.1 +:+ "," +:+ assignment_text pair.2
  +:+ String newline "".

Definition assignments_file (pairs : list ((Z * Z) * (Z * Z))) : string :=
  String.concat "" (map assignment_line pairs).

(** [inner] lies within [outer]; an assignment whose end is before its
    start has no section and lies within every assignment. *)
Definition lies_within (inner outer : Z * Z) : bool :=
  (inner.2 <? inner.1) || ((outer.1 <=? inner.1) && (inner.2 <=? outer.2)).

Definition one_contains_other (pair : (Z * Z) * (Z * Z)) : bool :=
  lies_within pair.1 pair.2 || lies_within pair.2 pair.1.

(** The two assignments have a section in common. *)
Definition ranges_overlap (pair : (Z * Z) * (Z * Z)) : bool :=
  Z.max pair.1.1 pair.2.1 <=? Z.min pair.1.2 pair.2.2.

(** What follows the second number of an assignment and is not read. *)
Definition not_a_digit_next (rest : string) : Prop :=
  ∀ c, head (chars rest) = Some c → is_digit c = false.

(** ** Day 10: programs as text, and the register cycle by cycle *)

(** The two instructions. *)
Inductive op : Type :=
  | Noop
  | Addx (n : Z).

Definition op_text (o : op) : string :=
  match o with
  | Noop => "noop"
  | Addx n => "addx " +:+ str_int n
  end.

Definition op_instruction (o : op) : Day10.instruction :=
  match o with
  | Noop => {| Day10.name := "noop"; Day10.num_cycles := 1;
               Day10.register_increase := 0 |}
  | Addx n => {| Day10.name := "addx"; Day10.num_cycles := 2;
                 Day10.register_increase := n |}
  end.

(** A program, one instruction per line. *)
Definition program_text (ops : list op) : string :=
  String.concat "" (map (λ o, text_line (op_text o)) ops).

(** The value of the register during each cycle of a program that starts
    with [register_value]: an instruction holds the register for
    [num_cycles] cycles and changes it afterwards. *)
Fixpoint register_trace (instructions : list Day10.instruction)
    (register_value : Z) : list Z :=
  match instructions with
  | [] => []
  | instruction :: instructions' =>
      replicate (Day10.num_cycles instruction) register_value
      ++ register_trace instructions'
           (register_value + Day10.register_increase instruction)
  end.

(** The reports along a trace whose first cycle has the index [cycle]:
    the cycles [next], [next + increment], ... with the value of the
    register during them; and the cycle to report next, at the end. *)
Fixpoint reports (trace : list Z) (cycle next increment : Z) : list (Z * Z) :=
  match trace with
  | [] => []
  | register_value :: trace' =>
      if cycle =? next
      then (next, register_value)
           :: reports trace' (cycle + 1) (next + increment) increment
      else reports trace' (cycle + 1) next increment
  end.

Fixpoint next_report (trace : list Z) (cycle next increment : Z) : Z :=
  match trace with
  | [] => next
  | _ :: trace' =>
      if cycle =? next
      then next_report trace' (cycle + 1) (next + increment) increment
      else next_report trace' (cycle + 1) next increment
  end.

(** The pixel drawn in a column when the sprite covers the columns
    [sprite], [sprite + 1] and [sprite + 2]. *)
Definition pixel (column sprite : Z) : ascii :=
  if (column =? sprite) || (column =? sprite + 1) || (column =? sprite + 2)
  then "#"%char else "."%char.

(** The pixels drawn along a trace of sprite positions, the column being
    the index of the cycle, less one, modulo 40. *)
Fixpoint pixels (trace : list Z) (cycle : Z) : list ascii :=
  match trace with
  | [] => []
  | sprite :: trace' =>
      pixel ((cycle - 1) mod 40) sprite :: pixels trace' (cycle + 1)
  end.

(** The drawing loop along a trace of sprite positions. *)
Fixpoint draw (trace : list Z) (cycle : Z) (crt_rows : list string)
    (current_crt_row : list ascii) : list string * list ascii :=
  match trace with
  | [] => (crt_rows, current_crt_row)
  | sprite :: trace' =>
      let current_crt_row :=
        current_crt_row
        ++ [pixel (Z.of_nat (length current_crt_row)) sprite] in
      if cycle mod 40 =? 0
      then draw trace' (cycle + 1) (crt_rows ++ [str_of current_crt_row]) []
      else draw trace' (cycle + 1) crt_rows current_crt_row
  end.

(** The sprite positions stay within the 64-bit integers of the array
    that the script keeps them in. *)
Definition fits_int64 (x : Z) : Prop := - 2 ^ 63 <= x < 2 ^ 63.

Fixpoint sprites_fit (instructions : list Day10.instruction) (sprite : Z)
    : Prop :=
  match instructions with
  | [] => True
  | instruction :: instructions' =>
      fits_int64 (Day10.register_increase instruction)
      ∧ fits_int64 (sprite + Day10.register_increase instruction)
      ∧ fits_int64 (sprite + Day10.register_increase instruction + 2)
      ∧ sprites_fit instructions'
          (sprite + Day10.register_increase instruction)
  end.

(** ** The files an entry point reads *)




(** ** Day 16: a file of three valves *)

Definition valve_line (name rate tunnels : string) : string :=
  "Valve " +:+ name +:+ " has flow rate=" +:+ rate
  +:+ "; tunnels lead to valves " +:+ tunnels +:+ String newline "".

Definition three_valves : string :=
  valve_line "AA" "0" "BB, CC" +:+ valve_line "BB" "13" "AA, CC"
  +:+ valve_line "CC" "2" "AA, BB".

(** What the regular expression finds on the lines of [three_valves]. *)
Definition valve_search (line : string) : option (string * string * string) :=
  if String.eqb line (valve_line "AA" "0" "BB, CC")
  then Some ("AA", "0", "BB, CC")
  else if String.eqb line (valve_line "BB" "13" "AA, CC")
  then Some ("BB", "13", "AA, CC")
  else if String.eqb line (valve_line "CC" "2" "AA, BB")
  then Some ("CC", "2", "AA, BB")
  else None.

(** The shortest paths of [three_valves], where a tunnel leads from every
    valve to every other. *)
Definition one_hop (n : nat) (edges : list (nat * nat)) (a b : nat) : Z :=
  if decide (a = b) then 0 else 1.

Definition day16_script : path := Path true ["day16"; "python"; "solution.py"].

(** Two file systems that hold [three_valves] as the input of day 16 and
    differ everywhere else. *)
Definition valves_here : filesystem :=
  λ p, if decide (p = Path true ["day16"; "inputs.txt"])
       then Some three_valves else None.
Definition valves_there : filesystem :=
  λ p, if decide (p = Path true ["day16"; "inputs.txt"])
       then Some three_valves else Some "something else".

(** * Properties *)

(** ** Day 25: the SNAFU conversion round-trips *)

Lemma small_digit_cases (d : Z) :
  0 <= d < 5 → d = 0 ∨ d = 1 ∨ d = 2 ∨ d = 3 ∨ d = 4.
Proof. lia. Qed.

Lemma str_int_small (d : Z) : 0 <= d < 5 → str_int d = digit_str d.
Proof.
  intros Hd. destruct (small_digit_cases d Hd) as [->|[->|[->|[->| ->]]]];
    reflexivity.
Qed.

Lemma int_of_char_small (d : Z) :
  0 <= d < 5 → int_of_char (digit_char d) = Returns d.
Proof.
  intros Hd. destruct (small_digit_cases d Hd) as [->|[->|[->|[->| ->]]]];
    reflexivity.
Qed.

Lemma decimal_to_base_loop_spec (fuel : nat) :
  ∀ (n : Z) (acc : list string),
    0 <= n → (Z.to_nat n <= fuel)%nat →
    ∃ ds : list Z,
      Day25.decimal_to_base_loop fuel n 5 acc
        = Returns (map digit_str (rev ds) ++ acc)
      ∧ Forall (λ d, 0 <= d < 5) ds
      ∧ value_lsb ds = n.
Proof.
  induction fuel as [|fuel IH]; intros n acc Hn Hfuel.
  - assert (n = 0) as -> by lia. exists []. simpl. auto.
  - simpl. destruct (Z.eqb_spec n 0) as [->|Hnz].
    + exists []. simpl. auto.
    + assert (Hdiv : 0 <= n / 5 < n).
      { split; [apply Z.div_pos; lia|apply Z.div_lt; lia]. }
      assert (Hmod : 0 <= n mod 5 < 5) by (apply Z.mod_pos_bound; lia).
      destruct (IH (n / 5) (str_int (n mod 5) :: acc)) as (ds & Hrun & Hds & Hval);
        [lia | lia |].
      exists (n mod 5 :: ds). split; [|split].
      * rewrite Hrun. simpl. rewrite map_app, <- app_assoc. simpl.
        by rewrite str_int_small.
      * by constructor.
      * simpl. rewrite Hval. pose proof (Z.div_mod n 5). lia.
Qed.

Lemma chars_app (s t : string) : chars (s +:+ t) = chars s ++ chars t.
Proof. induction s as [|c s IH]; simpl; [done|]. by rewrite IH. Qed.

Lemma chars_concat_cons (x : string) (l : list string) :
  chars (String.concat "" (x :: l)) = chars x ++ chars (String.concat "" l).
Proof.
  destruct l as [|y l].
  - simpl. by rewrite app_nil_r.
  - change (String.concat "" (x :: y :: l))
      with (x +:+ "" +:+ String.concat "" (y :: l)).
    by rewrite !chars_app.
Qed.

Lemma chars_concat_digits (l : list Z) :
  chars (String.concat "" (map digit_str l)) = map digit_char l.
Proof.
  induction l as [|d l IH]; [done|].
  cbn [map]. rewrite chars_concat_cons, IH. reflexivity.
Qed.

Lemma chars_str_of (l : list ascii) : chars (str_of l) = l.
Proof. apply list_ascii_of_string_of_list_ascii. Qed.

Lemma snafu_step_spec (d r : Z) (acc : list ascii) :
  0 <= d < 5 → 0 <= r <= 1 →
  ∃ (ch : ascii) (r' : Z),
    Day25.snafu_step 5 (acc, r) (digit_char d) = Returns (acc ++ [ch], r')
    ∧ 0 <= r' <= 1
    ∧ is_Some (Day25.SNAFU_TO_DECIMAL_MAP !! ch)
    ∧ sval ch + 5 * r' = d + r.
Proof.
  intros Hd Hr. unfold Day25.snafu_step. rewrite (int_of_char_small d Hd).
  assert (r = 0 ∨ r = 1) as [-> | ->] by lia;
    destruct (small_digit_cases d Hd) as [->|[->|[->|[->| ->]]]];
    vm_compute; do 2 eexists; (split; [reflexivity|]);
    repeat split; try discriminate; eauto.
Qed.

Lemma carry_loop_spec (ds : list Z) :
  ∀ (acc : list ascii) (r : Z),
    Forall (λ d, 0 <= d < 5) ds → 0 <= r <= 1 →
    ∃ (out : list ascii) (r' : Z),
      foldM (Day25.snafu_step 5) (map digit_char ds) (acc, r)
        = Returns (acc ++ out, r')
      ∧ 0 <= r' <= 1
      ∧ snafu_chars out
      ∧ length out = length ds
      ∧ value_lsb (map sval out) + 5 ^ Z.of_nat (length ds) * r'
        = value_lsb ds + r.
Proof.
  induction ds as [|d ds IH]; intros acc r Hds Hr.
  - exists [], r. simpl. rewrite app_nil_r. repeat split; try lia; constructor.
  - inversion Hds as [|? ? Hd Hds']; subst.
    destruct (snafu_step_spec d r acc Hd Hr) as (ch & r1 & Hstep & Hr1 & Hch & Hval).
    destruct (IH (acc ++ [ch]) r1 Hds' Hr1) as (out & r' & Hrun & Hr' & Hout & Hlen & Hsum).
    exists (ch :: out), r'. cbn [foldM map]. rewrite Hstep.
    cbn [mbind outcome_bind]. rewrite Hrun, <- app_assoc. cbn [app length].
    split; [done|]. split; [done|]. split; [by constructor|].
    split; [by rewrite Hlen|].
    rewrite Nat2Z.inj_succ, Z.pow_succ_r by lia. cbn [map value_lsb].
    rewrite <- Z.mul_assoc. lia.
Qed.

Lemma dict_get_Some {K V} `{Countable K} (d : gmap K V) (k : K) (v : V) :
  d !! k = Some v → dict_get d k = Returns v.
Proof. intros Hk. unfold dict_get. by rewrite Hk. Qed.

Lemma snafu_terms_spec (l : list ascii) :
  ∀ i : Z, 0 <= i → snafu_chars l →
    ∃ terms : list Z,
      py_map (λ '(digit_index, snafu_digit),
              v ← dict_get Day25.SNAFU_TO_DECIMAL_MAP snafu_digit;
              Returns (v * 5 ^ digit_index))
           (enumerate_from i l) = Returns terms
      ∧ ∀ a, fold_left Z.add terms a = a + 5 ^ i * value_lsb (map sval l).
Proof.
  induction l as [|c l IH]; intros i Hi Hl.
  - exists []. simpl. split; [done|]. intros a. lia.
  - inversion Hl as [|? ? [v Hv] Hl']; subst.
    destruct (IH (i + 1) ltac:(lia) Hl') as (terms & Hrun & Hsum).
    exists (v * 5 ^ i :: terms). split.
    + cbn [enumerate_from py_map]. cbn beta iota. rewrite (dict_get_Some _ _ _ Hv).
      cbn [mbind outcome_bind]. rewrite Hrun. reflexivity.
    + intros a. cbn [fold_left map value_lsb]. rewrite Hsum.
      unfold sval at 2. rewrite Hv. cbn [default].
      rewrite Z.pow_add_r, Z.pow_1_r by lia. unfold id. ring.
Qed.

Lemma snafu_to_decimal_spec (out : list ascii) :
  snafu_chars out →
  Day25.snafu_to_decimal (str_of (rev out)) = Returns (value_lsb (map sval out)).
Proof.
  intros Hout. unfold Day25.snafu_to_decimal, enumerate.
  rewrite chars_str_of, rev_involutive.
  destruct (snafu_terms_spec out 0 ltac:(lia) Hout) as (terms & Hrun & Hsum).
  rewrite Hrun. simpl. unfold py_sum. rewrite Hsum. f_equal. lia.
Qed.

Lemma value_lsb_app (l l' : list Z) :
  value_lsb (l ++ l') = value_lsb l + 5 ^ Z.of_nat (length l) * value_lsb l'.
Proof.
  induction l as [|d l IH]; cbn [app value_lsb length].
  - rewrite Z.pow_0_r. lia.
  - rewrite IH, Nat2Z.inj_succ, Z.pow_succ_r by lia. ring.
Qed.

Lemma decimal_to_snafu_zero (fuel : nat) :
  Day25.decimal_to_snafu fuel 0 5 = Returns ""%string.
Proof. by destruct fuel. Qed.

(** C8: for every non-negative [n], converting [n] to SNAFU and back
    gives [n] again (the loop of [decimal_to_base] needs at most [n]
    iterations).  For [n = 0] the SNAFU string is empty, and the empty
    string converts back to 0. *)
Theorem snafu_roundtrip (n : Z) (fuel : nat) :
  0 <= n → (Z.to_nat n <= fuel)%nat →
  ∃ s : string,
    Day25.decimal_to_snafu fuel n 5 = Returns s
    ∧ Day25.snafu_to_decimal s = Returns n
    ∧ (n = 0 → s = ""%string).
Proof.
  intros Hn Hfuel.
  destruct (decimal_to_base_loop_spec fuel n [] Hn Hfuel)
    as (ds & Hrun & Hds & Hval).
  destruct (carry_loop_spec ds [] 0 Hds ltac:(lia))
    as (out & r & Hloop & Hr & Hout & Hlen & Hsum).
  assert (∃ s, Day25.decimal_to_snafu fuel n 5 = Returns s
               ∧ Day25.snafu_to_decimal s = Returns n) as (s & Hs & Hback).
  { unfold Day25.decimal_to_snafu, Day25.decimal_to_base.
    rewrite Hrun. cbn [mbind outcome_bind]. rewrite app_nil_r, chars_concat_digits.
    rewrite <- map_rev, rev_involutive, Hloop. cbn [mbind outcome_bind app].
    assert (r = 0 ∨ r = 1) as [-> | ->] by lia; cbn [Z.eqb].
    - eexists. split; [reflexivity|].
      rewrite snafu_to_decimal_spec by done. f_equal. lia.
    - eexists. split; [reflexivity|].
      rewrite snafu_to_decimal_spec.
      + f_equal. rewrite map_app, value_lsb_app, length_map, Hlen.
        change (value_lsb (map sval ["1"%char])) with 1. lia.
      + apply Forall_app. split; [done|]. constructor; [|constructor].
        vm_compute. eauto. }
  exists s. split; [done|]. split; [done|].
  intros ->. rewrite decimal_to_snafu_zero in Hs. congruence.
Qed.

(** The round trip at a concrete number. *)
Lemma snafu_roundtrip_witness :
  ∃ s : string,
    Day25.decimal_to_snafu 2022 2022 5 = Returns s
    ∧ Day25.snafu_to_decimal s = Returns 2022
    ∧ (2022 = 0 → s = ""%string).
Proof. apply (snafu_roundtrip 2022 2022); lia. Defined.

(** ** Day 13: two empty lists *)

(** C9: [pairwise_comparison] returns 1 ("left item smaller"), not 0
    ("items equal"), when both arguments are the empty list, so comparing
    [[]] with itself does not report equality, and [is_pair_sorted] takes a
    pair of two empty lists as sorted. *)
Theorem empty_lists_compare_as_smaller (fuel : nat) :
  Day13.pairwise_comparison (S fuel) (Day13.List []) (Day13.List [])
    = Returns 1
  ∧ Day13.pairwise_comparison (S fuel) (Day13.List []) (Day13.List [])
    ≠ Returns 0
  ∧ Day13.is_pair_sorted (S fuel) (Day13.List []) (Day13.List [])
    = Returns true.
Proof. by repeat split. Qed.

(** ** Day 12: list indexing at non-negative indices *)

Lemma py_index_lookup {A} (l : list A) (i : Z) (x : A) :
  0 <= i → l !! Z.to_nat i = Some x → py_index l i = Returns x.
Proof.
  intros Hi Hx. pose proof (lookup_lt_Some _ _ _ Hx) as Hlt.
  unfold py_index.
  destruct (Z.leb_spec (- Z.of_nat (length l)) i); [|lia].
  destruct (Z.ltb_spec i (Z.of_nat (length l))); [|lia].
  destruct (Z.ltb_spec i 0); [lia|]. cbn [andb]. by rewrite Hx.
Qed.

Lemma py_setitem_insert {A} (l : list A) (i : Z) (x : A) :
  0 <= i → (Z.to_nat i < length l)%nat →
  py_setitem l i x = Returns (<[Z.to_nat i := x]> l).
Proof.
  intros Hi Hlt. unfold py_setitem.
  destruct (Z.leb_spec (- Z.of_nat (length l)) i); [|lia].
  destruct (Z.ltb_spec i (Z.of_nat (length l))); [|lia].
  destruct (Z.ltb_spec i 0); [lia|]. reflexivity.
Qed.

Lemma cell_Some_inv {A} (grid : list (list A)) (p : Z * Z) (x : A) :
  cell grid p = Some x →
  ∃ row, grid !! Z.to_nat p.1 = Some row ∧ row !! Z.to_nat p.2 = Some x.
Proof.
  unfold cell. destruct (grid !! Z.to_nat p.1) as [row|]; [|done].
  cbn. eauto.
Qed.

Lemma shape_cell {A} (grid : list (list A)) (rows cols : nat) (p : Z * Z) :
  shape grid rows cols →
  0 <= p.1 < Z.of_nat rows → 0 <= p.2 < Z.of_nat cols →
  is_Some (cell grid p).
Proof.
  intros [Hlen Hrows] Hr Hc. unfold cell.
  destruct (lookup_lt_is_Some_2 grid (Z.to_nat p.1)) as [row Hrow]; [lia|].
  rewrite Hrow. cbn.
  apply lookup_lt_is_Some_2.
  rewrite Forall_lookup in Hrows. rewrite (Hrows _ _ Hrow). lia.
Qed.

Lemma grid_get_cell (steps : list (list num)) (r c : Z) (x : num) :
  0 <= r → 0 <= c → cell steps (r, c) = Some x →
  Day12.grid_get steps r c = Returns x.
Proof.
  intros Hr Hc (row & Hrow & Hx)%cell_Some_inv. unfold Day12.grid_get.
  cbn [fst snd] in *.
  rewrite (py_index_lookup _ _ _ Hr Hrow). cbn.
  by apply py_index_lookup.
Qed.

Lemma grid_set_cell (steps : list (list num)) (r c : Z) (x : num) :
  0 <= r → 0 <= c → is_Some (cell steps (r, c)) →
  Day12.grid_set steps r c x = Returns (grid_upd steps (r, c) x).
Proof.
  intros Hr Hc [y (row & Hrow & Hy)%cell_Some_inv]. unfold Day12.grid_set.
  cbn [fst snd] in *.
  rewrite (py_index_lookup _ _ _ Hr Hrow). cbn.
  rewrite py_setitem_insert by (by try eapply lookup_lt_Some). cbn.
  rewrite py_setitem_insert by (by try eapply lookup_lt_Some).
  f_equal. unfold grid_upd. cbn [fst snd].
  apply list_eq. intros i. destruct (decide (Z.to_nat r = i)) as [<-|Hne].
  - rewrite list_lookup_insert_eq by (by eapply lookup_lt_Some).
    by rewrite list_lookup_alter_eq, Hrow.
  - by rewrite list_lookup_insert_ne, list_lookup_alter_ne by done.
Qed.

Lemma cell_upd_same {A} (grid : list (list A)) (p : Z * Z) (x : A) :
  is_Some (cell grid p) → cell (grid_upd grid p x) p = Some x.
Proof.
  intros [y (row & Hrow & Hy)%cell_Some_inv]. unfold cell, grid_upd.
  rewrite list_lookup_alter_eq, Hrow. cbn.
  apply list_lookup_insert_eq. by eapply lookup_lt_Some.
Qed.

Lemma cell_upd_other {A} (grid : list (list A)) (p q : Z * Z) (x : A) :
  0 <= p.1 → 0 <= p.2 → 0 <= q.1 → 0 <= q.2 → p ≠ q →
  cell (grid_upd grid p x) q = cell grid q.
Proof.
  intros Hp1 Hp2 Hq1 Hq2 Hne. unfold cell, grid_upd.
  destruct (decide (Z.to_nat p.1 = Z.to_nat q.1)) as [Heq|Hr].
  - rewrite Heq, list_lookup_alter_eq.
    destruct (grid !! Z.to_nat q.1) as [row|]; [|done]. cbn.
    apply list_lookup_insert_ne. intros Hc. apply Hne.
    destruct p, q; cbn in *. f_equal; lia.
  - by rewrite list_lookup_alter_ne.
Qed.

Lemma shape_upd {A} (grid : list (list A)) (rows cols : nat) (p : Z * Z) (x : A) :
  shape grid rows cols → shape (grid_upd grid p x) rows cols.
Proof.
  intros [Hlen Hrows]. split; unfold grid_upd.
  - by rewrite length_alter.
  - apply Forall_alter; [done|]. intros row Hrow.
    rewrite length_insert. rewrite Forall_lookup in Hrows. eauto.
Qed.

Lemma shape_replicate {A} (rows cols : nat) (x : A) :
  shape (replicate rows (replicate cols x)) rows cols.
Proof.
  split; [by rewrite length_replicate|].
  apply Forall_replicate. by rewrite length_replicate.
Qed.

Lemma count_inf_row (row : list num) :
  ∀ (c : nat) (d : Z),
    row !! c = Some Inf →
    S (length (filter (λ x, is_inf x = true) (<[c := Fin d]> row)))
    = length (filter (λ x, is_inf x = true) row).
Proof.
  induction row as [|x row IH]; intros c d Hc; [done|].
  destruct c as [|c]; cbn in Hc.
  - injection Hc as ->. cbn [list_insert insert].
    rewrite !filter_cons. cbn. by repeat case_decide.
  - cbn [list_insert insert]. rewrite !filter_cons.
    destruct (decide (is_inf x = true)); cbn [length];
      by rewrite <- (IH c d Hc).
Qed.

Lemma count_inf_alter (steps : list (list num)) :
  ∀ (r c : nat) (row : list num) (d : Z),
    steps !! r = Some row → row !! c = Some Inf →
    S (count_inf (alter (λ row, <[c := Fin d]> row) r steps))
    = count_inf steps.
Proof.
  unfold count_inf.
  induction steps as [|row0 steps IH]; intros r c row d Hrow Hc; [done|].
  destruct r as [|r]; cbn in Hrow.
  - injection Hrow as ->. cbn. by rewrite <- (count_inf_row row c d Hc).
  - cbn. rewrite <- (IH r c row d Hrow Hc). cbn. lia.
Qed.

Lemma count_inf_upd (steps : list (list num)) (p : Z * Z) (d : Z) :
  cell steps p = Some Inf →
  S (count_inf (grid_upd steps p (Fin d))) = count_inf steps.
Proof.
  intros (row & Hrow & Hx)%cell_Some_inv. by eapply count_inf_alter.
Qed.

Lemma count_inf_replicate (rows cols : nat) :
  count_inf (replicate rows (replicate cols Inf)) = (rows * cols)%nat.
Proof.
  assert (length (filter (λ x, is_inf x = true) (replicate cols Inf)) = cols)
    as Hrow.
  { induction cols as [|cols IH]; [done|].
    cbn [replicate]. rewrite filter_cons. cbn [is_inf].
    case_decide; [|done]. cbn [length]. by rewrite IH. }
  unfold count_inf. induction rows as [|rows IH]; [done|].
  cbn [replicate foldr]. rewrite Hrow, IH. lia.
Qed.

Lemma first_row_columns (heightmap : list string) (p : Z * Z) :
  in_bounds heightmap p →
  ∃ row0, py_index heightmap 0 = Returns row0
          ∧ length (chars row0) = num_columns heightmap.
Proof.
  intros [Hr _]. destruct heightmap as [|row0 heightmap]; [cbn in Hr; lia|].
  by exists row0.
Qed.

(** ** Day 12: the search loop keeps its invariant *)

Section Search.

Variable heightmap : list string.
Hypothesis Hrect : rectangular heightmap.

Let rows : nat := length heightmap.
Let cols : nat := num_columns heightmap.

Lemma heightmap_shape : shape (map chars heightmap) rows cols.
Proof.
  split; [by rewrite length_map|].
  apply Forall_map. exact Hrect.
Qed.

Lemma letter_at_cell (r c : Z) :
  in_bounds heightmap (r, c) →
  ∃ letter, cell (map chars heightmap) (r, c) = Some letter
            ∧ Day12.letter_at heightmap r c = Returns letter.
Proof.
  intros [Hr Hc].
  destruct (shape_cell _ _ _ (r, c) heightmap_shape Hr Hc) as [letter Hcell].
  exists letter. split; [done|].
  apply cell_Some_inv in Hcell as (row & Hrow & Hletter).
  cbn [fst snd] in *. rewrite list_lookup_fmap in Hrow.
  destruct (heightmap !! Z.to_nat r) as [s|] eqn:Hs; [|done].
  injection Hrow as <-. unfold Day12.letter_at.
  rewrite (py_index_lookup _ _ _ (proj1 Hr) Hs). cbn.
  apply py_index_lookup; [lia|done].
Qed.

Lemma height_at_position_elevation (r c : Z) :
  in_bounds heightmap (r, c) →
  Day12.height_at_position heightmap r c
  = Returns (elevation heightmap (r, c)).
Proof.
  intros (letter & Hcell & Hget)%letter_at_cell.
  unfold Day12.height_at_position, elevation. by rewrite Hget, Hcell.
Qed.

Lemma adjacent_shift (p q : Z * Z) :
  adjacent p q ↔ ∃ offset, offset ∈ Day12.step_offsets ∧ q = shift p offset.
Proof.
  unfold adjacent, shift, Day12.step_offsets. destruct p as [r c], q as [r' c'].
  cbn. split.
  - intros [[-> ->]|[[-> ->]|[[-> ->]|[-> ->]]]];
      [exists (1, 0)|exists (-1, 0)|exists (0, 1)|exists (0, -1)];
      (split; [rewrite !elem_of_cons; tauto|cbn; f_equal; lia]).
  - intros (offset & Hin & Heq).
    rewrite !elem_of_cons, elem_of_nil in Hin.
    destruct Hin as [->|[->|[->|[->|[]]]]]; cbn in Heq;
      injection Heq as -> ->; lia.
Qed.

(** One pass of the inner loop body either leaves the state alone or marks
    the neighbour and appends it to the queue. *)
Lemma visit_spec (steps : list (list num)) (queue : list (Z * Z))
    (current offset : Z * Z) (d : Z) :
  shape steps rows cols →
  in_bounds heightmap current →
  cell steps current = Some (Fin d) →
  let new := shift current offset in
  (in_bounds heightmap new ∧ cell steps new = Some Inf
   ∧ elevation heightmap new <= elevation heightmap current + 1
   ∧ Day12.visit heightmap (Z.of_nat rows) (Z.of_nat cols) current
       (steps, queue) offset
     = Returns (grid_upd steps new (Fin (d + 1)), queue ++ [new]))
  ∨ (¬ (in_bounds heightmap new ∧ cell steps new = Some Inf
        ∧ elevation heightmap new <= elevation heightmap current + 1)
     ∧ Day12.visit heightmap (Z.of_nat rows) (Z.of_nat cols) current
         (steps, queue) offset
       = Returns (steps, queue)).
Proof.
  intros Hshape Hcur Hd new. subst new.
  destruct current as [r c], offset as [dr dc]. unfold shift, Day12.visit.
  cbn [fst snd].
  destruct (Z.leb_spec 0 (r + dr)); cbn [andb];
    [|right; split; [intros [[? ?] _]; cbn in *; lia|done]].
  destruct (Z.ltb_spec (r + dr) (Z.of_nat rows));
    [|right; split; [intros [[? ?] _]; cbn in *; lia|done]].
  destruct (Z.leb_spec 0 (c + dc)); cbn [andb];
    [|right; split; [intros [[? ?] _]; cbn in *; lia|done]].
  destruct (Z.ltb_spec (c + dc) (Z.of_nat cols));
    [|right; split; [intros [[? ?] _]; cbn in *; lia|done]].
  assert (Hnew : in_bounds heightmap (r + dr, c + dc)) by (split; cbn; lia).
  destruct (shape_cell steps _ _ (r + dr, c + dc) Hshape) as [seen Hseen];
    [cbn; lia..|].
  rewrite (grid_get_cell steps (r + dr) (c + dc) seen) by done.
  cbn [mbind outcome_bind].
  destruct seen as [x|]; cbn [is_inf];
    [right; split; [intros (_ & Hinf & _); congruence|done]|].
  rewrite (height_at_position_elevation (r + dr) (c + dc) Hnew).
  rewrite (height_at_position_elevation r c Hcur).
  cbn [mbind outcome_bind].
  destruct (Z.leb_spec (elevation heightmap (r + dr, c + dc))
                       (elevation heightmap (r, c) + 1));
    [|right; split; [intros (_ & _ & ?); lia|done]].
  left. split; [done|]. split; [done|]. split; [done|].
  rewrite (grid_get_cell steps r c (Fin d)) by (done || apply Hcur).
  cbn [mbind outcome_bind num_succ].
  rewrite (grid_set_cell steps (r + dr) (c + dc)) by eauto.
  reflexivity.
Qed.

Variable start : Z * Z.
Hypothesis Hstart : in_bounds heightmap start.

Local Abbreviation inv := (search_inv heightmap start).
Local Abbreviation mid := (expand_inv heightmap start).

Lemma inv_mid (steps : list (list num)) (current : Z * Z)
    (queue : list (Z * Z)) :
  inv steps (current :: queue) →
  ∃ d, mid current d [] steps queue.
Proof.
  intros [Hshape Hst Hsound Hqueue Hsorted Hbound Hclosed].
  inversion Hqueue as [|? ? [Hcur [d Hd]] Hrest]; subst.
  exists d. split; try done.
  - rewrite Forall_forall. intros p Hp.
    rewrite Forall_forall in Hrest. destruct (Hrest p Hp) as [Hpb [x Hx]].
    split; [done|]. exists x. split; [done|].
    apply list_elem_of_lookup in Hp as [i Hi].
    by apply (Hsorted 0%nat (S i) current p d x); [lia|..].
  - intros i j p q x y Hij Hp Hq. apply (Hsorted (S i) (S j) p q x y); [lia|done..].
  - intros p x. by apply (Hbound current d p x).
  - intros p x Hp Hx Hnin Hne. apply Hclosed; [done..|].
    rewrite not_elem_of_cons. done.
  - intros offset Hin. by apply elem_of_nil in Hin.
Qed.

Lemma mid_inv (steps : list (list num)) (current : Z * Z) (d : Z)
    (queue : list (Z * Z)) :
  mid current d Day12.step_offsets steps queue → inv steps queue.
Proof.
  intros [Hshape Hst Hsound [Hcur Hd] Hqueue Hsorted Hbound Hclosed Hseen].
  split; try done.
  - eapply Forall_impl; [exact Hqueue|]. intros p [? (x & ? & ?)]. eauto.
  - intros u xu p x Hhead Hu Hp Hx.
    destruct queue as [|u' queue']; [done|]. injection Hhead as ->.
    inversion Hqueue as [|? ? [_ (xu' & Hu' & Hle)] _]; subst.
    rewrite Hu in Hu'. injection Hu' as <-.
    pose proof (Hbound p x Hp Hx). lia.
  - intros p x Hp Hx Hnin. destruct (decide (p = current)) as [->|Hne].
    + rewrite Hd in Hx. injection Hx as <-.
      intros q Hstep. pose proof Hstep as (_ & Hq & Hadj & _).
      apply adjacent_shift in Hadj as (offset & Hin & ->).
      destruct (Hseen offset Hin Hstep) as [y Hy].
      exists y. split; [done|]. by apply (Hbound _ y Hq).
    + by apply Hclosed.
Qed.

Lemma visit_mid (steps : list (list num)) (queue seen : list (Z * Z))
    (current offset : Z * Z) (d : Z) :
  offset ∈ Day12.step_offsets →
  mid current d seen steps queue →
  ∃ steps' queue',
    Day12.visit heightmap (Z.of_nat rows) (Z.of_nat cols) current
      (steps, queue) offset = Returns (steps', queue')
    ∧ mid current d (offset :: seen) steps' queue'
    ∧ (count_inf steps' + length queue' = count_inf steps + length queue)%nat.
Proof.
  intros Hoff [Hshape Hst Hsound [Hcur Hd] Hqueue Hsorted Hbound Hclosed Hseen].
  destruct (visit_spec steps queue current offset d Hshape Hcur Hd)
    as [(Hnew & Hinf & Hel & Hrun) | (Hno & Hrun)];
    rewrite Hrun; clear Hrun; do 2 eexists; (split; [reflexivity|]).
  - set (new := shift current offset) in *.
    set (steps' := grid_upd steps new (Fin (d + 1))).
    assert (Hat : cell steps' new = Some (Fin (d + 1))).
    { apply cell_upd_same. by rewrite Hinf. }
    assert (Hframe : ∀ q, in_bounds heightmap q → q ≠ new →
                          cell steps' q = cell steps q).
    { intros q Hq Hne. apply cell_upd_other; try done;
        try apply Hnew; apply Hq. }
    assert (Hmono : ∀ q x, in_bounds heightmap q →
                           cell steps q = Some (Fin x) →
                           cell steps' q = Some (Fin x)).
    { intros q x Hq Hx. rewrite Hframe; [done..|]. intros ->. congruence. }
    assert (Hback : ∀ q x, in_bounds heightmap q →
                           cell steps' q = Some (Fin x) →
                           (q = new ∧ x = d + 1)
                           ∨ (q ≠ new ∧ cell steps q = Some (Fin x))).
    { intros q x Hq Hx. destruct (decide (q = new)) as [->|Hne].
      - left. split; [done|]. congruence.
      - right. split; [done|]. by rewrite <- Hframe. }
    assert (Hstep : can_step heightmap current new).
    { repeat split; try apply Hcur; try apply Hnew; [|done].
      apply adjacent_shift. by exists offset. }
    split; [split|].
    + by apply shape_upd.
    + by apply Hmono.
    + intros p x Hp Hx. destruct (Hback p x Hp Hx) as [[-> ->]|[_ Hold]].
      * destruct (Hsound current d Hcur Hd) as (n & -> & Hwalk).
        exists (S n). split; [lia|]. by apply (walk_more _ _ current).
      * by apply Hsound.
    + split; [done|]. by apply Hmono.
    + apply Forall_app. split.
      * eapply Forall_impl; [exact Hqueue|]. intros p [Hp (x & Hx & Hle)].
        split; [done|]. exists x. split; [by apply Hmono|done].
      * constructor; [|constructor]. split; [done|].
        exists (d + 1). split; [done|lia].
    + intros i j p q x y Hij Hp Hq Hx Hy.
      assert (Hin : ∀ k r, (queue ++ [new]) !! k = Some r →
                           in_bounds heightmap r).
      { intros k r [Hr|[_ Hr]]%lookup_app_Some.
        - rewrite Forall_lookup in Hqueue. by apply (Hqueue k r).
        - apply list_lookup_singleton_Some in Hr as [_ <-]. done. }
      destruct (Hback q y (Hin _ _ Hq) Hy) as [[-> ->]|[Hqne Hyold]].
      * destruct (Hback p x (Hin _ _ Hp) Hx) as [[_ ->]|[_ Hxold]]; [lia|].
        by apply (Hbound p x (Hin _ _ Hp)).
      * apply lookup_app_Some in Hq as [Hq|[Hlen Hq]];
          [|apply list_lookup_singleton_Some in Hq as [_ <-]; done].
        apply lookup_app_Some in Hp as [Hp|[Hlen Hp]];
          [|apply lookup_lt_Some in Hq; lia].
        destruct (Hback p x (Hin i p ltac:(by apply lookup_app_l_Some)) Hx)
          as [[-> _]|[_ Hxold]].
        -- rewrite Forall_lookup in Hqueue.
           destruct (Hqueue i new Hp) as [_ (z & Hz & _)]. congruence.
        -- by apply (Hsorted i j p q x y).
    + intros p x Hp Hx. destruct (Hback p x Hp Hx) as [[_ ->]|[_ Hold]]; [lia|].
      by apply (Hbound p).
    + intros p x Hp Hx Hnin Hne.
      rewrite not_elem_of_app, not_elem_of_cons in Hnin.
      destruct Hnin as [Hnin [Hpnew _]].
      destruct (Hback p x Hp Hx) as [[-> _]|[_ Hold]]; [done|].
      intros q Hq. destruct (Hclosed p x Hp Hold Hnin Hne q Hq) as (y & Hy & Hle).
      exists y. split; [|done]. apply Hmono; [apply Hq|done].
    + intros offset' [->|Hin]%elem_of_cons Hcan.
      * by exists (d + 1).
      * destruct (Hseen offset' Hin Hcan) as [y Hy]. exists y.
        apply Hmono; [apply Hcan|done].
    + rewrite length_app. cbn. rewrite <- (count_inf_upd steps new (d + 1) Hinf).
      fold steps'. lia.
  - split; [split; try done|done].
    intros offset' [->|Hin]%elem_of_cons Hcan; [|by apply Hseen].
    destruct Hcan as (_ & Hnew & _ & Hel).
    destruct (shape_cell steps _ _ (shift current offset) Hshape)
      as [[y|] Hy]; try apply Hnew; [by exists y|].
    exfalso. by apply Hno.
Qed.

Lemma expand_mid (current : Z * Z) (d : Z) (offsets : list (Z * Z)) :
  ∀ (seen : list (Z * Z)) (steps : list (list num)) (queue : list (Z * Z)),
    (∀ offset, offset ∈ offsets → offset ∈ Day12.step_offsets) →
    mid current d seen steps queue →
    ∃ steps' queue',
      foldM (Day12.visit heightmap (Z.of_nat rows) (Z.of_nat cols) current)
            offsets (steps, queue) = Returns (steps', queue')
      ∧ mid current d (rev offsets ++ seen) steps' queue'
      ∧ (count_inf steps' + length queue'
         = count_inf steps + length queue)%nat.
Proof.
  induction offsets as [|offset offsets IH]; intros seen steps queue Hoffs Hmid.
  - exists steps, queue. by cbn.
  - destruct (visit_mid steps queue seen current offset d) as
      (steps1 & queue1 & Hrun1 & Hmid1 & Hcount1);
      [apply Hoffs; by left|done|].
    destruct (IH (offset :: seen) steps1 queue1) as
      (steps2 & queue2 & Hrun2 & Hmid2 & Hcount2);
      [intros o Ho; apply Hoffs; by right|done|].
    exists steps2, queue2. cbn [foldM]. rewrite Hrun1. cbn [mbind outcome_bind].
    split; [done|]. split; [|lia].
    cbn [rev]. by rewrite <- app_assoc.
Qed.

Lemma search_loop_inv (fuel : nat) :
  ∀ (steps : list (list num)) (queue : list (Z * Z)),
    inv steps queue →
    (count_inf steps + length queue <= fuel)%nat →
    ∃ steps',
      Day12.search_loop fuel heightmap (Z.of_nat rows) (Z.of_nat cols)
        steps queue = Returns steps'
      ∧ inv steps' [].
Proof.
  induction fuel as [|fuel IH]; intros steps queue Hinv Hfuel.
  - destruct queue; [|cbn in Hfuel; lia]. by exists steps.
  - destruct queue as [|current queue]; [by exists steps|].
    destruct (inv_mid steps current queue Hinv) as [d Hmid].
    destruct (expand_mid current d Day12.step_offsets [] steps queue)
      as (steps1 & queue1 & Hrun & Hmid1 & Hcount); [done..|].
    destruct (IH steps1 queue1) as (steps' & Hloop & Hinv').
    + apply (mid_inv steps1 current d).
      destruct Hmid1. split; try done.
      intros offset Hin. apply mid_seen0.
      rewrite app_nil_r. by apply elem_of_reverse.
    + cbn in Hfuel. lia.
    + exists steps'. cbn [Day12.search_loop]. rewrite Hrun.
      cbn [mbind outcome_bind]. done.
Qed.

(** When the queue is empty every cell with a walk from the start is
    marked with at most the length of that walk. *)
Lemma inv_complete (steps : list (list num)) :
  inv steps [] →
  ∀ p n, walk heightmap start p n →
         ∃ x, cell steps p = Some (Fin x) ∧ x <= Z.of_nat n.
Proof.
  intros Hinv p n Hwalk. induction Hwalk as [|q r n Hwalk IH Hstep].
  - exists 0. split; [apply Hinv|lia].
  - destruct IH as (x & Hx & Hle).
    destruct (inv_closed _ _ _ _ Hinv q x) with (q := r) as (y & Hy & Hle');
      [apply Hstep|done|apply not_elem_of_nil|done|].
    exists y. split; [done|lia].
Qed.

Lemma inv_initial :
  inv (grid_upd (replicate rows (replicate cols Inf)) start (Fin 0)) [start].
Proof.
  set (steps0 := replicate rows (replicate cols Inf)).
  assert (Hshape0 : shape steps0 rows cols) by apply shape_replicate.
  assert (Hinf : ∀ p, in_bounds heightmap p → cell steps0 p = Some Inf).
  { intros p [Hr Hc]. unfold cell, steps0.
    rewrite lookup_replicate_2 by (fold rows; lia). cbn.
    apply lookup_replicate_2. fold cols. lia. }
  assert (Hat : cell (grid_upd steps0 start (Fin 0)) start = Some (Fin 0)).
  { apply cell_upd_same. rewrite Hinf by done. eauto. }
  assert (Honly : ∀ p x, in_bounds heightmap p →
                         cell (grid_upd steps0 start (Fin 0)) p = Some (Fin x) →
                         p = start ∧ x = 0).
  { intros p x Hp Hx. destruct (decide (p = start)) as [->|Hne].
    - split; [done|]. congruence.
    - rewrite cell_upd_other, Hinf in Hx; try done;
        try apply Hstart; apply Hp. }
  split.
  - by apply shape_upd.
  - done.
  - intros p x Hp Hx. destruct (Honly p x Hp Hx) as [-> ->].
    exists O. split; [done|]. by constructor.
  - constructor; [|constructor]. split; [done|]. by exists 0.
  - intros i j p q x y _ Hp Hq Hx Hy.
    apply list_lookup_singleton_Some in Hp as [_ <-].
    apply list_lookup_singleton_Some in Hq as [_ <-]. 
    assert (x = y) by congruence. lia.
  - intros u xu p x [= <-] Hu Hp Hx.
    destruct (Honly p x Hp Hx) as [-> ->].
    assert (xu = 0) by congruence. lia.
  - intros p x Hp Hx Hnin. destruct (Honly p x Hp Hx) as [-> ->].
    exfalso. apply Hnin. by left.
Qed.

(** The search returns, and what it returns is the length of a shortest
    walk, or [math.inf] when there is no walk at all. *)
Lemma search_correct (fuel : nat) (goal : Z * Z) :
  in_bounds heightmap goal →
  (rows * cols <= fuel)%nat →
  ∃ r, Day12.breadth_first_height_search fuel heightmap start goal = Returns r
       ∧ shortest heightmap start goal r.
Proof.
  intros Hgoal Hfuel. unfold Day12.breadth_first_height_search.
  destruct (first_row_columns heightmap start Hstart) as (row0 & -> & Hcols).
  cbn [mbind outcome_bind]. rewrite Hcols. fold rows cols.
  rewrite (surjective_pairing start), (surjective_pairing goal).
  cbn beta iota zeta.
  rewrite grid_set_cell; [..|apply shape_cell with rows cols];
    try apply Hstart; try apply shape_replicate.
  cbn [mbind outcome_bind]. rewrite <- !surjective_pairing.
  destruct (search_loop_inv fuel _ [start] inv_initial) as (steps & Hloop & Hinv).
  { assert (is_Some (cell (replicate rows (replicate cols Inf)) start)) as [x Hx].
    { apply shape_cell with rows cols;
        [apply shape_replicate|apply Hstart..]. }
    assert (x = Inf) as ->.
    { unfold cell in Hx.
      destruct (replicate rows (replicate cols Inf) !! Z.to_nat start.1)
        as [row|] eqn:Hrow; [|done].
      apply lookup_replicate_1 in Hrow as [-> _]. cbn in Hx.
      by apply lookup_replicate_1 in Hx as [-> _]. }
    pose proof (count_inf_upd _ start 0 Hx) as Hcount.
    rewrite count_inf_replicate in Hcount. cbn [length]. lia. }
  rewrite Hloop. cbn [mbind outcome_bind].
  destruct (shape_cell steps rows cols goal) as [r Hr];
    [apply Hinv|apply Hgoal..|].
  exists r. split.
  { apply grid_get_cell; [apply Hgoal..|]. by rewrite <- surjective_pairing. }
  destruct r as [x|]; cbn.
  - destruct (inv_sound _ _ _ _ Hinv goal x Hgoal Hr) as (n & -> & Hwalk).
    exists n. split; [done|]. split; [done|].
    intros m Hm. destruct (inv_complete steps Hinv goal m Hm) as (y & Hy & Hle).
    assert (y = Z.of_nat n) by congruence. lia.
  - intros m Hm. destruct (inv_complete steps Hinv goal m Hm) as (y & Hy & _).
    congruence.
Qed.

End Search.

(** ** Day 12: comprehensions and the minimum *)

Lemma py_filter_pure {A} (f : A → outcome bool) (g : A → bool) (l : list A) :
  (∀ x, x ∈ l → f x = Returns (g x)) →
  py_filter f l = Returns (List.filter g l).
Proof.
  induction l as [|x l IH]; intros Hf; [done|].
  cbn [py_filter List.filter]. rewrite Hf by (by left).
  cbn [mbind outcome_bind]. rewrite IH by (intros y Hy; apply Hf; by right).
  cbn [mbind outcome_bind]. by destruct (g x).
Qed.

Lemma py_map_Forall2 {A B} (f : A → outcome B) (P : A → B → Prop) (l : list A) :
  (∀ x, x ∈ l → ∃ y, f x = Returns y ∧ P x y) →
  ∃ ys, py_map f l = Returns ys ∧ Forall2 P l ys.
Proof.
  induction l as [|x l IH]; intros Hf.
  - exists []. by split; [|constructor].
  - destruct (Hf x) as (y & Hy & HP); [by left|].
    destruct IH as (ys & Hys & HPs); [intros z Hz; apply Hf; by right|].
    exists (y :: ys). cbn [py_map]. rewrite Hy. cbn [mbind outcome_bind].
    rewrite Hys. by split; [|constructor].
Qed.

Lemma elem_of_py_range (n : nat) (i : Z) :
  i ∈ py_range n ↔ 0 <= i < Z.of_nat n.
Proof.
  unfold py_range. rewrite list_elem_of_In, in_map_iff. split.
  - intros (k & <- & Hk%in_seq). lia.
  - intros Hi. exists (Z.to_nat i). split; [lia|]. apply in_seq. lia.
Qed.

Lemma positions_with_elevation_letter_spec (heightmap : list string)
    (letter : ascii) (q : Z * Z) :
  rectangular heightmap → in_bounds heightmap q →
  ∃ ps, Day12.positions_with_elevation_letter heightmap letter = Returns ps
        ∧ ∀ p, p ∈ ps ↔ in_bounds heightmap p ∧ letter_is heightmap p letter.
Proof.
  intros Hrect Hq. unfold Day12.positions_with_elevation_letter.
  destruct (first_row_columns heightmap q Hq) as (row0 & -> & Hcols).
  cbn [mbind outcome_bind]. rewrite Hcols.
  set (all := _ ≫= _).
  assert (Hall : ∀ p, p ∈ all ↔ in_bounds heightmap p).
  { intros [r c]. unfold all, in_bounds. rewrite list_elem_of_bind.
    setoid_rewrite list_elem_of_bind. setoid_rewrite elem_of_py_range.
    setoid_rewrite list_elem_of_singleton. cbn [fst snd]. split.
    - intros (r' & (c' & [= -> ->] & Hc) & Hr). done.
    - intros [Hr Hc]. exists r. split; [|done]. exists c. done. }
  set (g := λ p : Z * Z,
         match cell (map chars heightmap) p with
         | Some l => Ascii.eqb l letter
         | None => false
         end).
  exists (List.filter g all). split.
  - apply py_filter_pure. intros [r c] Hp%Hall.
    destruct (letter_at_cell heightmap Hrect r c Hp) as (l & Hcell & ->).
    cbn [mbind outcome_bind]. unfold g. by rewrite Hcell.
  - intros p. rewrite list_elem_of_In, filter_In, <- list_elem_of_In, Hall.
    unfold letter_is, g. split.
    + intros [Hp Hl]. split; [done|].
      destruct (cell (map chars heightmap) p) as [l|]; [|done].
      by apply Ascii.eqb_eq in Hl as ->.
    + intros [Hp ->]. split; [done|]. apply Ascii.eqb_refl.
Qed.

Lemma py_min_spec (l : list num) (x : num) :
  x ∈ l →
  ∃ m, py_min l = Returns m ∧ m ∈ l ∧ ∀ y, y ∈ l → num_le m y.
Proof.
  destruct l as [|x0 l]; [by intros ?%elem_of_nil|]. intros _.
  cbn [py_min]. eexists. split; [reflexivity|].
  revert x0. induction l as [|y l IH]; intros x0.
  - cbn. split; [by left|]. intros y ->%list_elem_of_singleton.
    unfold num_le. destruct x0; cbn; [apply Z.ltb_irrefl|done].
  - cbn [fold_left]. destruct (IH (if num_ltb y x0 then y else x0)) as [Hin Hle].
    split.
    + apply elem_of_cons in Hin as [->|Hin].
      * destruct (num_ltb y x0); [right; by left|by left].
      * right. by right.
    + intros z Hz.
      assert (Hmin : num_le (if num_ltb y x0 then y else x0) x0
                     ∧ num_le (if num_ltb y x0 then y else x0) y).
      { unfold num_le. destruct y as [a|], x0 as [b|]; cbn;
          try destruct (Z.ltb_spec a b); cbn; try done;
          split; try done; apply Z.ltb_ge; lia. }
      assert (Htrans : ∀ a b c, num_le a b → num_le b c → num_le a c).
      { unfold num_le. intros [a|] [b|] [c|]; cbn; try done.
        rewrite !Z.ltb_ge. lia. }
      apply elem_of_cons in Hz as [->|[->|Hz]%elem_of_cons].
      * eapply Htrans; [|apply Hmin]. apply Hle. by left.
      * eapply Htrans; [|apply Hmin]. apply Hle. by left.
      * apply Hle. by right.
Qed.

(** ** Day 12: shortest walks *)

(** C1: on a rectangular heightmap, for in-bounds start and goal
    positions, [breadth_first_height_search] returns the minimal number of
    steps from the start to the goal ([math.inf] when no walk leads
    there), a step being a move to an adjacent cell whose elevation is at
    most one above the current one ('S' counts as 'a' and 'E' as 'z'); the
    loop runs at most once per cell. *)
Theorem breadth_first_height_search_minimal
    (heightmap : list string) (start goal : Z * Z) (fuel : nat) :
  rectangular heightmap →
  in_bounds heightmap start →
  in_bounds heightmap goal →
  (length heightmap * num_columns heightmap <= fuel)%nat →
  ∃ r : num,
    Day12.breadth_first_height_search fuel heightmap start goal = Returns r
    ∧ match r with
      | Fin d =>
          ∃ n : nat, d = Z.of_nat n ∧ walk heightmap start goal n
                     ∧ ∀ m, walk heightmap start goal m → (n <= m)%nat
      | Inf => ∀ m, ¬ walk heightmap start goal m
      end.
Proof.
  intros Hrect Hstart Hgoal Hfuel.
  exact (search_correct heightmap Hrect start Hstart fuel goal Hgoal Hfuel).
Qed.

Lemma breadth_first_height_search_minimal_witness :
  ∃ r : num,
    Day12.breadth_first_height_search 4 ["ab"; "ca"]%string (0, 0) (1, 1)
      = Returns r
    ∧ match r with
      | Fin d =>
          ∃ n : nat,
            d = Z.of_nat n ∧ walk ["ab"; "ca"]%string (0, 0) (1, 1) n
            ∧ ∀ m, walk ["ab"; "ca"]%string (0, 0) (1, 1) m → (n <= m)%nat
      | Inf => ∀ m, ¬ walk ["ab"; "ca"]%string (0, 0) (1, 1) m
      end.
Proof.
  apply (breadth_first_height_search_minimal
           ["ab"; "ca"]%string (0, 0) (1, 1) 4).
  - repeat constructor.
  - split; simpl; lia.
  - split; simpl; lia.
  - simpl. lia.
Defined.

Lemma ridge_step (c : Z) :
  0 <= c < 25 → can_step ridge (0, c) (0, c + 1).
Proof.
  intros Hc.
  split; [split; cbn; lia|]. split; [split; cbn; lia|].
  split; [right; right; left; cbn; lia|].
  assert (Hcases : ∃ k : nat, (k < 25)%nat ∧ c = Z.of_nat k)
    by (exists (Z.to_nat c); lia).
  destruct Hcases as (k & Hk & ->).
  do 25 (destruct k as [|k]; [by vm_compute|]). lia.
Qed.

Lemma ridge_walk (k : nat) :
  (k <= 25)%nat → walk ridge (0, 0) (0, Z.of_nat k) k.
Proof.
  induction k as [|k IH]; intros Hk.
  - constructor. split; cbn; lia.
  - apply (walk_more _ _ (0, Z.of_nat k)); [apply IH; lia|].
    replace (Z.of_nat (S k)) with (Z.of_nat k + 1) by lia.
    apply ridge_step. lia.
Qed.

Lemma ridge_walled_in (q : Z * Z) (n : nat) :
  walk ridge (0, 26) q n → q = (0, 26).
Proof.
  induction 1 as [|q r n Hwalk IH Hstep]; [done|]. subst q.
  destruct Hstep as (_ & [Hr Hc] & Hadj & Hel). destruct r as [r c].
  unfold adjacent in Hadj. cbn in Hr, Hc, Hadj.
  assert (r = 0 ∧ c = 25) as [-> ->] by lia.
  vm_compute in Hel. by destruct Hel.
Qed.

Section Day16Facts.

(** ** Day 16: the pruned pair search against the plain maximum *)

Import Day16.

Lemma fold_max_best_is_max (vals seen : list Z) (b : best) :
  is_max seen b → is_max (seen ++ vals) (fold_left max_best vals b).
Proof.
  revert seen b. induction vals as [|v vals IH]; intros seen b Hb.
  - by rewrite app_nil_r.
  - cbn [fold_left]. replace (seen ++ v :: vals) with ((seen ++ [v]) ++ vals)
      by by rewrite <- app_assoc.
    apply IH. destruct b as [|m]; cbn in *.
    + subst seen. split; [by left|]. intros w [<-|[]]. lia.
    + destruct Hb as [Hin Hle]. destruct (Z.ltb_spec m v); cbn.
      * split; [apply in_app_iff; right; by left|].
        intros w [Hw|[<-|[]]]%in_app_iff; [specialize (Hle w Hw)|]; lia.
      * split; [apply in_app_iff; by left|].
        intros w [Hw|[<-|[]]]%in_app_iff; [by apply Hle|lia].
Qed.

Lemma max_of_is_max (vals : list Z) : is_max vals (max_of vals).
Proof. by apply (fold_max_best_is_max vals [] NegInf). Qed.

Lemma is_max_unique (vals vals' : list Z) (b b' : best) :
  (∀ v, In v vals ↔ In v vals') →
  is_max vals b → is_max vals' b' → b = b'.
Proof.
  intros Hsame Hb Hb'. destruct b as [|m], b' as [|m']; cbn in *.
  - done.
  - subst vals. destruct Hb' as [Hin _]. by apply Hsame in Hin.
  - subst vals'. destruct Hb as [Hin _]. by apply Hsame in Hin.
  - destruct Hb as [Hin Hle], Hb' as [Hin' Hle'].
    apply Hsame in Hin. apply Hsame in Hin'.
    specialize (Hle _ Hin'). specialize (Hle' _ Hin). f_equal. lia.
Qed.

Lemma fold_max_best_below (vals : list Z) (n : Z) :
  (∀ v, In v vals → v <= n) → fold_left max_best vals (Best n) = Best n.
Proof.
  induction vals as [|v vals IH]; intros Hle; [done|].
  cbn [fold_left max_best].
  destruct (Z.ltb_spec n v) as [Hlt|_].
  - specialize (Hle v ltac:(by left)). lia.
  - apply IH. intros w Hw. apply Hle. by right.
Qed.

(** On such a list the [break] never loses a pair that would have
    counted. *)
Lemma best_pair_loop_unpruned (pairs : list (ScoredOrder * ScoredOrder)) :
  ordered_pairs pairs →
  ∀ b, best_pair_loop pairs b
       = fold_left max_best
           (map combined_score (List.filter disjoint_orders pairs)) b.
Proof.
  induction pairs as [|[human elephant] pairs IH]; intros [Hle Hsorted] b;
    [done|].
  apply Forall_cons in Hle as [Hhe Hle].
  apply StronglySorted_cons in Hsorted as [Hhead Hsorted].
  cbn [best_pair_loop List.filter]. unfold disjoint_orders at 1. cbn [fst snd].
  destruct (lt_best (score human * 2) b) eqn:Hbreak.
  - destruct b as [|n]; [done|]. cbn in Hbreak. apply Z.ltb_lt in Hbreak.
    symmetry. apply fold_max_best_below.
    change (∀ v, In v (map combined_score
                         (List.filter disjoint_orders
                            ((human, elephant) :: pairs))) → v <= n).
    intros v ([h e] & <- & [Hin _]%filter_In)%in_map_iff.
    unfold combined_score. cbn [fst snd].
    destruct Hin as [[= <- <-]|Hin]; [cbn in Hhe; lia|].
    rewrite Forall_forall in Hle, Hhead.
    apply list_elem_of_In in Hin.
    specialize (Hle _ Hin). specialize (Hhead _ Hin). cbn in *. lia.
  - destruct (share_valve (order human) (order elephant)); cbn [negb].
    + by apply IH.
    + cbn [map fold_left]. by apply IH.
Qed.

Lemma in_combinations {A} (l : list A) (a b : A) :
  In (a, b) (combinations l) → In a l ∧ In b l.
Proof.
  induction l as [|x l IH]; [done|]. cbn [combinations].
  intros [(y & [= <- <-] & Hy)%in_map_iff|Hin]%in_app_iff.
  - split; [by left|by right].
  - destruct (IH Hin). split; by right.
Qed.

Lemma combinations_ordered (l : list ScoredOrder) :
  StronglySorted (λ a b, score b <= score a) l →
  ordered_pairs (combinations l).
Proof.
  induction l as [|x l IH]; intros Hsorted; [by split; constructor|].
  apply StronglySorted_cons in Hsorted as [Hx Hsorted].
  destruct (IH Hsorted) as [Hle Hss]. rewrite Forall_forall in Hx.
  cbn [combinations]. split.
  - apply Forall_app. split; [|done].
    apply Forall_forall. intros [a b] (y & [= <- <-] & Hy)%list_elem_of_In%in_map_iff.
    cbn. apply Hx. by apply list_elem_of_In.
  - apply StronglySorted_app_2; [|clear -Hx|done].
    + intros [a b] [a' b'] (y & [= <- <-] & Hy)%list_elem_of_In%in_map_iff
        [Ha' _]%list_elem_of_In%in_combinations.
      cbn. apply Hx. by apply list_elem_of_In.
    + induction l as [|y l IHl]; cbn; constructor.
      * apply IHl. intros z Hz. apply Hx. by right.
      * apply Forall_forall. intros [a b] (z & [= <- <-] & _)%list_elem_of_In%in_map_iff.
        cbn. lia.
Qed.

Lemma insert_by_score_perm (x : ScoredOrder) (l : list ScoredOrder) :
  Permutation (x :: l) (insert_by_score x l).
Proof.
  induction l as [|y l IH]; [done|]. cbn [insert_by_score].
  destruct (score x <? score y); [|done].
  by rewrite perm_swap, IH.
Qed.

Lemma sorted_by_score_perm (l : list ScoredOrder) :
  Permutation l (sorted_by_score l).
Proof.
  induction l as [|x l IH]; [done|]. cbn.
  by rewrite <- insert_by_score_perm, <- IH.
Qed.

Lemma insert_by_score_sorted (x : ScoredOrder) (l : list ScoredOrder) :
  StronglySorted (λ a b, score b <= score a) l →
  StronglySorted (λ a b, score b <= score a) (insert_by_score x l).
Proof.
  induction l as [|y l IH]; intros Hsorted; [by repeat constructor|].
  apply StronglySorted_cons in Hsorted as [Hy Hsorted].
  cbn [insert_by_score]. destruct (Z.ltb_spec (score x) (score y)).
  - constructor; [by apply IH|].
    rewrite <- insert_by_score_perm. constructor; [lia|done].
  - constructor; [by constructor|]. constructor; [done|].
    eapply Forall_impl; [exact Hy|]. cbn. intros z Hz. lia.
Qed.

Lemma sorted_by_score_sorted (l : list ScoredOrder) :
  StronglySorted (λ a b, score b <= score a) (sorted_by_score l).
Proof.
  induction l as [|x l IH]; [constructor|]. by apply insert_by_score_sorted.
Qed.

(** Reordering a list keeps its two-element combinations, up to the
    order inside each pair. *)
Lemma combinations_perm {A} (l l' : list A) :
  Permutation l l' →
  ∀ a b, In (a, b) (combinations l) →
         In (a, b) (combinations l') ∨ In (b, a) (combinations l').
Proof.
  induction 1 as [|x l l' Hperm IH|x y l|l l' l'' _ IH1 _ IH2]; intros a b.
  - by left.
  - cbn [combinations]. rewrite !in_app_iff, !in_map_iff.
    intros [(z & [= <- <-] & Hz)|Hin].
    + left. left. exists z. split; [done|]. by rewrite <- Hperm.
    + destruct (IH a b Hin); tauto.
  - cbn [combinations map]. rewrite !in_app_iff. cbn [In].
    rewrite !in_map_iff.
    intros [[[= <- <-]|(z & [= <- <-] & Hz)]|[(z & [= <- <-] & Hz)|Hin]].
    + right. left. by left.
    + left. right. left. by exists z.
    + left. left. right. by exists z.
    + left. right. by right.
  - intros Hin. destruct (IH1 a b Hin) as [Hin'|Hin'].
    + by apply IH2.
    + destruct (IH2 b a Hin'); tauto.
Qed.

Lemma share_valve_sym (a b : list nat) : share_valve a b = share_valve b a.
Proof.
  apply eq_true_iff_eq. unfold share_valve. rewrite !existsb_exists. split.
  - intros (v & Hv & Hb%bool_decide_eq_true). exists v.
    split; [by apply list_elem_of_In|]. apply bool_decide_eq_true.
    by apply list_elem_of_In.
  - intros (v & Hv & Hb%bool_decide_eq_true). exists v.
    split; [by apply list_elem_of_In|]. apply bool_decide_eq_true.
    by apply list_elem_of_In.
Qed.

Lemma disjoint_sums_perm (l l' : list ScoredOrder) :
  Permutation l l' →
  ∀ v, In v (map combined_score (List.filter disjoint_orders (combinations l)))
       → In v (map combined_score
                 (List.filter disjoint_orders (combinations l'))).
Proof.
  intros Hperm v ([a b] & <- & [Hin Hdis]%filter_In)%in_map_iff.
  apply in_map_iff.
  destruct (combinations_perm l l' Hperm a b Hin) as [Hin'|Hin'].
  - exists (a, b). split; [done|]. by apply filter_In.
  - exists (b, a). split; [unfold combined_score; cbn; lia|].
    apply filter_In. split; [done|].
    unfold disjoint_orders in *. cbn [fst snd] in *.
    by rewrite share_valve_sym.
Qed.

Lemma unpruned_maximum_perm (l l' : list ScoredOrder) :
  Permutation l l' → unpruned_maximum l = unpruned_maximum l'.
Proof.
  intros Hperm. unfold unpruned_maximum.
  eapply is_max_unique; [|apply max_of_is_max..].
  intros v. split; apply disjoint_sums_perm; [done|by symmetry].
Qed.

(** The pruned loop over the sorted orders finds the plain maximum. *)
Lemma pruned_search_correct (scored : list ScoredOrder) :
  best_pair_loop (combinations (sorted_by_score scored)) NegInf
  = unpruned_maximum scored.
Proof.
  rewrite best_pair_loop_unpruned
    by apply combinations_ordered, sorted_by_score_sorted.
  symmetry. apply unpruned_maximum_perm, sorted_by_score_perm.
Qed.

Lemma part_2_on_unpruned (set_iter : gset nat → list nat)
    (valve_names : list string) (valve_rates : list Z)
    (distances : nat → nat → Z) (start_valve_name : string)
    (time_left_at_start : Z) :
  part_2_on set_iter valve_names valve_rates distances start_valve_name
    time_left_at_start
  = part_2_unpruned set_iter valve_names valve_rates distances
      start_valve_name time_left_at_start.
Proof.
  unfold part_2_on, part_2_unpruned.
  destruct (relevant_valves valve_names valve_rates) as [relevant| |];
    [|done..].
  cbn [mbind outcome_bind].
  destruct (list_index valve_names start_valve_name) as [start_valve| |];
    [|done..].
  cbn [mbind outcome_bind]. f_equal. apply pruned_search_correct.
Qed.

(** C3: the pruned search of [part_2] (pairs of scored orders sorted by
    score descending, loop left as soon as twice the first score is below
    the best sum so far, pairs sharing a valve skipped) returns the same
    value as the maximum, over all pairs of generated visiting orders with
    disjoint valve sets, of the sum of the two scores. *)
Theorem part_2_pruned_is_unpruned (set_iter : gset nat → list nat)
    (valve_names : list string) (valve_rates : list Z)
    (distances : nat → nat → Z) (start_valve_name : string)
    (time_left_at_start : Z) :
  part_2_on set_iter valve_names valve_rates distances start_valve_name
    time_left_at_start
  = part_2_unpruned set_iter valve_names valve_rates distances
      start_valve_name time_left_at_start
  ∧ ∀ scored : list ScoredOrder,
      best_pair_loop (combinations (sorted_by_score scored)) NegInf
      = unpruned_maximum scored.
Proof. split; [apply part_2_on_unpruned|apply pruned_search_correct]. Qed.

(** ** Day 16: two runs give the same answers *)

Lemma flat_map_perm {A B} (f g : A → list B) (l l' : list A) :
  Permutation l l' →
  (∀ x, Permutation (f x) (g x)) →
  Permutation (flat_map f l) (flat_map g l').
Proof.
  intros Hperm Hfg. rewrite (Permutation_flat_map f Hperm).
  clear Hperm. induction l' as [|x l' IH]; [done|].
  cbn. by rewrite (Hfg x), IH.
Qed.

Section TwoRuns.

Variables iter1 iter2 : gset nat → list nat.
Hypothesis Hiter : ∀ X, Permutation (iter1 X) (iter2 X).

Lemma generate_visiting_orders_perm (distances : nat → nat → Z) (n : nat) :
  ∀ (start_valve : nat) (left : gset nat) (visited : list nat) (time_left : Z),
    Permutation
      (generate_visiting_orders iter1 n distances start_valve left visited
         time_left)
      (generate_visiting_orders iter2 n distances start_valve left visited
         time_left).
Proof.
  induction n as [|n IH]; intros start_valve left visited time_left; [done|].
  cbn [generate_visiting_orders].
  apply Permutation_app; [|done].
  apply flat_map_perm; [apply Hiter|].
  intros valve. by destruct (_ <? _).
Qed.

Lemma orders_with_scores_perm (valve_rates : list Z)
    (distances : nat → nat → Z) (start_valve : nat) (relevant : gset nat)
    (time_left : Z) :
  Permutation
    (orders_with_scores iter1 valve_rates distances start_valve relevant
       time_left)
    (orders_with_scores iter2 valve_rates distances start_valve relevant
       time_left).
Proof.
  unfold orders_with_scores, recursively_generate_visiting_orders.
  apply Permutation_map, generate_visiting_orders_perm.
Qed.

End TwoRuns.

Lemma fold_max_best_Best (l : list Z) (x : Z) :
  fold_left max_best l (Best x)
  = Best (fold_left (λ m y, if m <? y then y else m) l x).
Proof.
  revert x. induction l as [|y l IH]; intros x; [done|].
  cbn [fold_left max_best]. by destruct (x <? y).
Qed.

Lemma py_max_perm (l l' : list Z) :
  Permutation l l' → py_max l = py_max l'.
Proof.
  intros Hperm.
  assert (Hmax : max_of l = max_of l').
  { eapply is_max_unique; [|apply max_of_is_max..].
    intros v. split; apply Permutation_in; [done|by symmetry]. }
  destruct l as [|x l], l' as [|x' l'].
  - done.
  - by apply Permutation_nil_cons in Hperm.
  - symmetry in Hperm. by apply Permutation_nil_cons in Hperm.
  - unfold max_of in Hmax. cbn [fold_left max_best] in Hmax.
    rewrite !fold_max_best_Best in Hmax. cbn [py_max]. congruence.
Qed.

(** X29: the text that the main entry point of day 16 writes does not
    depend on the order in which a run goes through its sets: two runs
    whose input files have the same contents and whose [for] loops take
    the members of every set in orders that are permutations of each
    other write the same text and end the same way, whatever the other
    files are. *)
Theorem day16_main_two_runs
    (re_search : string → option (string * string * string))
    (shortest_paths : nat → list (nat * nat) → nat → nat → Z)
    (iter1 iter2 : gset nat → list nat) (fs1 fs2 : filesystem)
    (script_file : path) :
  (∀ X, Permutation (iter1 X) (iter2 X)) →
  fs1 (default_filepath script_file) = fs2 (default_filepath script_file) →
  main re_search shortest_paths iter1 fs1 script_file
  = main re_search shortest_paths iter2 fs2 script_file.
Proof.
  intros Hiter Hfile.
  assert (Hparse : parse_lines re_search shortest_paths fs1
                     (default_filepath script_file)
                   = parse_lines re_search shortest_paths fs2
                       (default_filepath script_file)).
  { unfold parse_lines, read_file. by rewrite Hfile. }
  assert (Hpart1 : ∀ name time,
            part_1 re_search shortest_paths iter1 fs1
              (default_filepath script_file) name time
            = part_1 re_search shortest_paths iter2 fs2
                (default_filepath script_file) name time).
  { intros name time. unfold part_1. rewrite Hparse.
    destruct (parse_lines _ _ fs2 _) as [[[names rates] distances]| |];
      [|done..].
    cbn [mbind outcome_bind]. unfold part_1_on.
    destruct (relevant_valves names rates) as [relevant| |]; [|done..].
    cbn [mbind outcome_bind].
    destruct (list_index names name) as [start_valve| |]; [|done..].
    cbn [mbind outcome_bind]. apply py_max_perm, Permutation_map.
    by apply generate_visiting_orders_perm. }
  assert (Hpart2 : ∀ name time,
            part_2 re_search shortest_paths iter1 fs1
              (default_filepath script_file) name time
            = part_2 re_search shortest_paths iter2 fs2
                (default_filepath script_file) name time).
  { intros name time. unfold part_2. rewrite Hparse.
    destruct (parse_lines _ _ fs2 _) as [[[names rates] distances]| |];
      [|done..].
    cbn [mbind outcome_bind]. rewrite !part_2_on_unpruned.
    unfold part_2_unpruned.
    destruct (relevant_valves names rates) as [relevant| |]; [|done..].
    cbn [mbind outcome_bind].
    destruct (list_index names name) as [start_valve| |]; [|done..].
    cbn [mbind outcome_bind]. f_equal.
    by apply unpruned_maximum_perm, orders_with_scores_perm. }
  unfold main. by rewrite Hpart1, Hpart2.
Qed.

End Day16Facts.

(** ** Malformed input: what is accepted and what raises *)

(** A file whose only line has text after the second range is read
    without an exception. *)
Lemma trailing_text_is_accepted : ¬ raises_on_every_malformed_file.
Proof.
  intros Hclaim.
  destruct (Hclaim (λ _, Some trailing_text) (Path false ["inputs.txt"])
              trailing_text eq_refl) as [e He].
  - exists trailing_text. split; [by left|]. by vm_compute.
  - by vm_compute in He.
Qed.

(** A loop stops with the exception of an element that always raises, when
    the other elements can only raise the same exception. *)
Lemma foldM_raises {A S} (f : S → A → outcome S) (e : exn) (l : list A) (x : A) :
  x ∈ l →
  (∀ s, f s x = Raises e) →
  (∀ s y, y ∈ l → (∃ s', f s y = Returns s') ∨ f s y = Raises e) →
  ∀ s, foldM f l s = Raises e.
Proof.
  intros Hx Hraise Hothers. induction l as [|y l IH]; intros s.
  - by apply elem_of_nil in Hx.
  - cbn [foldM]. apply elem_of_cons in Hx as [<-|Hx].
    + by rewrite Hraise.
    + destruct (Hothers s y) as [[s' ->]| ->]; [by left| |done].
      cbn [mbind outcome_bind]. apply IH; [done|].
      intros s0 z Hz. apply Hothers. by right.
Qed.

Lemma py_int_outcome (s : string) :
  (∃ n, py_int s = Returns n) ∨ py_int s = Raises ValueError.
Proof.
  unfold py_int. destruct (match chars (strip s) with [] => _ | _ => _ end);
    eauto.
Qed.

Lemma assignment_to_range_set_outcome (assignment : string) :
  (∃ r, Day4.assignment_to_range_set assignment = Returns r)
  ∨ Day4.assignment_to_range_set assignment = Raises ValueError.
Proof.
  unfold Day4.assignment_to_range_set.
  destruct (Day4.re_match_assignment assignment) as [[a b]|]; [|by right].
  destruct (py_int_outcome a) as [[n ->]| ->]; [|by right].
  destruct (py_int_outcome b) as [[m ->]| ->]; [|by right].
  left. eauto.
Qed.

Lemma count_line_outcome (test : gset Z → gset Z → bool) (count : Z)
    (line : string) :
  (∃ n, count_line test count (Day4.split_assignments line) = Returns n)
  ∨ count_line test count (Day4.split_assignments line) = Raises ValueError.
Proof.
  unfold count_line, Day4.split_assignments.
  destruct (split line ",") as [|l [|r [|? ?]]]; try by right.
  cbn [mbind outcome_bind].
  destruct (assignment_to_range_set_outcome l) as [[a ->]| ->]; [|by right].
  destruct (assignment_to_range_set_outcome r) as [[b ->]| ->]; [|by right].
  left. eauto.
Qed.

Lemma count_line_unmatched (test : gset Z → gset Z → bool) (count : Z)
    (line : string) :
  unmatched_assignment_line line →
  count_line test count (Day4.split_assignments line) = Raises ValueError.
Proof.
  unfold unmatched_assignment_line, count_line, Day4.split_assignments.
  destruct (split line ",") as [|l [|r [|? ?]]]; try done.
  cbn [mbind outcome_bind].
  assert (Hnone : ∀ a, Day4.re_match_assignment a = None →
                       Day4.assignment_to_range_set a = Raises ValueError).
  { intros a Ha. unfold Day4.assignment_to_range_set. by rewrite Ha. }
  intros [Hl | Hr].
  - by rewrite (Hnone l Hl).
  - destruct (assignment_to_range_set_outcome l) as [[a ->]| ->]; [|done].
    cbn [mbind outcome_bind]. by rewrite (Hnone r Hr).
Qed.

Lemma count_pairs_unmatched (test : gset Z → gset Z → bool)
    (fs : filesystem) (filepath : path) (text line : string) :
  fs filepath = Some text →
  line ∈ file_lines text →
  unmatched_assignment_line line →
  Day4.count_pairs test fs filepath = Raises ValueError.
Proof.
  intros Hfile Hline Hbad.
  unfold Day4.count_pairs, Day4.generate_assignment_pairs, read_file.
  rewrite Hfile. cbn [mbind outcome_bind].
  apply (foldM_raises (count_line test) ValueError _
           (Day4.split_assignments line)).
  - apply list_elem_of_In, in_map, list_elem_of_In, Hline.
  - intros count. by apply count_line_unmatched.
  - intros count y (l & <- & _)%list_elem_of_In%in_map_iff.
    apply count_line_outcome.
Qed.

Lemma read_calorie_line_outcome (st : list (list Z) * list Z) (line : string) :
  (∃ st', Day1.read_calorie_line st line = Returns st')
  ∨ Day1.read_calorie_line st line = Raises ValueError.
Proof.
  destruct st as [yielded single]. unfold Day1.read_calorie_line.
  destruct (String.eqb (strip line) ""); [eauto|].
  destruct (py_int_outcome (strip line)) as [[n ->]| ->]; [|by right].
  left. eauto.
Qed.

Lemma parse_line_outcome (re_search : string → option (string * string * string))
    (st : list string * list Z * list (string * string)) (line : string) :
  (∃ st', Day16.parse_line re_search st line = Returns st')
  ∨ Day16.parse_line re_search st line = Raises ValueError.
Proof.
  destruct st as [[names rates] edges]. unfold Day16.parse_line.
  destruct (re_search line) as [[[name rate] connected]|]; [|by right].
  destruct (py_int_outcome rate) as [[n ->]| ->]; [|by right].
  left. eauto.
Qed.

(** C4, amended: a line the script's own pattern or conversion rejects
    makes the parsing step raise [ValueError], which nothing catches: in
    day 4 a line without exactly two comma-separated fields or with a field
    that does not start with digits, a dash and digits; in day 1 a
    non-blank line that [int] does not accept; in day 16 a line in which
    the valve pattern is found nowhere. *)
Theorem unmatched_line_raises_value_error
    (fs : filesystem) (filepath : path) (text line : string)
    (re_search : string → option (string * string * string))
    (shortest_paths : nat → list (nat * nat) → nat → nat → Z) :
  fs filepath = Some text →
  line ∈ file_lines text →
  (unmatched_assignment_line line →
   Day4.part_1 fs filepath = Raises ValueError
   ∧ Day4.part_2 fs filepath = Raises ValueError)
  ∧ (strip line ≠ ""%string → py_int (strip line) = Raises ValueError →
     Day1.generate_elf_calories_from_file fs filepath = Raises ValueError)
  ∧ (re_search line = None →
     Day16.parse_lines re_search shortest_paths fs filepath
     = Raises ValueError).
Proof.
  intros Hfile Hline. split; [|split].
  - intros Hbad. split; by eapply count_pairs_unmatched.
  - intros Hblank Hint.
    unfold Day1.generate_elf_calories_from_file, read_file.
    rewrite Hfile. cbn [mbind outcome_bind].
    rewrite (foldM_raises Day1.read_calorie_line ValueError _ line); try done.
    + intros [yielded single]. unfold Day1.read_calorie_line.
      apply String.eqb_neq in Hblank. by rewrite Hblank, Hint.
    + intros st y _. apply read_calorie_line_outcome.
  - intros Hsearch. unfold Day16.parse_lines, read_file.
    rewrite Hfile. cbn [mbind outcome_bind].
    rewrite (foldM_raises (Day16.parse_line re_search) ValueError _ line);
      try done.
    + intros [[names rates] edges]. unfold Day16.parse_line. by rewrite Hsearch.
    + intros st y _. apply parse_line_outcome.
Qed.

Lemma unmatched_line_raises_value_error_witness :
  (Day4.part_1 (λ _, Some no_dash) (Path false ["inputs.txt"])
   = Raises ValueError
   ∧ Day4.part_2 (λ _, Some no_dash) (Path false ["inputs.txt"])
     = Raises ValueError)
  ∧ Day1.generate_elf_calories_from_file
      (λ _, Some no_dash) (Path false ["inputs.txt"]) = Raises ValueError
  ∧ Day16.parse_lines (λ _, None) (λ _ _ _ _, 0)
      (λ _, Some no_dash) (Path false ["inputs.txt"]) = Raises ValueError.
Proof.
  destruct (unmatched_line_raises_value_error
              (λ _, Some no_dash) (Path false ["inputs.txt"]) no_dash no_dash
              (λ _, None) (λ _ _ _ _, 0) eq_refl) as (Hday4 & Hday1 & Hday16).
  - by left.
  - split; [|split].
    + apply Hday4. vm_compute. by left.
    + apply Hday1; by vm_compute.
    + by apply Hday16.
Defined.

(** ** What the main entry points print *)

Lemma str_of_chars (s : string) : str_of (chars s) = s.
Proof. apply string_of_list_ascii_of_string. Qed.

(** A text without newline followed by a newline is one line. *)
Lemma file_lines_go_line (x rest cur : list ascii) :
  ¬ In newline x →
  file_lines_go (x ++ newline :: rest) cur
  = str_of (rev cur ++ x ++ [newline]) :: file_lines_go rest [].
Proof.
  revert cur. induction x as [|c x IH]; intros cur Hx.
  - cbn [app file_lines_go]. by rewrite Ascii.eqb_refl.
  - cbn [app file_lines_go]. destruct (Ascii.eqb_spec c newline) as [->|_].
    + exfalso. apply Hx. by left.
    + rewrite IH by (intros Hin; apply Hx; by right).
      cbn [rev]. by rewrite <- !app_assoc.
Qed.

(** In any case it is at least one line. *)
Lemma file_lines_go_more (x rest cur : list ascii) :
  (S (length (file_lines_go rest []))
   <= length (file_lines_go (x ++ newline :: rest) cur))%nat.
Proof.
  revert cur. induction x as [|c x IH]; intros cur.
  - cbn [app file_lines_go]. rewrite Ascii.eqb_refl. cbn. lia.
  - cbn [app file_lines_go]. destruct (Ascii.eqb c newline).
    + cbn [length]. specialize (IH []). lia.
    + apply IH.
Qed.

Lemma chars_py_print (args : list string) :
  chars (py_print args) = chars (String.concat " " args) ++ [newline].
Proof. unfold py_print. by rewrite chars_app. Qed.

Lemma output_lines_print (args : list string) (rest : string) :
  no_newline (String.concat " " args) →
  output_lines (py_print args +:+ rest) = py_print args :: output_lines rest.
Proof.
  intros Hno. unfold output_lines, file_lines.
  rewrite chars_app, chars_py_print, <- app_assoc. cbn [app].
  rewrite file_lines_go_line by done. cbn [rev app].
  by rewrite <- chars_py_print, str_of_chars.
Qed.

Lemma output_lines_print_more (args : list string) (rest : string) :
  (S (length (output_lines rest))
   <= length (output_lines (py_print args +:+ rest)))%nat.
Proof.
  unfold output_lines, file_lines.
  rewrite chars_app, chars_py_print, <- app_assoc. cbn [app].
  apply file_lines_go_more.
Qed.

Lemma digit_char_not_newline (d : Z) : 0 <= d < 10 → digit_char d ≠ newline.
Proof.
  intros Hd.
  assert (d = 0 ∨ d = 1 ∨ d = 2 ∨ d = 3 ∨ d = 4 ∨ d = 5 ∨ d = 6 ∨ d = 7
          ∨ d = 8 ∨ d = 9) as Hcases by lia.
  repeat destruct Hcases as [->|Hcases]; try subst d; by vm_compute.
Qed.

Lemma str_pos_go_no_newline (fuel : nat) :
  ∀ (n : Z) (acc : list ascii),
    0 <= n → ¬ In newline acc → ¬ In newline (str_pos_go fuel n acc).
Proof.
  induction fuel as [|fuel IH]; intros n acc Hn Hacc; [done|].
  cbn [str_pos_go]. destruct (Z.ltb_spec n 10).
  - intros [Heq|Hin]; [|done]. by apply (digit_char_not_newline n).
  - apply IH; [apply Z.div_pos; lia|].
    intros [Heq|Hin]; [|done].
    apply (digit_char_not_newline (n mod 10)); [|done].
    apply Z.mod_pos_bound. lia.
Qed.

Lemma str_int_no_newline (n : Z) : no_newline (str_int n).
Proof.
  unfold no_newline, str_int. destruct (Z.ltb_spec n 0); rewrite chars_str_of.
  - intros [Heq|Hin]; [discriminate Heq|].
    revert Hin. apply str_pos_go_no_newline; [lia|by intros []].
  - apply str_pos_go_no_newline; [lia|by intros []].
Qed.

Lemma labelled_no_newline (label value : string) :
  no_newline label → no_newline value →
  no_newline (String.concat " " [label; value]).
Proof.
  unfold no_newline. intros Hl Hv.
  change (String.concat " " [label; value]) with (label +:+ " " +:+ value).
  rewrite !chars_app, !in_app_iff. intros [?|[Hin|?]]; try done.
  destruct Hin as [Heq|[]]. discriminate Heq.
Qed.

(** The digits of a SNAFU number are never a newline. *)
Lemma snafu_step_no_newline (base : Z) (acc acc' : list ascii) (r r' : Z)
    (c : ascii) :
  base = 5 →
  Day25.snafu_step base (acc, r) c = Returns (acc', r') →
  ¬ In newline acc → ¬ In newline acc'.
Proof.
  intros -> Hstep Hacc. unfold Day25.snafu_step in Hstep.
  destruct (int_of_char c) as [d| |]; [|done..].
  cbn [mbind outcome_bind] in Hstep.
  assert (Hkey : ∀ k ch, Day25.DECIMAL_TO_SNAFU_MAP !! k = Some ch →
                         (k = 0 ∨ k = 1 ∨ k = 2 ∨ k = -1 ∨ k = -2) →
                         ch ≠ newline).
  { intros k ch Hk Hcases.
    repeat destruct Hcases as [->|Hcases]; try subst k;
      vm_compute in Hk; injection Hk as <-; by vm_compute. }
  assert (Hput : ∀ k, (k = 0 ∨ k = 1 ∨ k = 2 ∨ k = -1 ∨ k = -2) →
                      ∀ r0, (ch ← dict_get Day25.DECIMAL_TO_SNAFU_MAP k;
                             Returns (acc ++ [ch], r0)) = Returns (acc', r') →
                            ¬ In newline acc').
  { intros k Hk r0 Hrun. unfold dict_get in Hrun.
    destruct (Day25.DECIMAL_TO_SNAFU_MAP !! k) as [ch|] eqn:Hch; [|done].
    cbn in Hrun. injection Hrun as <- _.
    rewrite in_app_iff. intros [?|[Heq|[]]]; [done|].
    by apply (Hkey k ch Hch Hk). }
  destruct ((d + r =? 0) || (d + r =? 1) || (d + r =? 2)) eqn:Hlow.
  - eapply Hput; [|exact Hstep].
    apply orb_true_iff in Hlow as [Hlow|Hlow];
      [apply orb_true_iff in Hlow as [Hlow|Hlow]|]; lia.
  - destruct ((d + r =? 3) || (d + r =? 4) || (d + r =? 5)) eqn:Hhigh; [|done].
    eapply Hput; [|exact Hstep].
    apply orb_true_iff in Hhigh as [Hhigh|Hhigh];
      [apply orb_true_iff in Hhigh as [Hhigh|Hhigh]|]; lia.
Qed.

Lemma snafu_loop_no_newline (l : list ascii) :
  ∀ (acc acc' : list ascii) (r r' : Z),
    foldM (Day25.snafu_step 5) l (acc, r) = Returns (acc', r') →
    ¬ In newline acc → ¬ In newline acc'.
Proof.
  induction l as [|c l IH]; intros acc acc' r r' Hrun Hacc.
  - cbn in Hrun. by injection Hrun as <- _.
  - cbn [foldM] in Hrun.
    destruct (Day25.snafu_step 5 (acc, r) c) as [[acc1 r1]| |] eqn:Hstep;
      [|done..].
    cbn [mbind outcome_bind] in Hrun.
    eapply IH; [exact Hrun|]. by eapply snafu_step_no_newline.
Qed.

Lemma decimal_to_snafu_no_newline (fuel : nat) (n : Z) (s : string) :
  Day25.decimal_to_snafu fuel n 5 = Returns s → no_newline s.
Proof.
  unfold Day25.decimal_to_snafu. intros Hrun.
  destruct (Day25.decimal_to_base fuel n 5) as [digits| |]; [|done..].
  cbn [mbind outcome_bind] in Hrun.
  destruct (foldM _ _ _) as [[acc r]| |] eqn:Hloop; [|done..].
  cbn [mbind outcome_bind] in Hrun. injection Hrun as <-.
  unfold no_newline. rewrite chars_str_of, <- in_rev.
  apply snafu_loop_no_newline in Hloop; [|by intros []].
  destruct (r =? 0); [done|].
  rewrite in_app_iff. intros [?|[Heq|[]]]; [done|]. discriminate Heq.
Qed.

Lemma append_empty_r (s : string) : s +:+ "" = s.
Proof.
  induction s as [|c s IH]; [done|].
  change (String c (s +:+ "") = String c s). by rewrite IH.
Qed.

(** The main entry point of day 10 writes three lines for a file with a
    single [noop]. *)
Lemma day10_writes_three_lines : ¬ writes_two_lines Day10.main.
Proof.
  intros Hclaim.
  specialize (Hclaim one_noop (Path true ["day10"; "python"; "solution.py"])).
  vm_compute in Hclaim. by specialize (Hclaim eq_refl).
Qed.

(** C5, amended: the main entry points of day 1 and of day 25, when they
    run to their end, write exactly two lines; for day 1 they carry the
    answers of part 1 and part 2, for day 25 the first carries the answer
    of part 1 and the second is a fixed text, there being no part 2.  The
    main entry point of day 10 writes the answer of part 1, a line
    ["Part 2:"] and then the image of part 2, three lines at least. *)
Theorem main_entry_points_output (fs : filesystem) (script_file : path)
    (fuel : nat) :
  ((Day1.main fs script_file).2 = Returns tt →
   ∃ a b,
     Day1.part_1_solution fs script_file (Day1.default_filepath script_file)
       = Returns a
     ∧ Day1.part_2_solution fs script_file
         (Day1.part_2_default_filepath script_file) 3 = Returns b
     ∧ output_lines (Day1.main fs script_file).1
       = [py_print ["PART 1:"; str_int a]; py_print ["PART 2:"; str_int b]])
  ∧ ((Day25.main fuel fs script_file).2 = Returns tt →
     ∃ s,
       Day25.part_1 fuel fs (Day25.default_filepath script_file) = Returns s
       ∧ output_lines (Day25.main fuel fs script_file).1
         = [py_print ["Part 1:"; s];
            py_print ["Part 2: There is no part 2 :("]])
  ∧ ((Day10.main fs script_file).2 = Returns tt →
     ∃ a image,
       Day10.part_1 fs (Day10.default_filepath script_file) = Returns a
       ∧ Day10.part_2 fs (Day10.default_filepath script_file) = Returns image
       ∧ (Day10.main fs script_file).1
         = py_print ["Part 1:"; str_int a] +:+ py_print ["Part 2:"]
           +:+ py_print [image]
       ∧ (3 <= length (output_lines (Day10.main fs script_file).1))%nat).
Proof.
  split; [|split].
  - unfold Day1.main. cbn [run_prints].
    destruct (Day1.part_1_solution _ _ _) as [a| |]; [|done..].
    destruct (Day1.part_2_solution _ _ _ _) as [b| |]; [|done..].
    cbn [mbind outcome_bind mret outcome_ret fst snd].
    intros _. exists a, b. split; [done|]. split; [done|].
    rewrite !output_lines_print
      by (apply labelled_no_newline; [literal_no_newline|apply str_int_no_newline]).
    done.
  - unfold Day25.main. cbn [run_prints].
    destruct (Day25.part_1 _ _ _) as [s| |] eqn:Hpart; [|done..].
    cbn [mbind outcome_bind mret outcome_ret fst snd].
    intros _. exists s. split; [done|].
    assert (Hs : no_newline s).
    { unfold Day25.part_1 in Hpart.
      destruct (Day25.parse_inputs _ _) as [numbers| |]; [|done..].
      cbn [mbind outcome_bind] in Hpart.
      destruct (py_map _ _) as [decimals| |]; [|done..].
      by apply decimal_to_snafu_no_newline in Hpart. }
    rewrite output_lines_print
      by (apply labelled_no_newline; [literal_no_newline|done]).
    rewrite output_lines_print by literal_no_newline.
    done.
  - unfold Day10.main. cbn [run_prints].
    destruct (Day10.part_1 _ _) as [a| |]; [|done..].
    destruct (Day10.part_2 _ _) as [image| |]; [|done..].
    cbn [mbind outcome_bind mret outcome_ret fst snd].
    intros _. exists a, image. split; [done|]. split; [done|].
    rewrite append_empty_r. split; [done|].
    pose proof (output_lines_print_more ["Part 1:"; str_int a]
                  (py_print ["Part 2:"] +:+ py_print [image])) as H1.
    pose proof (output_lines_print_more ["Part 2:"] (py_print [image])) as H2.
    pose proof (output_lines_print_more [image] "") as H3.
    rewrite append_empty_r in H3. lia.
Qed.

Lemma main_entry_points_output_witness :
  (∃ a b,
     Day1.part_1_solution (λ _, Some "") (Path true ["x"; "python"; "solution.py"])
       (Day1.default_filepath (Path true ["x"; "python"; "solution.py"]))
       = Returns a
     ∧ Day1.part_2_solution (λ _, Some "")
         (Path true ["x"; "python"; "solution.py"])
         (Day1.part_2_default_filepath
            (Path true ["x"; "python"; "solution.py"])) 3 = Returns b
     ∧ output_lines
         (Day1.main (λ _, Some "") (Path true ["x"; "python"; "solution.py"])).1
       = [py_print ["PART 1:"; str_int a]; py_print ["PART 2:"; str_int b]])
  ∧ (3 <= length
            (output_lines
               (Day10.main (λ _, Some "")
                  (Path true ["x"; "python"; "solution.py"])).1))%nat.
Proof.
  destruct (main_entry_points_output (λ _, Some "")
              (Path true ["x"; "python"; "solution.py"]) 0)
    as (Hday1 & _ & Hday10).
  split.
  - apply Hday1. reflexivity.
  - destruct Hday10 as (a & image & _ & _ & _ & Hlines); [reflexivity|].
    exact Hlines.
Defined.

(** ** The [filepath] argument and its defaults *)

(** C2, as the code has it: the entry points of day 1 and day 12 do not
    use their [filepath] argument.  Whatever path is passed, the answer is
    the one of the file at the default path, so two runs given the same
    file can answer differently. *)
Theorem filepath_argument_is_ignored :
  (∀ fs script_file p q n,
     Day1.part_1_solution fs script_file p
     = Day1.part_1_solution fs script_file q
     ∧ Day1.part_2_solution fs script_file p n
       = Day1.part_2_solution fs script_file q n)
  ∧ (∀ fuel fs script_file p q,
       Day12.part_1 fuel fs script_file p = Day12.part_1 fuel fs script_file q
       ∧ Day12.part_2 fuel fs script_file p
         = Day12.part_2 fuel fs script_file q)
  ∧ calories_here my_file = calories_there my_file
  ∧ Day1.part_1_solution calories_here day1_script my_file = Returns 4000
  ∧ Day1.part_1_solution calories_there day1_script my_file = Returns 5
  ∧ hills_here my_file = hills_there my_file
  ∧ Day12.part_1 30 hills_here day12_script my_file = Returns (Fin 25)
  ∧ Day12.part_1 30 hills_there day12_script my_file = Returns (Fin 26).
Proof.
  split; [by intros|]. split; [by intros|].
  repeat split; vm_compute; reflexivity.
Qed.



(** ** Day 25: digits, canonical form and what does not terminate *)

Lemma rev_reverse {A} (l : list A) : rev l = reverse l.
Proof. by rewrite rev_alt. Qed.

Lemma last_map_list {A B} (f : A → B) (l : list A) :
  last (map f l) = f <$> last l.
Proof. exact (fmap_last f l). Qed.

Lemma snafu_char_cases (c : ascii) :
  is_Some (Day25.SNAFU_TO_DECIMAL_MAP !! c) ↔ c ∈ snafu_alphabet.
Proof.
  unfold Day25.SNAFU_TO_DECIMAL_MAP, snafu_alphabet. cbn [map app list_to_map foldr].
  rewrite !lookup_insert_is_Some, lookup_empty, !elem_of_cons, elem_of_nil.
  split.
  - intros [<-|[_ [<-|[_ [<-|[_ [<-|[_ [<-|[_ H]]]]]]]]]]; auto 10.
    by destruct H.
  - intros [->|[->|[->|[->|[->|[]]]]]]; vm_compute; intuition congruence.
Qed.

Lemma sval_balanced (c : ascii) : c ∈ snafu_alphabet → -2 <= sval c <= 2.
Proof.
  unfold snafu_alphabet. rewrite !elem_of_cons, elem_of_nil.
  intros [->|[->|[->|[->|[->|[]]]]]]; vm_compute; split; discriminate.
Qed.

Lemma sval_inj (c c' : ascii) :
  c ∈ snafu_alphabet → c' ∈ snafu_alphabet → sval c = sval c' → c = c'.
Proof.
  unfold snafu_alphabet. rewrite !elem_of_cons, !elem_of_nil.
  intros [->|[->|[->|[->|[->|[]]]]]] [->|[->|[->|[->|[->|[]]]]]];
    vm_compute; congruence.
Qed.

Lemma snafu_chars_alphabet (l : list ascii) :
  snafu_chars l ↔ Forall (λ c, c ∈ snafu_alphabet) l.
Proof.
  unfold snafu_chars. apply Forall_iff. intros c. apply snafu_char_cases.
Qed.

Lemma map_sval_balanced (l : list ascii) : snafu_chars l → balanced (map sval l).
Proof.
  rewrite snafu_chars_alphabet. unfold balanced. rewrite Forall_map.
  intros Hl. eapply Forall_impl; [exact Hl|]. intros c. apply sval_balanced.
Qed.

Lemma map_sval_inj (l l' : list ascii) :
  snafu_chars l → snafu_chars l' → map sval l = map sval l' → l = l'.
Proof.
  rewrite !snafu_chars_alphabet. intros Hl. revert l'.
  induction Hl as [|c l Hc Hl IH]; intros [|c' l'] Hl' Heq; try done.
  inversion Hl'; subst. cbn [map] in Heq. injection Heq as Hc' Hrest.
  f_equal; [by apply sval_inj|by apply IH].
Qed.

Lemma no_leading_zero_tail (d : Z) (ds : list Z) :
  no_leading_zero (d :: ds) → no_leading_zero ds.
Proof.
  unfold no_leading_zero. destruct ds as [|d' ds]; [done|].
  by rewrite last_cons_cons.
Qed.

Lemma balanced_value_zero (ds : list Z) :
  balanced ds → no_leading_zero ds → value_lsb ds = 0 → ds = [].
Proof.
  induction 1 as [|d ds Hd Hds IH]; intros Hlast Hval; [done|].
  cbn [value_lsb] in Hval.
  assert (d = 0) as -> by lia.
  assert (value_lsb ds = 0) as Hzero by lia.
  rewrite (IH (no_leading_zero_tail _ _ Hlast) Hzero) in Hlast.
  by destruct Hlast.
Qed.

Lemma balanced_unique (ds : list Z) :
  ∀ ds', balanced ds → balanced ds' →
         no_leading_zero ds → no_leading_zero ds' →
         value_lsb ds = value_lsb ds' → ds = ds'.
Proof.
  induction ds as [|d ds IH]; intros ds' Hds Hds' Hlast Hlast' Hval.
  - symmetry. by apply balanced_value_zero.
  - destruct ds' as [|d' ds'].
    + by apply balanced_value_zero.
    + inversion Hds; inversion Hds'; subst. cbn [value_lsb] in Hval.
      assert (d = d') as -> by lia. f_equal.
      apply IH; eauto using no_leading_zero_tail. lia.
Qed.

Lemma balanced_value_positive (ds : list Z) (d : Z) :
  balanced ds → last ds = Some d → 0 < d → 0 < value_lsb ds.
Proof.
  induction 1 as [|d0 ds Hd0 Hds IH]; intros Hlast Hd; [done|].
  destruct ds as [|d1 ds].
  - cbn in Hlast. injection Hlast as ->. cbn. lia.
  - rewrite last_cons_cons in Hlast. specialize (IH Hlast Hd).
    cbn [value_lsb] in *. lia.
Qed.

(** The base-5 digits that [decimal_to_base] produces have no leading
    zero. *)
Lemma decimal_to_base_loop_digits (fuel : nat) :
  ∀ (n : Z) (acc : list string),
    0 <= n → (Z.to_nat n <= fuel)%nat →
    ∃ ds : list Z,
      Day25.decimal_to_base_loop fuel n 5 acc
        = Returns (map digit_str (rev ds) ++ acc)
      ∧ Forall (λ d, 0 <= d < 5) ds
      ∧ value_lsb ds = n
      ∧ no_leading_zero ds.
Proof.
  induction fuel as [|fuel IH]; intros n acc Hn Hfuel.
  - assert (n = 0) as -> by lia. exists []. simpl. by repeat split.
  - simpl. destruct (Z.eqb_spec n 0) as [->|Hnz].
    + exists []. simpl. by repeat split.
    + assert (Hdiv : 0 <= n / 5 < n).
      { split; [apply Z.div_pos; lia|apply Z.div_lt; lia]. }
      assert (Hmod : 0 <= n mod 5 < 5) by (apply Z.mod_pos_bound; lia).
      destruct (IH (n / 5) (str_int (n mod 5) :: acc))
        as (ds & Hrun & Hds & Hval & Hlast); [lia | lia |].
      exists (n mod 5 :: ds). split; [|split; [|split]].
      * rewrite Hrun. simpl. rewrite map_app, <- app_assoc. simpl.
        by rewrite str_int_small.
      * by constructor.
      * simpl. rewrite Hval. pose proof (Z.div_mod n 5). lia.
      * unfold no_leading_zero in *. destruct ds as [|d ds].
        -- cbn in *. intros [= Hzero]. pose proof (Z.div_mod n 5). lia.
        -- by rewrite last_cons_cons.
Qed.

(** The carry loop ends with a carry or with the digit 1 or 2 when the
    base-5 number it reads has no leading zero. *)
Lemma carry_loop_last (ds : list Z) :
  ∀ (acc out : list ascii) (r r' : Z),
    Forall (λ d, 0 <= d < 5) ds → 0 <= r <= 1 →
    ds ≠ [] → no_leading_zero ds →
    foldM (Day25.snafu_step 5) (map digit_char ds) (acc, r)
      = Returns (acc ++ out, r') →
    r' = 1 ∨ last out = Some "1"%char ∨ last out = Some "2"%char.
Proof.
  induction ds as [|d ds IH]; intros acc out r r' Hds Hr Hne Hlast Hrun; [done|].
  inversion Hds as [|? ? Hd Hds']; subst.
  destruct (snafu_step_spec d r acc Hd Hr) as (ch & r1 & Hstep & Hr1 & Hch & Hval).
  cbn [foldM map] in Hrun. rewrite Hstep in Hrun. cbn [mbind outcome_bind] in Hrun.
  destruct ds as [|d' ds].
  - cbn [foldM map] in Hrun. injection Hrun as Hout <-.
    apply app_inv_head in Hout as <-.
    assert (d ≠ 0) as Hdz by (intros ->; by apply Hlast).
    clear Hch Hval Hr1.
    unfold Day25.snafu_step in Hstep. rewrite (int_of_char_small d Hd) in Hstep.
    assert (r = 0 ∨ r = 1) as [-> | ->] by lia;
      destruct (small_digit_cases d Hd) as [->|[->|[->|[->| ->]]]];
      try done; vm_compute in Hstep; injection Hstep as Hch <-;
      apply app_inv_head in Hch; injection Hch as <-; auto.
  - destruct (carry_loop_spec (d' :: ds) (acc ++ [ch]) r1 Hds' Hr1)
      as (out' & r2 & Hrun' & _ & _ & Hlen & _).
    rewrite Hrun' in Hrun. injection Hrun as Hout <-.
    rewrite <- app_assoc in Hout. apply app_inv_head in Hout as <-.
    destruct (IH (acc ++ [ch]) out' r1 r2 Hds' Hr1 ltac:(done)
                (no_leading_zero_tail _ _ Hlast) Hrun') as [?|Hl]; [by left|right].
    destruct out' as [|c out']; [by destruct Hl|].
    cbn [app]. by rewrite last_cons_cons.
Qed.

(** What [decimal_to_snafu] returns for a positive number, digit by digit
    from the least significant one. *)
Lemma decimal_to_snafu_digits (n : Z) (fuel : nat) :
  0 < n → (Z.to_nat n <= fuel)%nat →
  ∃ out : list ascii,
    Day25.decimal_to_snafu fuel n 5 = Returns (str_of (rev out))
    ∧ snafu_chars out
    ∧ value_lsb (map sval out) = n
    ∧ (last out = Some "1"%char ∨ last out = Some "2"%char).
Proof.
  intros Hn Hfuel.
  destruct (decimal_to_base_loop_digits fuel n [] ltac:(lia) Hfuel)
    as (ds & Hrun & Hds & Hval & Hlast).
  assert (ds ≠ []) as Hne by (intros ->; cbn in Hval; lia).
  destruct (carry_loop_spec ds [] 0 Hds ltac:(lia))
    as (out & r & Hloop & Hr & Hout & Hlen & Hsum).
  pose proof (carry_loop_last ds [] out 0 r Hds ltac:(lia) Hne Hlast Hloop) as Hend.
  unfold Day25.decimal_to_snafu, Day25.decimal_to_base.
  rewrite Hrun. cbn [mbind outcome_bind]. rewrite app_nil_r, chars_concat_digits.
  rewrite <- map_rev, rev_involutive, Hloop. cbn [mbind outcome_bind app].
  assert (r = 0 ∨ r = 1) as [-> | ->] by lia; cbn [Z.eqb].
  - exists out. split; [done|]. split; [done|]. split; [lia|].
    destruct Hend as [?|?]; [lia|done].
  - exists (out ++ ["1"%char]). split; [done|]. split; [|split].
    + apply Forall_app. split; [done|]. constructor; [|constructor].
      vm_compute. eauto.
    + rewrite map_app, value_lsb_app, length_map, Hlen.
      change (value_lsb (map sval ["1"%char])) with 1. lia.
    + left. by rewrite last_snoc.
Qed.

Lemma py_map_raises {A B} (f : A → outcome B) (e : exn) (l : list A) (x : A) :
  x ∈ l →
  f x = Raises e →
  (∀ y, y ∈ l → (∃ b, f y = Returns b) ∨ f y = Raises e) →
  py_map f l = Raises e.
Proof.
  induction l as [|y l IH]; intros Hx Hfx Hall; [by apply elem_of_nil in Hx|].
  cbn [py_map]. destruct (Hall y ltac:(left)) as [[b Hb]|Hy].
  - rewrite Hb. cbn [mbind outcome_bind].
    apply elem_of_cons in Hx as [->|Hx]; [congruence|].
    rewrite IH; [done|done|done|]. intros z Hz. apply Hall. by right.
  - by rewrite Hy.
Qed.

Lemma elem_of_enumerate_from {A} (l : list A) :
  ∀ (i : Z) (p : Z * A), p ∈ enumerate_from i l → p.2 ∈ l.
Proof.
  induction l as [|x l IH]; intros i p Hp; [by apply elem_of_nil in Hp|].
  cbn [enumerate_from] in Hp. apply elem_of_cons in Hp as [->|Hp]; [by left|].
  right. by apply (IH (i + 1)).
Qed.

Lemma enumerate_from_elem {A} (l : list A) (x : A) :
  x ∈ l → ∀ i, ∃ j, (j, x) ∈ enumerate_from i l.
Proof.
  induction 1 as [x l|x y l Hx IH]; intros i.
  - exists i. by left.
  - destruct (IH (i + 1)) as [j Hj]. exists j. by right.
Qed.

Lemma snafu_to_decimal_value (s : string) :
  Forall (λ c, c ∈ snafu_alphabet) (chars s) →
  Day25.snafu_to_decimal s = Returns (snafu_value s).
Proof.
  intros Hall.
  rewrite <- (str_of_chars s) at 1. rewrite <- (rev_involutive (chars s)) at 1.
  apply snafu_to_decimal_spec. apply snafu_chars_alphabet.
  rewrite rev_reverse. by apply Forall_reverse.
Qed.

Lemma snafu_to_decimal_key_error (s : string) :
  Exists (λ c, c ∉ snafu_alphabet) (chars s) →
  Day25.snafu_to_decimal s = Raises KeyError.
Proof.
  intros (c & Hc & Hbad)%Exists_exists. unfold Day25.snafu_to_decimal.
  assert (c ∈ rev (chars s)) as Hrev.
  { rewrite rev_reverse. by apply elem_of_reverse. }
  destruct (enumerate_from_elem _ _ Hrev 0) as [j Hj].
  unfold enumerate.
  rewrite (py_map_raises _ KeyError _ (j, c) Hj); [done| |].
  - cbn beta iota. unfold dict_get.
    destruct (Day25.SNAFU_TO_DECIMAL_MAP !! c) eqn:Hlook; [|done].
    destruct Hbad. apply snafu_char_cases. eauto.
  - intros [i y] _. unfold dict_get.
    destruct (Day25.SNAFU_TO_DECIMAL_MAP !! y); cbn; eauto.
Qed.

(** X1: [snafu_to_decimal] returns the value of its digits when every
    character is one of the five SNAFU digits, and raises [KeyError] as
    soon as one is not. *)
Theorem snafu_to_decimal_outcome (s : string) :
  (Forall (λ c, c ∈ snafu_alphabet) (chars s)
   ∧ Day25.snafu_to_decimal s = Returns (snafu_value s))
  ∨ (Exists (λ c, c ∉ snafu_alphabet) (chars s)
     ∧ Day25.snafu_to_decimal s = Raises KeyError).
Proof.
  destruct (decide (Forall (λ c, c ∈ snafu_alphabet) (chars s))) as [Hall|Hsome].
  - left. split; [done|]. by apply snafu_to_decimal_value.
  - right. apply not_Forall_Exists in Hsome; [|solve_decision].
    split; [done|]. by apply snafu_to_decimal_key_error.
Qed.

(** X2: for a positive number [decimal_to_snafu] returns a non-empty
    string of SNAFU digits that starts with 1 or 2, so never with a
    zero or a negative digit. *)
Theorem decimal_to_snafu_canonical (n : Z) (fuel : nat) :
  0 < n → (Z.to_nat n <= fuel)%nat →
  ∃ (c : ascii) (rest : string),
    Day25.decimal_to_snafu fuel n 5 = Returns (String c rest)
    ∧ (c = "1"%char ∨ c = "2"%char)
    ∧ Forall (λ c, c ∈ snafu_alphabet) (chars rest).
Proof.
  intros Hn Hfuel.
  destruct (decimal_to_snafu_digits n fuel Hn Hfuel)
    as (out & Hrun & Hout & _ & Hlast).
  assert (∃ c, last out = Some c ∧ (c = "1"%char ∨ c = "2"%char))
    as (c & Hc & Hcases) by (destruct Hlast; eauto).
  apply last_Some in Hc as [out' ->].
  exists c, (str_of (rev out')). split; [|split; [done|]].
  - rewrite Hrun, rev_app_distr. reflexivity.
  - rewrite chars_str_of. apply snafu_chars_alphabet in Hout.
    apply Forall_app in Hout as [Hout _].
    rewrite rev_reverse. by apply Forall_reverse.
Qed.

Lemma decimal_to_snafu_canonical_witness :
  ∃ (c : ascii) (rest : string),
    Day25.decimal_to_snafu 8 8 5 = Returns (String c rest)
    ∧ (c = "1"%char ∨ c = "2"%char)
    ∧ Forall (λ c, c ∈ snafu_alphabet) (chars rest).
Proof. apply (decimal_to_snafu_canonical 8 8); lia. Defined.

(** X3: the other round trip.  A string of SNAFU digits that starts with
    1 or 2 is what [decimal_to_snafu] returns for its value: such strings
    and the positive integers correspond one to one. *)
Theorem snafu_canonical_roundtrip (c : ascii) (rest : string) (n : Z)
    (fuel : nat) :
  c = "1"%char ∨ c = "2"%char →
  Day25.snafu_to_decimal (String c rest) = Returns n →
  (Z.to_nat n <= fuel)%nat →
  0 < n ∧ Day25.decimal_to_snafu fuel n 5 = Returns (String c rest).
Proof.
  intros Hc Hback Hfuel.
  destruct (decide (Forall (λ c, c ∈ snafu_alphabet) (chars (String c rest))))
    as [Hall|Hsome].
  2: { apply not_Forall_Exists in Hsome; [|solve_decision].
       apply snafu_to_decimal_key_error in Hsome. congruence. }
  pose proof (snafu_to_decimal_value _ Hall) as Hrun.
  rewrite Hrun in Hback. injection Hback as <-.
  set (digits := rev (chars (String c rest))) in *.
  assert (snafu_chars digits) as Hdigits.
  { apply snafu_chars_alphabet. unfold digits. rewrite rev_reverse.
    by apply Forall_reverse. }
  assert (last digits = Some c) as Hlast.
  { unfold digits. cbn [chars list_ascii_of_string rev]. by rewrite last_snoc. }
  assert (0 < sval c) as Hpos by (destruct Hc as [-> | ->]; by vm_compute).
  assert (0 < snafu_value (String c rest)) as Hn.
  { unfold snafu_value. fold digits.
    apply (balanced_value_positive _ (sval c)); [by apply map_sval_balanced| |done].
    by rewrite last_map_list, Hlast. }
  split; [done|].
  destruct (decimal_to_snafu_digits _ fuel Hn Hfuel)
    as (out & Hsnafu & Hout & Hval & Hend).
  rewrite Hsnafu. f_equal.
  assert (out = digits) as ->.
  { apply map_sval_inj; [done|done|].
    apply balanced_unique; try by apply map_sval_balanced.
    - unfold no_leading_zero. rewrite last_map_list.
      destruct Hend as [-> | ->]; by vm_compute.
    - unfold no_leading_zero. rewrite last_map_list, Hlast.
      destruct Hc as [-> | ->]; by vm_compute.
    - done. }
  unfold digits. rewrite rev_involutive. apply str_of_chars.
Qed.

Lemma snafu_canonical_roundtrip_witness :
  0 < 2022
  ∧ Day25.decimal_to_snafu 2022 2022 5 = Returns (String "1" "=11-2").
Proof.
  apply (snafu_canonical_roundtrip "1" "=11-2" 2022 2022);
    [by left|reflexivity|lia].
Defined.

Lemma decimal_to_base_loop_negative (fuel : nat) :
  ∀ (n base : Z) (digits : list string),
    n < 0 → 0 < base →
    Day25.decimal_to_base_loop fuel n base digits = OutOfFuel.
Proof.
  induction fuel as [|fuel IH]; intros n base digits Hn Hbase; cbn.
  - destruct (Z.eqb_spec n 0); [lia|done].
  - destruct (Z.eqb_spec n 0); [lia|].
    destruct (Z.eqb_spec base 0); [lia|].
    apply IH; [|done]. apply Z.div_lt_upper_bound; lia.
Qed.

(** X4: a negative number never leaves the loop of [decimal_to_base]:
    floor division by a positive base keeps it negative.  So, whatever the
    number of iterations allowed, neither [decimal_to_base] nor
    [decimal_to_snafu] has returned. *)
Theorem negative_number_never_converts (n base : Z) (fuel : nat) :
  n < 0 → 0 < base →
  Day25.decimal_to_base fuel n base = OutOfFuel
  ∧ Day25.decimal_to_snafu fuel n base = OutOfFuel.
Proof.
  intros Hn Hbase. unfold Day25.decimal_to_snafu, Day25.decimal_to_base.
  by rewrite decimal_to_base_loop_negative.
Qed.

Lemma negative_number_never_converts_witness :
  Day25.decimal_to_base 100 (-1) 5 = OutOfFuel
  ∧ Day25.decimal_to_snafu 100 (-1) 5 = OutOfFuel.
Proof. apply (negative_number_never_converts (-1) 5 100); lia. Defined.

(** X5: [part_1] adds up the values of the lines of its file, each line
    stripped, and returns the sum as a SNAFU number: when every line is
    made of SNAFU digits and the sum is not negative, what it returns
    converts back to the sum. *)
Theorem part_1_adds_up (fuel : nat) (fs : filesystem) (filepath : path)
    (text : string) (total : Z) :
  fs filepath = Some text →
  Forall (λ line, Forall (λ c, c ∈ snafu_alphabet) (chars (strip line)))
    (file_lines text) →
  total = py_sum (map (λ line, snafu_value (strip line)) (file_lines text)) →
  0 <= total → (Z.to_nat total <= fuel)%nat →
  ∃ s, Day25.part_1 fuel fs filepath = Returns s
       ∧ Day25.snafu_to_decimal s = Returns total.
Proof.
  intros Hfile Hlines -> Htotal Hfuel.
  unfold Day25.part_1, Day25.parse_inputs, read_file. rewrite Hfile.
  cbn [mbind outcome_bind].
  assert (py_map Day25.snafu_to_decimal (map strip (file_lines text))
          = Returns (map (λ line, snafu_value (strip line)) (file_lines text)))
    as ->.
  { clear Htotal Hfuel.
    induction Hlines as [|line lines Hline Hlines IH]; [done|].
    cbn [map py_map]. rewrite (snafu_to_decimal_value _ Hline), IH. done. }
  cbn [mbind outcome_bind].
  set (total := py_sum _) in *.
  destruct (decide (total = 0)) as [->|Hpositive].
  - exists ""%string. by rewrite decimal_to_snafu_zero.
  - destruct (decimal_to_snafu_digits total fuel ltac:(lia) Hfuel)
      as (out & -> & Hout & Hval & _).
    eexists. split; [done|]. by rewrite snafu_to_decimal_spec, Hval.
Qed.

Lemma part_1_adds_up_witness :
  ∃ s, Day25.part_1 20 (λ _, Some (text_line "1=" +:+ text_line "2-"
                                   +:+ text_line " 12 "))
         my_file = Returns s
       ∧ Day25.snafu_to_decimal s = Returns 19.
Proof.
  apply (part_1_adds_up 20 _ my_file
           (text_line "1=" +:+ text_line "2-" +:+ text_line " 12 ") 19).
  - reflexivity.
  - apply (bool_decide_unpack _). by vm_compute.
  - reflexivity.
  - lia.
  - lia.
Defined.

(** ** Day 13: the comparison always answers *)

Lemma packet_size_cons (x : Day13.item) (l : list Day13.item) :
  packet_size (Day13.List (x :: l))
  = (packet_size x + packet_size (Day13.List l))%nat.
Proof. cbn [packet_size map]. unfold list_sum. cbn [fold_right]. lia. Qed.

Lemma packet_size_positive (x : Day13.item) : (1 <= packet_size x)%nat.
Proof. destruct x; cbn [packet_size]; lia. Qed.

(** Comparing with an empty list on the left takes one call. *)
Lemma compare_empty_left (fuel : nat) (l : list Day13.item) :
  Day13.pairwise_comparison (S fuel) (Day13.List []) (Day13.List l) = Returns 1.
Proof. by destruct l. Qed.

Lemma compare_empty_right (fuel : nat) (l : list Day13.item) :
  ∃ c, Day13.pairwise_comparison (S fuel) (Day13.List l) (Day13.List [])
       = Returns c ∧ (c = -1 ∨ c = 1).
Proof. destruct l; cbn; eauto. Qed.

Lemma pairwise_comparison_answers (n : nat) :
  ∀ (l r : Day13.item) (fuel : nat),
    (packet_size l + packet_size r <= n)%nat → (2 * n <= fuel)%nat →
    ∃ c, Day13.pairwise_comparison fuel l r = Returns c
         ∧ (c = -1 ∨ c = 0 ∨ c = 1).
Proof.
  induction n as [|n IH]; intros l r fuel Hsize Hfuel.
  { pose proof (packet_size_positive l). lia. }
  destruct fuel as [|[|fuel]]; [lia|lia|].
  assert (2 * n <= fuel)%nat as Hfuel' by lia.
  destruct l as [a|[|x xs]], r as [b|[|y ys]];
    try (cbn; eauto; fail).
  - (* two integers *)
    cbn. destruct (a <? b); [eauto|]. destruct (a >? b); eauto.
  - (* an integer on the left *)
    change (Day13.pairwise_comparison (S (S fuel)) (Day13.Int a)
              (Day13.List (y :: ys)))
      with (Day13.pairwise_comparison (S fuel) (Day13.List [Day13.Int a])
              (Day13.List (y :: ys))).
    rewrite packet_size_cons in Hsize.
    pose proof (packet_size_positive (Day13.List ys)).
    assert (∃ fuel', fuel = S fuel') as [fuel' ->].
    { pose proof (packet_size_positive y). destruct fuel; [lia|eauto]. }
    destruct (IH (Day13.Int a) y (S fuel')) as (c & Hc & Hcases);
      [cbn [packet_size] in *; lia|lia|].
    change (Day13.pairwise_comparison (S (S fuel')) (Day13.List [Day13.Int a])
              (Day13.List (y :: ys)))
      with (element_comparison ←
              Day13.pairwise_comparison (S fuel') (Day13.Int a) y;
            if negb (element_comparison =? 0) then Returns element_comparison
            else Day13.pairwise_comparison (S fuel') (Day13.List [])
                   (Day13.List ys)).
    rewrite Hc. cbn [mbind outcome_bind].
    destruct (negb (c =? 0)); [eauto|].
    rewrite compare_empty_left. eauto.
  - (* an integer on the right *)
    change (Day13.pairwise_comparison (S (S fuel)) (Day13.List (x :: xs))
              (Day13.Int b))
      with (Day13.pairwise_comparison (S fuel) (Day13.List (x :: xs))
              (Day13.List [Day13.Int b])).
    rewrite packet_size_cons in Hsize.
    pose proof (packet_size_positive (Day13.List xs)).
    assert (∃ fuel', fuel = S fuel') as [fuel' ->].
    { pose proof (packet_size_positive x). destruct fuel; [lia|eauto]. }
    destruct (IH x (Day13.Int b) (S fuel')) as (c & Hc & Hcases);
      [cbn [packet_size] in *; lia|lia|].
    change (Day13.pairwise_comparison (S (S fuel')) (Day13.List (x :: xs))
              (Day13.List [Day13.Int b]))
      with (if Day13.is_empty_list x && Day13.is_empty_list (Day13.Int b)
            then
              if Day13.is_empty_list (Day13.List xs)
                 && Day13.is_empty_list (Day13.List [])
              then Returns 1
              else Day13.pairwise_comparison (S fuel') (Day13.List xs)
                     (Day13.List [])
            else
              element_comparison ←
                Day13.pairwise_comparison (S fuel') x (Day13.Int b);
              if negb (element_comparison =? 0) then Returns element_comparison
              else Day13.pairwise_comparison (S fuel') (Day13.List xs)
                     (Day13.List [])).
    cbn [Day13.is_empty_list]. rewrite andb_false_r, Hc. cbn [mbind outcome_bind].
    destruct (negb (c =? 0)); [eauto|].
    destruct (compare_empty_right fuel' xs) as (c' & -> & [-> | ->]); eauto.
  - (* two non-empty lists *)
    rewrite !packet_size_cons in Hsize.
    pose proof (packet_size_positive x). pose proof (packet_size_positive y).
    pose proof (packet_size_positive (Day13.List xs)).
    pose proof (packet_size_positive (Day13.List ys)).
    destruct (IH (Day13.List xs) (Day13.List ys) (S fuel))
      as (ct & Hct & Htails); [lia|lia|].
    destruct (IH x y (S fuel)) as (c & Hc & Hcases); [lia|lia|].
    change (Day13.pairwise_comparison (S (S fuel)) (Day13.List (x :: xs))
              (Day13.List (y :: ys)))
      with (if Day13.is_empty_list x && Day13.is_empty_list y
            then
              if Day13.is_empty_list (Day13.List xs)
                 && Day13.is_empty_list (Day13.List ys)
              then Returns 1
              else Day13.pairwise_comparison (S fuel) (Day13.List xs)
                     (Day13.List ys)
            else
              element_comparison ← Day13.pairwise_comparison (S fuel) x y;
              if negb (element_comparison =? 0) then Returns element_comparison
              else Day13.pairwise_comparison (S fuel) (Day13.List xs)
                     (Day13.List ys)).
    rewrite Hct, Hc. cbn [mbind outcome_bind].
    destruct (_ && _); [destruct (_ && _); eauto|].
    destruct (negb (c =? 0)); eauto.
Qed.

(** X6: [pairwise_comparison] terminates on every pair of packet items
    and answers -1, 0 or 1: it never raises, and in particular the
    unpacking of a list into its first element and its tail is never
    reached with an empty list.  Twice the number of integers and brackets
    of the two items bounds the depth of the recursion. *)
Theorem pairwise_comparison_total (left_item right_item : Day13.item)
    (extra : nat) :
  ∃ c,
    Day13.pairwise_comparison
      (2 * (packet_size left_item + packet_size right_item) + extra)
      left_item right_item = Returns c
    ∧ (c = -1 ∨ c = 0 ∨ c = 1).
Proof.
  apply (pairwise_comparison_answers
           (packet_size left_item + packet_size right_item)); lia.
Qed.

Lemma pairwise_comparison_zero (fuel : nat) :
  ∀ l r, Day13.pairwise_comparison fuel l r = Returns 0 →
         ∃ n, l = Day13.Int n ∧ r = Day13.Int n.
Proof.
  induction fuel as [|fuel IH]; intros l r Hrun; [done|].
  destruct l as [a|[|x xs]], r as [b|[|y ys]]; try (cbn in Hrun; congruence).
  - cbn in Hrun. destruct (Z.ltb_spec a b); [congruence|].
    destruct (Z.gtb_spec a b); [congruence|]. exists a. split; [done|].
    f_equal. lia.
  - apply IH in Hrun as (n & [=] & _).
  - apply IH in Hrun as (n & _ & [=]).
  - change (Day13.pairwise_comparison (S fuel) (Day13.List (x :: xs))
              (Day13.List (y :: ys)))
      with (if Day13.is_empty_list x && Day13.is_empty_list y
            then
              if Day13.is_empty_list (Day13.List xs)
                 && Day13.is_empty_list (Day13.List ys)
              then Returns 1
              else Day13.pairwise_comparison fuel (Day13.List xs)
                     (Day13.List ys)
            else
              element_comparison ← Day13.pairwise_comparison fuel x y;
              if negb (element_comparison =? 0) then Returns element_comparison
              else Day13.pairwise_comparison fuel (Day13.List xs)
                     (Day13.List ys)) in Hrun.
    destruct (_ && _).
    + destruct (_ && _); [congruence|].
      apply IH in Hrun as (n & [=] & _).
    + destruct (Day13.pairwise_comparison fuel x y) as [c| |];
        cbn [mbind outcome_bind] in Hrun; try congruence.
      destruct (Z.eqb_spec c 0); cbn [negb] in Hrun; [|congruence].
      apply IH in Hrun as (n & [=] & _).
Qed.

(** X7: the answer 0 ("the items compare equally") is given for two equal
    integers and for nothing else.  Two equal lists get the answer 1, as
    does every pair of lists that [is_pair_sorted] accepts. *)
Theorem zero_only_for_equal_integers (fuel : nat)
    (left_item right_item : Day13.item) :
  Day13.pairwise_comparison fuel left_item right_item = Returns 0
  ↔ (0 < fuel)%nat
    ∧ ∃ n, left_item = Day13.Int n ∧ right_item = Day13.Int n.
Proof.
  split.
  - intros Hrun. split; [destruct fuel; [done|lia]|].
    by apply (pairwise_comparison_zero fuel).
  - intros [Hfuel (n & -> & ->)]. destruct fuel as [|fuel]; [lia|].
    cbn. rewrite Z.ltb_irrefl.
    destruct (Z.gtb_spec n n); [lia|done].
Qed.

(** X8: when the left item compares as larger than the right one, the
    right one compares as smaller than the left one. *)
Theorem larger_one_way_smaller_the_other (fuel : nat) :
  ∀ left_item right_item,
    Day13.pairwise_comparison fuel left_item right_item = Returns (-1) →
    Day13.pairwise_comparison fuel right_item left_item = Returns 1.
Proof.
  induction fuel as [|fuel IH]; intros l r Hrun; [done|].
  destruct l as [a|[|x xs]], r as [b|[|y ys]];
    try (cbn in Hrun; congruence); try (cbn; congruence).
  - cbn in Hrun |- *. destruct (Z.ltb_spec a b); [congruence|].
    destruct (Z.gtb_spec a b); [|congruence].
    destruct (Z.ltb_spec b a); [done|lia].
  - apply IH in Hrun. exact Hrun.
  - apply IH in Hrun. exact Hrun.
  - change (Day13.pairwise_comparison (S fuel) (Day13.List (x :: xs))
              (Day13.List (y :: ys)))
      with (if Day13.is_empty_list x && Day13.is_empty_list y
            then
              if Day13.is_empty_list (Day13.List xs)
                 && Day13.is_empty_list (Day13.List ys)
              then Returns 1
              else Day13.pairwise_comparison fuel (Day13.List xs)
                     (Day13.List ys)
            else
              element_comparison ← Day13.pairwise_comparison fuel x y;
              if negb (element_comparison =? 0) then Returns element_comparison
              else Day13.pairwise_comparison fuel (Day13.List xs)
                     (Day13.List ys)) in Hrun.
    change (Day13.pairwise_comparison (S fuel) (Day13.List (y :: ys))
              (Day13.List (x :: xs)))
      with (if Day13.is_empty_list y && Day13.is_empty_list x
            then
              if Day13.is_empty_list (Day13.List ys)
                 && Day13.is_empty_list (Day13.List xs)
              then Returns 1
              else Day13.pairwise_comparison fuel (Day13.List ys)
                     (Day13.List xs)
            else
              element_comparison ← Day13.pairwise_comparison fuel y x;
              if negb (element_comparison =? 0) then Returns element_comparison
              else Day13.pairwise_comparison fuel (Day13.List ys)
                     (Day13.List xs)).
    rewrite (andb_comm (Day13.is_empty_list y)).
    rewrite (andb_comm (Day13.is_empty_list (Day13.List ys))).
    destruct (_ && _).
    + destruct (_ && _); [congruence|]. by apply IH.
    + destruct (Day13.pairwise_comparison fuel x y) as [c| |] eqn:Hc;
        cbn [mbind outcome_bind] in Hrun; try congruence.
      destruct (Z.eqb_spec c 0) as [->|Hnz]; cbn [negb] in Hrun.
      * apply pairwise_comparison_zero in Hc as (n & -> & ->).
        destruct fuel as [|fuel']; [done|].
        assert (Day13.pairwise_comparison (S fuel') (Day13.Int n) (Day13.Int n)
                = Returns 0) as ->.
        { cbn. rewrite Z.ltb_irrefl. by destruct (Z.gtb_spec n n); [lia|]. }
        cbn [mbind outcome_bind Z.eqb negb]. by apply IH.
      * injection Hrun as ->. apply IH in Hc. by rewrite Hc.
Qed.

Lemma larger_one_way_smaller_the_other_witness :
  Day13.pairwise_comparison 4
    (Day13.List [Day13.Int 2]) (Day13.List [Day13.List [Day13.Int 3]])
  = Returns 1.
Proof.
  apply (larger_one_way_smaller_the_other 4
           (Day13.List [Day13.List [Day13.Int 3]]) (Day13.List [Day13.Int 2])).
  reflexivity.
Defined.

(** X9: on two lists of integers the comparison is the lexicographic one:
    the first difference decides, and a list that runs out first, or
    together with the other, compares as smaller. *)
Theorem flat_lists_compare_lexicographically (xs : list Z) :
  ∀ (ys : list Z) (extra : nat),
    Day13.pairwise_comparison (S (length xs + extra))
      (Day13.List (map Day13.Int xs)) (Day13.List (map Day13.Int ys))
    = Returns (compare_flat xs ys).
Proof.
  induction xs as [|x xs IH]; intros ys extra.
  - cbn [map]. by rewrite compare_empty_left.
  - destruct ys as [|y ys]; [done|].
    cbn [map length Nat.add compare_flat].
    change (Day13.pairwise_comparison (S (S (length xs + extra)))
              (Day13.List (Day13.Int x :: map Day13.Int xs))
              (Day13.List (Day13.Int y :: map Day13.Int ys)))
      with (element_comparison ←
              Day13.pairwise_comparison (S (length xs + extra))
                (Day13.Int x) (Day13.Int y);
            if negb (element_comparison =? 0) then Returns element_comparison
            else Day13.pairwise_comparison (S (length xs + extra))
                   (Day13.List (map Day13.Int xs))
                   (Day13.List (map Day13.Int ys))).
    rewrite IH. cbn.
    destruct (x <? y); [done|]. by destruct (x >? y).
Qed.

(** ** Day 12: the start and the goal of part 1 *)

Lemma py_index_outcome {A} (l : list A) (i : Z) :
  (∃ x, py_index l i = Returns x) ∨ py_index l i = Raises IndexError.
Proof.
  unfold py_index. destruct (_ && _); [|by right].
  destruct (l !! _); eauto.
Qed.

Lemma py_index_beyond {A} (l : list A) (i : Z) :
  Z.of_nat (length l) <= i → py_index l i = Raises IndexError.
Proof.
  intros Hi. unfold py_index.
  destruct (Z.ltb_spec i (Z.of_nat (length l))); [lia|].
  by rewrite andb_false_r.
Qed.

Lemma py_filter_raises {A} (f : A → outcome bool) (e : exn) (l : list A) (x : A) :
  x ∈ l →
  f x = Raises e →
  (∀ y, y ∈ l → (∃ b, f y = Returns b) ∨ f y = Raises e) →
  py_filter f l = Raises e.
Proof.
  induction l as [|y l IH]; intros Hx Hfx Hall; [by apply elem_of_nil in Hx|].
  cbn [py_filter]. destruct (Hall y ltac:(left)) as [[b Hb]|Hy].
  - rewrite Hb. cbn [mbind outcome_bind].
    apply elem_of_cons in Hx as [->|Hx]; [congruence|].
    rewrite IH; [done|done|done|]. intros z Hz. apply Hall. by right.
  - by rewrite Hy.
Qed.

Lemma elem_of_cells (rows cols : nat) (p : Z * Z) :
  p ∈ (row_index ← py_range rows; column_index ← py_range cols;
       [(row_index, column_index)])
  ↔ 0 <= p.1 < Z.of_nat rows ∧ 0 <= p.2 < Z.of_nat cols.
Proof.
  destruct p as [r c]. rewrite list_elem_of_bind.
  setoid_rewrite list_elem_of_bind. setoid_rewrite elem_of_py_range.
  setoid_rewrite list_elem_of_singleton. cbn [fst snd]. split.
  - intros (r' & (c' & [= -> ->] & Hc) & Hr). done.
  - intros [Hr Hc]. exists r. split; [|done]. exists c. done.
Qed.

Lemma NoDup_py_range (n : nat) : NoDup (py_range n).
Proof.
  unfold py_range. apply (NoDup_fmap_2 Z.of_nat), NoDup_seq.
Qed.

Lemma NoDup_cells (rows cols : nat) :
  NoDup (row_index ← py_range rows; column_index ← py_range cols;
         [(row_index, column_index)]).
Proof.
  apply NoDup_bind; [| |apply NoDup_py_range].
  - intros r1 r2 [r c] _ _.
    rewrite !list_elem_of_bind. setoid_rewrite list_elem_of_singleton.
    intros (? & [= -> ->] & _) (? & [= -> ->] & _). done.
  - intros r _. apply NoDup_bind; [| |apply NoDup_py_range].
    + intros c1 c2 p _ _. rewrite !list_elem_of_singleton. congruence.
    + intros c _. apply NoDup_singleton.
Qed.

(** The positions of a letter on a rectangular heightmap: every cell that
    holds it, once. *)
Lemma positions_listing (heightmap : list string) (letter : ascii) (q : Z * Z) :
  rectangular heightmap → in_bounds heightmap q →
  ∃ ps, Day12.positions_with_elevation_letter heightmap letter = Returns ps
        ∧ NoDup ps
        ∧ ∀ p, p ∈ ps ↔ in_bounds heightmap p ∧ letter_is heightmap p letter.
Proof.
  intros Hrect Hq. unfold Day12.positions_with_elevation_letter.
  destruct (first_row_columns heightmap q Hq) as (row0 & -> & Hcols).
  cbn [mbind outcome_bind]. rewrite Hcols.
  set (all := _ ≫= _).
  assert (Hall : ∀ p, p ∈ all ↔ in_bounds heightmap p).
  { intros p. unfold all. by rewrite elem_of_cells. }
  set (g := λ p : Z * Z,
         match cell (map chars heightmap) p with
         | Some l => Ascii.eqb l letter
         | None => false
         end).
  exists (List.filter g all). split; [|split].
  - apply py_filter_pure. intros [r c] Hp%Hall.
    destruct (letter_at_cell heightmap Hrect r c Hp) as (l & Hcell & ->).
    cbn [mbind outcome_bind]. unfold g. by rewrite Hcell.
  - apply NoDup_ListNoDup, List.NoDup_filter, NoDup_ListNoDup, NoDup_cells.
  - intros p. rewrite list_elem_of_In, filter_In, <- list_elem_of_In, Hall.
    unfold letter_is, g. split.
    + intros [Hp Hl]. split; [done|].
      destruct (cell (map chars heightmap) p) as [l|]; [|done].
      by apply Ascii.eqb_eq in Hl as ->.
    + intros [Hp ->]. split; [done|]. apply Ascii.eqb_refl.
Qed.

Lemma NoDup_only {A} (l : list A) (a : A) :
  NoDup l → (∀ x, x ∈ l ↔ x = a) → l = [a].
Proof.
  intros Hnodup Hl. destruct l as [|x l].
  - assert (a ∈ @nil A) as Ha by by apply Hl. by apply elem_of_nil in Ha.
  - assert (x = a) as -> by (apply Hl; by left).
    destruct l as [|y l]; [done|].
    assert (y = a) as -> by (apply Hl; right; by left).
    apply NoDup_cons in Hnodup as [Hnot _]. destruct Hnot. by left.
Qed.

Lemma positions_only_cell (heightmap : list string) (letter : ascii) (p : Z * Z) :
  rectangular heightmap →
  only_cell heightmap letter p ↔
  in_bounds heightmap p
  ∧ Day12.positions_with_elevation_letter heightmap letter = Returns [p].
Proof.
  intros Hrect. split.
  - intros (Hp & Hletter & Honly). split; [done|].
    destruct (positions_listing heightmap letter p Hrect Hp)
      as (ps & -> & Hnodup & Hps).
    f_equal. apply NoDup_only; [done|]. intros x. rewrite Hps. split.
    + intros [? ?]. by apply Honly.
    + by intros ->.
  - intros [Hp Hrun].
    destruct (positions_listing heightmap letter p Hrect Hp)
      as (ps & Hps & _ & Hin).
    rewrite Hrun in Hps. injection Hps as <-.
    destruct (proj1 (Hin p) ltac:(by left)) as [_ Hletter].
    split; [done|]. split; [done|]. intros q Hq Hq'.
    by apply list_elem_of_singleton, Hin.
Qed.

(** X10: on a rectangular heightmap [positions_with_elevation_letter] lists
    every cell that holds the letter, each one once. *)
Theorem positions_listed_once (heightmap : list string) (letter : ascii)
    (q : Z * Z) :
  rectangular heightmap → in_bounds heightmap q →
  ∃ ps, Day12.positions_with_elevation_letter heightmap letter = Returns ps
        ∧ NoDup ps
        ∧ ∀ p, p ∈ ps ↔ in_bounds heightmap p ∧ letter_is heightmap p letter.
Proof. apply positions_listing. Qed.

Lemma positions_listed_once_witness :
  ∃ ps, Day12.positions_with_elevation_letter ["ab"; "ca"] "a" = Returns ps
        ∧ NoDup ps
        ∧ ∀ p, p ∈ ps ↔ in_bounds ["ab"; "ca"] p ∧ letter_is ["ab"; "ca"] p "a".
Proof.
  apply (positions_listed_once ["ab"; "ca"] "a" (0, 0)).
  - repeat constructor.
  - split; simpl; lia.
Defined.

(** X11: when the file at the default path is a rectangular heightmap with
    exactly one 'S' and exactly one 'E', [part_1] returns the least number
    of steps of a walk from the 'S' to the 'E', and [math.inf] when there is
    no such walk. *)
Theorem part_1_shortest_walk (fuel : nat) (fs : filesystem)
    (script_file filepath : path) (heightmap : list string)
    (start goal : Z * Z) :
  Day12.get_heightmap fs (Day12.default_filepath script_file)
    = Returns heightmap →
  rectangular heightmap →
  only_cell heightmap "S" start →
  only_cell heightmap "E" goal →
  (length heightmap * num_columns heightmap <= fuel)%nat →
  ∃ r, Day12.part_1 fuel fs script_file filepath = Returns r
       ∧ shortest heightmap start goal r.
Proof.
  intros Hmap Hrect Hstart Hgoal Hfuel. unfold Day12.part_1.
  rewrite Hmap. cbn [mbind outcome_bind].
  apply positions_only_cell in Hstart as [Hstart ->]; [|done].
  apply positions_only_cell in Hgoal as [Hgoal ->]; [|done].
  cbn [mbind outcome_bind unpack_single].
  by apply search_correct.
Qed.

Lemma part_1_shortest_walk_witness :
  ∃ r, Day12.part_1 2 (λ _, Some "SE") day12_script my_file = Returns r
       ∧ shortest ["SE"] (0, 0) (0, 1) r.
Proof.
  apply (part_1_shortest_walk 2 (λ _, Some "SE") day12_script my_file
           ["SE"] (0, 0) (0, 1)).
  - reflexivity.
  - repeat constructor.
  - split; [split; simpl; lia|]. split; [reflexivity|].
    intros [r c] [Hr Hc] Hletter. cbn in Hr, Hc.
    assert (r = 0) as -> by lia.
    assert (c = 0 ∨ c = 1) as [-> | ->] by lia; [done|discriminate Hletter].
  - split; [split; simpl; lia|]. split; [reflexivity|].
    intros [r c] [Hr Hc] Hletter. cbn in Hr, Hc.
    assert (r = 0) as -> by lia.
    assert (c = 0 ∨ c = 1) as [-> | ->] by lia; [discriminate Hletter|done].
  - simpl. lia.
Defined.

(** X12: [part_1] raises [ValueError] when the heightmap does not have
    exactly one 'S', or not exactly one 'E': the unpacking of the list of
    positions into one position fails. *)
Theorem part_1_without_single_start_or_goal (fuel : nat) (fs : filesystem)
    (script_file filepath : path) (heightmap : list string) (q : Z * Z) :
  Day12.get_heightmap fs (Day12.default_filepath script_file)
    = Returns heightmap →
  rectangular heightmap →
  in_bounds heightmap q →
  (¬ ∃ start, only_cell heightmap "S" start)
  ∨ (¬ ∃ goal, only_cell heightmap "E" goal) →
  Day12.part_1 fuel fs script_file filepath = Raises ValueError.
Proof.
  intros Hmap Hrect Hq Hnone. unfold Day12.part_1.
  rewrite Hmap. cbn [mbind outcome_bind].
  destruct (positions_listing heightmap "S" q Hrect Hq)
    as (starts & Hstarts & _ & Hin).
  destruct (positions_listing heightmap "E" q Hrect Hq)
    as (goals & Hgoals & _ & Hin').
  rewrite Hstarts. cbn [mbind outcome_bind].
  destruct starts as [|start [|? ?]]; [done| |done].
  cbn [unpack_single mbind outcome_bind]. rewrite Hgoals.
  cbn [mbind outcome_bind].
  destruct goals as [|goal [|? ?]]; [done| |done].
  exfalso. destruct Hnone as [Hnone|Hnone]; apply Hnone.
  - exists start. apply positions_only_cell; [done|]. split; [|done].
    apply Hin. by left.
  - exists goal. apply positions_only_cell; [done|]. split; [|done].
    apply Hin'. by left.
Qed.

Lemma part_1_without_single_start_or_goal_witness :
  Day12.part_1 2 (λ _, Some "SS") day12_script my_file = Raises ValueError.
Proof.
  apply (part_1_without_single_start_or_goal 2 (λ _, Some "SS") day12_script
           my_file ["SS"] (0, 0)).
  - reflexivity.
  - repeat constructor.
  - split; simpl; lia.
  - left. intros [start (_ & _ & Honly)].
    assert ((0, 0) = start) as <- by (apply Honly; [split; simpl; lia|done]).
    assert ((0, 1) = (0, 0)) as [=] by (apply Honly; [split; simpl; lia|done]).
Defined.

Lemma short_row_positions (heightmap : list string) (letter : ascii) :
  short_row heightmap →
  Day12.positions_with_elevation_letter heightmap letter = Raises IndexError.
Proof.
  intros [->|(i & row & Hrow & Hshort)]; [done|].
  unfold Day12.positions_with_elevation_letter.
  destruct heightmap as [|first rest]; [done|].
  change (py_index (first :: rest) 0) with (Returns (A:=string) first).
  cbn [mbind outcome_bind]. cbn [num_columns] in Hshort.
  apply (py_filter_raises _ IndexError _
           (Z.of_nat i, Z.of_nat (length (chars row)))).
  - apply elem_of_cells. cbn [fst snd].
    apply lookup_lt_Some in Hrow. lia.
  - unfold Day12.letter_at.
    rewrite (py_index_lookup _ _ row); [|lia|by rewrite Nat2Z.id].
    cbn [mbind outcome_bind]. rewrite py_index_beyond; [done|lia].
  - intros [r c] _. unfold Day12.letter_at.
    destruct (py_index_outcome (first :: rest) r) as [[row' ->]| ->]; [|by right].
    cbn [mbind outcome_bind].
    destruct (py_index_outcome (chars row') c) as [[l ->]| ->]; [|by right].
    cbn [mbind outcome_bind]. eauto.
Qed.

(** X13: when the file at the default path has no line at all, or a line
    shorter than its first line, both parts raise [IndexError]: the
    positions of a letter are looked up over the width of the first
    line. *)
Theorem short_row_raises_index_error (fuel : nat) (fs : filesystem)
    (script_file filepath : path) (heightmap : list string) :
  Day12.get_heightmap fs (Day12.default_filepath script_file)
    = Returns heightmap →
  short_row heightmap →
  Day12.part_1 fuel fs script_file filepath = Raises IndexError
  ∧ Day12.part_2 fuel fs script_file filepath = Raises IndexError.
Proof.
  intros Hmap Hshort.
  unfold Day12.part_1, Day12.part_2, Day12.part_2_on. rewrite Hmap.
  cbn [mbind outcome_bind]. by rewrite !short_row_positions.
Qed.

Lemma short_row_raises_index_error_witness :
  Day12.part_1 9 (λ _, Some (text_line "SbE" +:+ text_line "cd"))
    day12_script my_file = Raises IndexError
  ∧ Day12.part_2 9 (λ _, Some (text_line "SbE" +:+ text_line "cd"))
      day12_script my_file = Raises IndexError.
Proof.
  apply (short_row_raises_index_error 9
           (λ _, Some (text_line "SbE" +:+ text_line "cd")) day12_script my_file
           ["SbE"; "cd"]).
  - reflexivity.
  - right. exists 1%nat, "cd". split; [reflexivity|simpl; lia].
Defined.

(** ** Day 12: a goal that is out of reach *)

Lemma walk_start_in_bounds (heightmap : list string) (p q : Z * Z) (n : nat) :
  walk heightmap p q n → in_bounds heightmap p.
Proof.
  induction 1 as [Hp|q r n _ IH _]; [exact Hp|exact IH].
Qed.

Lemma cliff_walled_in (q : Z * Z) (n : nat) :
  walk cliff (0, 0) q n → q = (0, 0).
Proof.
  induction 1 as [|q r n Hwalk IH Hstep]; [done|]. subst q.
  destruct Hstep as (_ & [Hr Hc] & Hadj & Hel). destruct r as [r c].
  unfold adjacent in Hadj. cbn in Hr, Hc, Hadj.
  assert (r = 0 ∧ c = 1) as [-> ->] by lia.
  vm_compute in Hel. by destruct Hel.
Qed.

Lemma ragged_goal_out_of_reach (q : Z * Z) (n : nat) :
  walk ragged (0, 0) q n → q ≠ (1, 0).
Proof.
  induction 1 as [|q r n Hwalk IH Hstep]; [done|]. intros ->.
  destruct Hstep as ([Hr Hc] & _ & Hadj & Hel). destruct q as [r c].
  unfold adjacent in Hadj. cbn in Hr, Hc, Hadj.
  assert ((r = 0 ∧ c = 0) ∨ (r = 1 ∧ c = 1)) as [[-> ->]|[-> ->]] by lia;
    vm_compute in Hel; by destruct Hel.
Qed.

(** Two searches for a goal that is within the grid and out of reach
    raise [IndexError]: from a start outside the grid, when the start's
    step count is written; and on a heightmap whose second row is shorter
    than the first, when the height of a cell that the short row lacks is
    looked up. *)
Lemma unreachable_goal_raises_index_error :
  (in_bounds slope (0, 1)
   ∧ (∀ m, ¬ walk slope (5, 5) (0, 1) m)
   ∧ Day12.breadth_first_height_search 2 slope (5, 5) (0, 1)
     = Raises IndexError)
  ∧ (in_bounds ragged (0, 0) ∧ in_bounds ragged (1, 0)
     ∧ (∀ m, ¬ walk ragged (0, 0) (1, 0) m)
     ∧ Day12.breadth_first_height_search 4 ragged (0, 0) (1, 0)
       = Raises IndexError).
Proof.
  split.
  - split; [split; cbn; lia|]. split; [|by vm_compute].
    intros m Hwalk. apply walk_start_in_bounds in Hwalk as [Hrow _].
    cbn in Hrow. lia.
  - split; [split; cbn; lia|]. split; [split; cbn; lia|].
    split; [|by vm_compute].
    intros m Hwalk. by apply ragged_goal_out_of_reach in Hwalk.
Qed.

(** C10, amended: on a rectangular heightmap, when the start and the goal
    are both within the grid and no walk under the elevation rule leads
    from the start to the goal, [breadth_first_height_search] returns
    [math.inf] and raises nothing; and when the heightmap has one 'E', at
    the goal, and some 'a' cell reaches it, [part_2] returns the least
    number of steps over the 'a' cells that reach the goal, whatever the
    'a' cells that do not. *)
Theorem unreachable_goal_is_inf
    (heightmap : list string) (goal : Z * Z) (fuel : nat) :
  rectangular heightmap →
  in_bounds heightmap goal →
  (length heightmap * num_columns heightmap <= fuel)%nat →
  (∀ start,
     in_bounds heightmap start →
     (∀ m, ¬ walk heightmap start goal m) →
     Day12.breadth_first_height_search fuel heightmap start goal
     = Returns Inf)
  ∧ (Day12.positions_with_elevation_letter heightmap "E" = Returns [goal] →
     (∃ start n, in_bounds heightmap start ∧ letter_is heightmap start "a"
                 ∧ walk heightmap start goal n) →
     ∃ d : nat,
       Day12.part_2_on fuel heightmap = Returns (Fin (Z.of_nat d))
       ∧ (∃ s, in_bounds heightmap s ∧ letter_is heightmap s "a"
               ∧ walk heightmap s goal d)
       ∧ ∀ s m, in_bounds heightmap s → letter_is heightmap s "a" →
                walk heightmap s goal m → (d <= m)%nat).
Proof.
  intros Hrect Hgoal Hfuel. split.
  - intros start Hstart Hnone.
    destruct (search_correct heightmap Hrect start Hstart fuel goal Hgoal Hfuel)
      as ([x|] & Hrun & Hshort); cbn in Hshort; [|done].
    destruct Hshort as (d & _ & Hd & _). by destruct (Hnone d).
  - intros HE (start & n & Hstart & Ha & Hwalk).
    unfold Day12.part_2_on.
    destruct (positions_with_elevation_letter_spec heightmap "a" goal Hrect Hgoal)
      as (starts & -> & Hstarts).
    cbn [mbind outcome_bind]. rewrite HE. cbn [mbind outcome_bind unpack_single].
    destruct (py_map_Forall2
                (λ s, Day12.breadth_first_height_search fuel heightmap s goal)
                (λ s r, shortest heightmap s goal r) starts)
      as (results & -> & Hres).
    { intros s [Hs _]%Hstarts. by apply search_correct. }
    cbn [mbind outcome_bind].
    assert (Hin : start ∈ starts) by by apply Hstarts.
    destruct (proj1 (list_elem_of_lookup _ _) Hin) as [i Hi].
    destruct (Forall2_lookup_l _ _ _ _ _ Hres Hi) as (r0 & Hr0 & Hshort0).
    destruct (py_min_spec results r0) as (m & -> & Hm & Hle).
    { by eapply list_elem_of_lookup_2. }
    assert (∃ x, m = Fin x) as [x ->].
    { destruct m as [x|]; [by exists x|].
      specialize (Hle r0 ltac:(by eapply list_elem_of_lookup_2)).
      destruct r0 as [y|]; [done|]. by destruct (Hshort0 n). }
    destruct (proj1 (list_elem_of_lookup _ _) Hm) as [j Hj].
    destruct (Forall2_lookup_r _ _ _ _ _ Hres Hj) as (s & Hs & Hshort).
    destruct Hshort as (d & -> & Hd & Hdmin).
    exists d. split; [done|]. split.
    + exists s. apply list_elem_of_lookup_2, Hstarts in Hs as [? ?]. done.
    + intros s' m' Hs' Ha' Hwalk'.
      assert (Hin' : s' ∈ starts) by by apply Hstarts.
      destruct (proj1 (list_elem_of_lookup _ _) Hin') as [k Hk].
      destruct (Forall2_lookup_l _ _ _ _ _ Hres Hk) as (r' & Hr' & Hshort').
      specialize (Hle r' ltac:(by eapply list_elem_of_lookup_2)).
      destruct r' as [y|]; [|by destruct (Hshort' m')].
      destruct Hshort' as (d' & -> & _ & Hmin').
      specialize (Hmin' m' Hwalk'). unfold num_le in Hle. cbn in Hle.
      apply Z.ltb_ge in Hle. lia.
Qed.

Lemma unreachable_goal_is_inf_witness :
  Day12.breadth_first_height_search 2 cliff (0, 0) (0, 1) = Returns Inf
  ∧ Day12.breadth_first_height_search 27 ridge (0, 26) (0, 25) = Returns Inf
  ∧ ∃ d : nat,
      Day12.part_2_on 27 ridge = Returns (Fin (Z.of_nat d))
      ∧ (∃ s, in_bounds ridge s ∧ letter_is ridge s "a" ∧ walk ridge s (0, 25) d)
      ∧ ∀ s m, in_bounds ridge s → letter_is ridge s "a" →
               walk ridge s (0, 25) m → (d <= m)%nat.
Proof.
  split.
  - apply (unreachable_goal_is_inf cliff (0, 1) 2).
    + repeat constructor.
    + split; cbn; lia.
    + cbn. lia.
    + split; cbn; lia.
    + intros m Hm. by apply cliff_walled_in in Hm.
  - destruct (unreachable_goal_is_inf ridge (0, 25) 27) as [Hinf Hmin].
    + repeat constructor.
    + split; cbn; lia.
    + cbn. lia.
    + split.
      * apply Hinf; [split; cbn; lia|].
        intros m Hm. by apply ridge_walled_in in Hm.
      * apply Hmin; [by vm_compute|].
        exists (0, 0), 25%nat. split; [split; cbn; lia|]. split; [reflexivity|].
        apply (ridge_walk 25). lia.
Defined.

(** ** Day 16: the visiting orders and the answers *)

Section Day16Orders.

Import Day16.

Variable set_iter : gset nat → list nat.

(** Iterating over a set gives elements of the set. *)
Hypothesis set_iter_sound : ∀ (X : gset nat) (v : nat), v ∈ set_iter X → v ∈ X.

Variable distances : nat → nat → Z.

Lemma visited_is_generated (n : nat) (start_valve : nat) (left : gset nat)
    (visited : list nat) (time_left : Z) :
  visited ∈ generate_visiting_orders set_iter n distances start_valve left
              visited time_left.
Proof.
  destruct n; cbn [generate_visiting_orders]; [by left|].
  apply elem_of_app. right. by left.
Qed.

Lemma generated_order_extends (n : nat) :
  ∀ (start_valve : nat) (left : gset nat) (visited : list nat)
    (time_left : Z) (o : list nat),
    o ∈ generate_visiting_orders set_iter n distances start_valve left
          visited time_left →
    ∃ ext, o = visited ++ ext
           ∧ NoDup ext
           ∧ (∀ v, v ∈ ext → v ∈ left)
           ∧ Forall (λ t, 0 < t) (clock distances start_valve time_left ext).
Proof.
  induction n as [|n IH]; intros start_valve left visited time_left o Ho.
  - cbn [generate_visiting_orders] in Ho.
    apply list_elem_of_singleton in Ho as ->. exists [].
    rewrite app_nil_r. repeat split; [constructor|by intros ? ?%elem_of_nil|constructor].
  - cbn [generate_visiting_orders] in Ho. apply elem_of_app in Ho as [Ho|Ho].
    + apply list_elem_of_In, in_flat_map in Ho as (v & Hv & Ho).
      apply list_elem_of_In, set_iter_sound in Hv.
      destruct (Z.ltb_spec (distances start_valve v + 1) time_left) as [Hfits|];
        [|by destruct Ho].
      apply list_elem_of_In, IH in Ho as (ext & -> & Hnodup & Hleft & Hclock).
      exists (v :: ext). rewrite <- app_assoc. split; [done|]. split; [|split].
      * apply NoDup_cons. split; [|done].
        intros [_ Hnot]%Hleft%elem_of_difference.
        apply Hnot. by apply elem_of_singleton.
      * intros w [->|Hw%Hleft%elem_of_difference]%elem_of_cons; [done|].
        by destruct Hw.
      * cbn [clock]. constructor; [lia|].
        by replace (time_left - distances start_valve v - 1)
             with (time_left - (distances start_valve v + 1)) by lia.
    + apply list_elem_of_singleton in Ho as ->. exists [].
      rewrite app_nil_r. repeat split; [constructor|by intros ? ?%elem_of_nil|constructor].
Qed.

(** X14: every visiting order that the generator yields visits valves of
    the set it was given, and no valve twice. *)
Theorem generated_orders_visit_each_valve_once (start_valve : nat)
    (relevant : gset nat) (time_left : Z) (visiting_order : list nat) :
  visiting_order ∈ recursively_generate_visiting_orders set_iter distances
                     start_valve relevant [] time_left →
  NoDup visiting_order ∧ ∀ v, v ∈ visiting_order → v ∈ relevant.
Proof.
  intros (ext & -> & Hnodup & Hin & _)%generated_order_extends. done.
Qed.

Lemma process_visiting_order_steps (valve_rates : list Z) (valve_order : list nat) :
  ∀ (released : Z) (current_valve : nat) (time_left : Z),
    Forall (λ t, 0 < t) (clock distances current_valve time_left valve_order) →
    Forall (λ v, 0 < rate_of valve_rates v) valve_order →
    released
    <= (fold_left
          (λ '(pressure_released, current_valve, time_left) next_valve,
             let travel_time := distances current_valve next_valve in
             let time_left := time_left - travel_time in
             let time_left := time_left - 1 in
             (pressure_released + time_left * rate_of valve_rates next_valve,
              next_valve, time_left))
          valve_order (released, current_valve, time_left)).1.1
    ∧ (valve_order ≠ [] →
       released
       < (fold_left
            (λ '(pressure_released, current_valve, time_left) next_valve,
               let travel_time := distances current_valve next_valve in
               let time_left := time_left - travel_time in
               let time_left := time_left - 1 in
               (pressure_released + time_left * rate_of valve_rates next_valve,
                next_valve, time_left))
            valve_order (released, current_valve, time_left)).1.1).
Proof.
  induction valve_order as [|v valve_order IH];
    intros released current_valve time_left Hclock Hrates.
  - cbn. split; [lia|done].
  - cbn [clock] in Hclock. inversion Hclock as [|? ? Ht Hclock']; subst.
    inversion Hrates as [|? ? Hv Hrates']; subst.
    cbn [fold_left].
    destruct (IH (released
                  + (time_left - distances current_valve v - 1)
                    * rate_of valve_rates v)
                 v (time_left - distances current_valve v - 1) Hclock' Hrates')
      as [Hle _].
    assert (0 < (time_left - distances current_valve v - 1) * rate_of valve_rates v)
      by (apply Z.mul_pos_pos; lia).
    cbv beta iota zeta in Hle |- *. split; [lia|]. intros _. lia.
Qed.

Lemma process_visiting_order_fst (valve_rates : list Z) (valve_order : list nat)
    (start_valve : nat) (time_left : Z) :
  process_visiting_order distances valve_order valve_rates start_valve time_left
  = (fold_left
       (λ '(pressure_released, current_valve, time_left) next_valve,
          let travel_time := distances current_valve next_valve in
          let time_left := time_left - travel_time in
          let time_left := time_left - 1 in
          (pressure_released + time_left * rate_of valve_rates next_valve,
           next_valve, time_left))
       valve_order (0, start_valve, time_left)).1.1.
Proof.
  unfold process_visiting_order. by destruct (fold_left _ _ _) as [[? ?] ?].
Qed.

Lemma py_filter_true {A} (f : A → outcome bool) (l : list A) :
  ∀ ys, py_filter f l = Returns ys →
        ∀ y, y ∈ ys → y ∈ l ∧ f y = Returns true.
Proof.
  induction l as [|x l IH]; intros ys Hrun y Hy.
  - injection Hrun as <-. by apply elem_of_nil in Hy.
  - cbn [py_filter] in Hrun.
    destruct (f x) as [b| |] eqn:Hfx; [|done..]. cbn [mbind outcome_bind] in Hrun.
    destruct (py_filter f l) as [ys'| |]; [|done..].
    cbn [mbind outcome_bind] in Hrun. injection Hrun as <-.
    destruct b.
    + apply elem_of_cons in Hy as [->|Hy]; [split; [by left|done]|].
      destruct (IH ys' eq_refl y Hy). split; [by right|done].
    + destruct (IH ys' eq_refl y Hy). split; [by right|done].
Qed.

Lemma relevant_valves_positive (valve_names : list string) (valve_rates : list Z)
    (relevant : gset nat) (v : nat) :
  relevant_valves valve_names valve_rates = Returns relevant →
  v ∈ relevant →
  (v < length valve_names)%nat ∧ 0 < rate_of valve_rates v.
Proof.
  unfold relevant_valves. intros Hrun Hv.
  destruct (py_filter _ _) as [valves| |] eqn:Hfilter; [|done..].
  cbn [mbind outcome_bind] in Hrun. injection Hrun as <-.
  apply elem_of_list_to_set in Hv.
  destruct (py_filter_true _ _ _ Hfilter v Hv) as [Hseq Hrate].
  apply list_elem_of_In, in_seq in Hseq. split; [lia|].
  unfold py_index in Hrate. destruct (_ && _); [|done].
  destruct (Z.ltb_spec (Z.of_nat v) 0); [lia|].
  rewrite Nat2Z.id in Hrate. unfold rate_of.
  destruct (valve_rates !! v) as [rate|] eqn:Hlook; [|done].
  rewrite (list_lookup_total_correct _ _ _ Hlook).
  cbn [mbind outcome_bind] in Hrate. injection Hrate as Hrate.
  by apply Z.gtb_lt.
Qed.

(** X15: in every visiting order that the generator yields, each valve is
    opened with at least one minute left on the clock.  Hence, the
    relevant valves being those with a positive rate, every order but the
    empty one releases a positive pressure. *)
Theorem generated_orders_fit_the_clock (valve_names : list string)
    (valve_rates : list Z) (start_valve : nat) (relevant : gset nat)
    (time_left : Z) (visiting_order : list nat) :
  relevant_valves valve_names valve_rates = Returns relevant →
  visiting_order ∈ recursively_generate_visiting_orders set_iter distances
                     start_valve relevant [] time_left →
  Forall (λ t, 0 < t) (clock distances start_valve time_left visiting_order)
  ∧ (visiting_order ≠ [] →
     0 < process_visiting_order distances visiting_order valve_rates
           start_valve time_left).
Proof.
  intros Hrelevant (ext & -> & _ & Hin & Hclock)%generated_order_extends.
  cbn [app]. split; [done|]. rewrite process_visiting_order_fst.
  apply process_visiting_order_steps; [done|].
  apply Forall_forall. intros v Hv%Hin.
  by destruct (relevant_valves_positive _ _ _ _ Hrelevant Hv).
Qed.

Lemma py_max_spec (l : list Z) (x : Z) :
  x ∈ l →
  ∃ m, py_max l = Returns m ∧ m ∈ l ∧ ∀ y, y ∈ l → y <= m.
Proof.
  destruct l as [|x0 l]; [by intros ?%elem_of_nil|]. intros _.
  cbn [py_max]. eexists. split; [reflexivity|].
  revert x0. induction l as [|y l IH]; intros x0.
  - cbn. split; [by left|]. intros y ->%list_elem_of_singleton. lia.
  - cbn [fold_left]. destruct (IH (if x0 <? y then y else x0)) as [Hin Hle].
    split.
    + apply elem_of_cons in Hin as [->|Hin].
      * destruct (x0 <? y); [right; by left|by left].
      * right. by right.
    + intros z Hz.
      specialize (Hle (if x0 <? y then y else x0) ltac:(by left)) as Hfirst.
      apply elem_of_cons in Hz as [Hz|Hz];
        [subst z|apply elem_of_cons in Hz as [Hz|Hz]; [subst z|]].
      * destruct (Z.ltb_spec x0 y); lia.
      * destruct (Z.ltb_spec x0 y); lia.
      * apply Hle. by right.
Qed.

(** X16: once the valves are parsed and the start valve is one of them,
    [part_1] returns the largest pressure released by a generated
    visiting order; the empty order is always generated, so the maximum is
    taken over a non-empty list and is never negative. *)
Theorem part_1_on_is_maximum (valve_names : list string)
    (valve_rates : list Z) (start_valve_name : string)
    (time_left_at_start : Z) (relevant : gset nat) (start_valve : nat) :
  relevant_valves valve_names valve_rates = Returns relevant →
  list_index valve_names start_valve_name = Returns start_valve →
  ∃ r,
    part_1_on set_iter valve_names valve_rates distances start_valve_name
      time_left_at_start = Returns r
    ∧ 0 <= r
    ∧ (∃ o, o ∈ recursively_generate_visiting_orders set_iter distances
                  start_valve relevant [] time_left_at_start
            ∧ r = process_visiting_order distances o valve_rates start_valve
                    time_left_at_start)
    ∧ ∀ o, o ∈ recursively_generate_visiting_orders set_iter distances
                 start_valve relevant [] time_left_at_start →
           process_visiting_order distances o valve_rates start_valve
             time_left_at_start <= r.
Proof.
  intros Hrelevant Hstart. unfold part_1_on. rewrite Hrelevant, Hstart.
  cbn [mbind outcome_bind].
  set (orders := recursively_generate_visiting_orders _ _ _ _ _ _).
  set (released := λ o, process_visiting_order distances o valve_rates
                          start_valve time_left_at_start).
  assert ([] ∈ orders) as Hempty by apply visited_is_generated.
  destruct (py_max_spec (map released orders) (released []))
    as (m & Hmax & Hin & Hle).
  { apply list_elem_of_In, in_map, list_elem_of_In, Hempty. }
  exists m. split; [done|]. split; [|split].
  - apply (Hle (released [])).
    apply list_elem_of_In, in_map, list_elem_of_In, Hempty.
  - apply list_elem_of_In, in_map_iff in Hin as (o & <- & Ho).
    exists o. by split; [apply list_elem_of_In|].
  - intros o Ho. change (released o <= m).
    apply Hle, list_elem_of_In, (in_map released), list_elem_of_In, Ho.
Qed.

End Day16Orders.

Lemma generated_orders_visit_each_valve_once_witness :
  NoDup [2; 1]%nat ∧ ∀ v, v ∈ [2; 1]%nat → v ∈ ({[1; 2]} : gset nat)%nat.
Proof.
  apply (generated_orders_visit_each_valve_once
           elements (λ X v H, proj1 (elem_of_elements X v) H)
           (λ _ _, 1) 0%nat {[1; 2]}%nat 30 [2; 1]%nat).
  apply (bool_decide_unpack _). vm_compute. exact I.
Defined.

Lemma generated_orders_fit_the_clock_witness :
  Forall (λ t, 0 < t) (clock (λ _ _, 1) 0 30 [2; 1]%nat)
  ∧ 0 < Day16.process_visiting_order (λ _ _, 1) [2; 1]%nat [0; 13; 2] 0 30.
Proof.
  destruct (generated_orders_fit_the_clock
              elements (λ X v H, proj1 (elem_of_elements X v) H)
              (λ _ _, 1) ["AA"; "BB"; "CC"] [0; 13; 2] 0%nat
              (list_to_set [1; 2]%nat) 30 [2; 1]%nat) as [Hclock Hscore].
  - reflexivity.
  - apply (bool_decide_unpack _). vm_compute. exact I.
  - split; [exact Hclock|]. apply Hscore. discriminate.
Defined.

Lemma part_1_on_is_maximum_witness :
  ∃ r,
    Day16.part_1_on elements ["AA"; "BB"; "CC"] [0; 13; 2] (λ _ _, 1) "AA" 30
    = Returns r
    ∧ 0 <= r
    ∧ (∃ o, o ∈ Day16.recursively_generate_visiting_orders elements (λ _ _, 1)
                  0%nat (list_to_set [1; 2]%nat) [] 30
            ∧ r = Day16.process_visiting_order (λ _ _, 1) o [0; 13; 2] 0%nat 30)
    ∧ ∀ o, o ∈ Day16.recursively_generate_visiting_orders elements (λ _ _, 1)
                 0%nat (list_to_set [1; 2]%nat) [] 30 →
           Day16.process_visiting_order (λ _ _, 1) o [0; 13; 2] 0%nat 30 <= r.
Proof.
  apply (part_1_on_is_maximum elements (λ _ _, 1) ["AA"; "BB"; "CC"]
           [0; 13; 2] "AA" 30 (list_to_set [1; 2]%nat) 0%nat); reflexivity.
Defined.

Section Day16Edges.

Import Day16.

Lemma filter_none {A} (l : list A) : List.filter (λ _, false) l = [].
Proof. by induction l. Qed.

Lemma relevant_valves_none (valve_names : list string) (valve_rates : list Z) :
  Forall (λ rate, rate <= 0) valve_rates →
  (length valve_names <= length valve_rates)%nat →
  relevant_valves valve_names valve_rates = Returns ∅.
Proof.
  intros Hrates Hlen. unfold relevant_valves.
  rewrite (py_filter_pure _ (λ _, false)).
  - by rewrite filter_none.
  - intros v Hv%list_elem_of_In%in_seq.
    destruct (lookup_lt_is_Some_2 valve_rates v) as [rate Hrate]; [lia|].
    rewrite (py_index_lookup _ _ rate); [|lia|by rewrite Nat2Z.id].
    cbn [mbind outcome_bind]. f_equal.
    rewrite Forall_lookup in Hrates. specialize (Hrates v rate Hrate).
    destruct (Z.gtb_spec rate 0); [lia|done].
Qed.

(** X17: when no valve has a positive rate there is nothing to open: the
    only visiting order is the empty one, [part_1] returns 0, and [part_2],
    which looks for two different orders, finds no pair and returns the
    value its best score starts with, minus infinity. *)
Theorem no_positive_rate_no_pair (set_iter : gset nat → list nat)
    (valve_names : list string) (valve_rates : list Z)
    (distances : nat → nat → Z) (start_valve_name : string)
    (time_left_at_start : Z) (start_valve : nat) :
  Forall (λ rate, rate <= 0) valve_rates →
  (length valve_names <= length valve_rates)%nat →
  list_index valve_names start_valve_name = Returns start_valve →
  part_1_on set_iter valve_names valve_rates distances start_valve_name
    time_left_at_start = Returns 0
  ∧ part_2_on set_iter valve_names valve_rates distances start_valve_name
      time_left_at_start = Returns NegInf.
Proof.
  intros Hrates Hlen Hstart. unfold part_1_on, part_2_on, orders_with_scores.
  rewrite (relevant_valves_none _ _ Hrates Hlen), Hstart.
  cbn [mbind outcome_bind]. unfold recursively_generate_visiting_orders.
  rewrite size_empty. done.
Qed.

Lemma list_index_outcome {A} `{EqDecision A} (l : list A) (x : A) :
  (∃ i, list_index l x = Returns i) ∨ list_index l x = Raises ValueError.
Proof.
  induction l as [|y l IH]; cbn [list_index]; [by right|].
  destruct (decide (y = x)); [eauto|].
  destruct IH as [[i ->]| ->]; cbn; eauto.
Qed.

Lemma list_index_missing {A} `{EqDecision A} (l : list A) (x : A) :
  x ∉ l → list_index l x = Raises ValueError.
Proof.
  induction l as [|y l IH]; intros Hx; cbn [list_index]; [done|].
  destruct (decide (y = x)) as [->|_]; [destruct Hx; by left|].
  rewrite IH; [done|]. intros Hin. apply Hx. by right.
Qed.

(** X18: [parse_lines] raises [ValueError] when the lines themselves are
    well formed but a tunnel leads to a valve that no line describes: the
    name is looked up in the list of valve names. *)
Theorem tunnel_to_unknown_valve_raises
    (re_search : string → option (string * string * string))
    (shortest_paths : nat → list (nat * nat) → nat → nat → Z)
    (fs : filesystem) (filepath : path) (text : string)
    (valve_names : list string) (valve_rates : list Z)
    (valve_edges : list (string * string)) (edge : string * string) :
  fs filepath = Some text →
  foldM (parse_line re_search) (file_lines text) ([], [], [])
    = Returns (valve_names, valve_rates, valve_edges) →
  edge ∈ valve_edges →
  edge.2 ∉ valve_names →
  parse_lines re_search shortest_paths fs filepath = Raises ValueError.
Proof.
  intros Hfile Hlines Hedge Hunknown. unfold parse_lines, read_file.
  rewrite Hfile. cbn [mbind outcome_bind]. rewrite Hlines.
  cbn [mbind outcome_bind].
  rewrite (py_map_raises _ ValueError _ edge Hedge); [done| |].
  - rewrite (list_index_missing _ _ Hunknown).
    destruct (list_index_outcome valve_names edge.1) as [[a ->]| ->]; done.
  - intros e _.
    destruct (list_index_outcome valve_names e.1) as [[a ->]| ->]; [|by right].
    cbn [mbind outcome_bind].
    destruct (list_index_outcome valve_names e.2) as [[b ->]| ->]; [|by right].
    left. by eexists.
Qed.

End Day16Edges.

Lemma no_positive_rate_no_pair_witness :
  Day16.part_1_on elements ["AA"; "BB"] [0; 0] (λ _ _, 1) "AA" 30 = Returns 0
  ∧ Day16.part_2_on elements ["AA"; "BB"] [0; 0] (λ _ _, 1) "AA" 26
    = Returns Day16.NegInf.
Proof.
  split.
  - apply (no_positive_rate_no_pair elements ["AA"; "BB"] [0; 0] (λ _ _, 1)
             "AA" 30 0%nat); [by repeat constructor|simpl; lia|reflexivity].
  - apply (no_positive_rate_no_pair elements ["AA"; "BB"] [0; 0] (λ _ _, 1)
             "AA" 26 0%nat); [by repeat constructor|simpl; lia|reflexivity].
Defined.

Lemma tunnel_to_unknown_valve_raises_witness :
  Day16.parse_lines (λ _, Some ("AA", "1", "BB")) (λ _ _ _ _, 0)
    (λ _, Some dangling_tunnel) my_file = Raises ValueError.
Proof.
  apply (tunnel_to_unknown_valve_raises (λ _, Some ("AA", "1", "BB"))
           (λ _ _ _ _, 0) (λ _, Some dangling_tunnel) my_file dangling_tunnel
           ["AA"] [1] [("AA", "BB")] ("AA", "BB")).
  - reflexivity.
  - reflexivity.
  - by left.
  - cbn. by intros [=]%list_elem_of_singleton.
Defined.

(** ** Day 16: one visitor and two *)

Section Day16Pairs.

Import Day16.

Variable set_iter : gset nat → list nat.

Hypothesis set_iter_sound : ∀ (X : gset nat) (v : nat), v ∈ set_iter X → v ∈ X.

Variable distances : nat → nat → Z.

Lemma combinations_complete {A} (l : list A) (a b : A) :
  In a l → In b l → a ≠ b →
  In (a, b) (combinations l) ∨ In (b, a) (combinations l).
Proof.
  induction l as [|x l IH]; intros Ha Hb Hne; [done|].
  cbn [combinations]. rewrite !in_app_iff, !in_map_iff.
  destruct Ha as [->|Ha], Hb as [->|Hb].
  - done.
  - left. left. by exists b.
  - right. left. by exists a.
  - destruct (IH Ha Hb Hne); [left|right]; by right.
Qed.

Lemma generated_order_not_negative (valve_names : list string)
    (valve_rates : list Z) (start_valve : nat) (relevant : gset nat)
    (time_left : Z) (visiting_order : list nat) :
  relevant_valves valve_names valve_rates = Returns relevant →
  visiting_order ∈ recursively_generate_visiting_orders set_iter distances
                     start_valve relevant [] time_left →
  0 <= process_visiting_order distances visiting_order valve_rates
         start_valve time_left.
Proof.
  intros Hrelevant Hin.
  apply (generated_order_extends set_iter set_iter_sound distances) in Hin
    as (ext & -> & _ & Hin & Hclock).
  cbn [app]. rewrite process_visiting_order_fst.
  apply process_visiting_order_steps; [done|].
  apply Forall_forall. intros v Hv%Hin.
  by destruct (relevant_valves_positive _ _ _ _ Hrelevant Hv).
Qed.

(** X19: with the same time on the clock, two visitors never release less
    than one: whenever [part_2] finds a pair of visiting orders, its
    answer is at least the answer of [part_1], because the best order of
    part 1 can be paired with the empty order. *)
Theorem two_visitors_release_no_less (valve_names : list string)
    (valve_rates : list Z) (start_valve_name : string)
    (time_left_at_start : Z) (pair_score : Z) :
  part_2_on set_iter valve_names valve_rates distances start_valve_name
    time_left_at_start = Returns (Best pair_score) →
  ∃ single_score,
    part_1_on set_iter valve_names valve_rates distances start_valve_name
      time_left_at_start = Returns single_score
    ∧ single_score <= pair_score.
Proof.
  rewrite part_2_on_unpruned. unfold part_2_unpruned, part_1_on.
  destruct (relevant_valves valve_names valve_rates) as [relevant| |]
    eqn:Hrelevant; [|done..].
  destruct (list_index valve_names start_valve_name) as [start_valve| |];
    [|done..].
  cbn [mbind outcome_bind]. intros [= Hbest].
  set (orders := recursively_generate_visiting_orders _ _ _ _ _ _) in *.
  set (released := λ o, process_visiting_order distances o valve_rates
                          start_valve time_left_at_start).
  assert ([] ∈ orders) as Hempty by apply visited_is_generated.
  destruct (py_max_spec (map released orders) (released []))
    as (single_score & -> & Hin & Hle).
  { apply list_elem_of_In, in_map, list_elem_of_In, Hempty. }
  exists single_score. split; [done|].
  pose proof (max_of_is_max
                (map combined_score
                   (List.filter disjoint_orders
                      (combinations
                         (orders_with_scores set_iter valve_rates distances
                            start_valve relevant time_left_at_start)))))
    as Hmax.
  unfold unpruned_maximum in Hbest. rewrite Hbest in Hmax.
  destruct Hmax as [Hpair Hpairs].
  apply list_elem_of_In, in_map_iff in Hin as (best_order & <- & Hbest_order).
  destruct (decide (best_order = [])) as [->|Hne].
  - (* the best single order is the empty one: every pair does as well *)
    apply in_map_iff in Hpair as ([a b] & <- & [Hab _]%filter_In).
    apply in_combinations in Hab as [Ha Hb].
    unfold orders_with_scores in Ha, Hb. fold orders in Ha, Hb.
    apply in_map_iff in Ha as (oa & <- & Hoa), Hb as (ob & <- & Hob).
    apply list_elem_of_In in Hoa, Hob.
    pose proof (generated_order_not_negative _ _ _ _ _ _ Hrelevant Hoa).
    pose proof (generated_order_not_negative _ _ _ _ _ _ Hrelevant Hob).
    unfold combined_score, released. cbn [fst snd score].
    change (process_visiting_order distances [] valve_rates start_valve
              time_left_at_start) with 0.
    lia.
  - (* otherwise it is paired with the empty one *)
    set (a := {| order := best_order; score := released best_order |}).
    set (b := {| order := []; score := released [] |}).
    assert (a ≠ b) as Hab by (intros [= ? _]; done).
    assert (In a (orders_with_scores set_iter valve_rates distances
                    start_valve relevant time_left_at_start)) as Ha.
    { unfold orders_with_scores. fold orders.
      apply in_map_iff. by exists best_order. }
    assert (In b (orders_with_scores set_iter valve_rates distances
                    start_valve relevant time_left_at_start)) as Hb.
    { unfold orders_with_scores. fold orders.
      apply in_map_iff. exists []. split; [done|]. by apply list_elem_of_In. }
    assert (share_valve best_order [] = false) as Hright.
    { unfold share_valve. apply not_true_is_false.
      intros (v & _ & Hv)%existsb_exists.
      apply bool_decide_eq_true in Hv. by apply elem_of_nil in Hv. }
    replace (released best_order) with (released best_order + released [])
      by (change (released []) with 0; lia).
    destruct (combinations_complete _ a b Ha Hb Hab) as [Hin|Hin].
    + apply (Hpairs (combined_score (a, b))).
      apply in_map, filter_In. split; [done|].
      unfold disjoint_orders. cbn [fst snd order a b]. by rewrite Hright.
    + replace (released best_order + released [])
        with (combined_score (b, a))
        by (unfold combined_score; cbn [fst snd score a b]; lia).
      apply Hpairs, in_map, filter_In. split; [done|].
      unfold disjoint_orders. by cbn.
Qed.

End Day16Pairs.

Lemma two_visitors_release_no_less_witness :
  ∃ single_score,
    Day16.part_1_on elements ["AA"; "BB"; "CC"] [0; 13; 2] (λ _ _, 1) "AA" 30
    = Returns single_score
    ∧ single_score <= 420.
Proof.
  apply (two_visitors_release_no_less
           elements (λ X v H, proj1 (elem_of_elements X v) H) (λ _ _, 1)
           ["AA"; "BB"; "CC"] [0; 13; 2] "AA" 30 420).
  by vm_compute.
Defined.

(** ** Day 1: the elves and their calories *)

Lemma read_calorie_line_blank (yielded : list (list Z)) (entries : list Z)
    (line : string) :
  blank_line line = true →
  Day1.read_calorie_line (yielded, entries) line
  = Returns (yielded ++ [entries], []).
Proof. unfold blank_line, Day1.read_calorie_line. by intros ->. Qed.

Lemma read_calorie_line_entry (yielded : list (list Z)) (entries : list Z)
    (line : string) :
  blank_line line = false →
  Day1.read_calorie_line (yielded, entries) line
  = (single_calorie_entry ← py_int (strip line);
     Returns (yielded, entries ++ [single_calorie_entry])).
Proof. unfold blank_line, Day1.read_calorie_line. by intros ->. Qed.

Lemma read_calorie_lines (lines : list string) :
  ∀ (yielded0 : list (list Z)) (entries0 : list Z)
    (yielded : list (list Z)) (entries : list Z),
    foldM Day1.read_calorie_line lines (yielded0, entries0)
      = Returns (yielded, entries) →
    length yielded
    = (length yielded0 + length (List.filter blank_line lines))%nat
    ∧ ∃ numbers,
        py_map (λ line, py_int (strip line))
          (List.filter (λ line, negb (blank_line line)) lines)
          = Returns numbers
        ∧ concat yielded ++ entries = concat yielded0 ++ entries0 ++ numbers.
Proof.
  induction lines as [|line lines IH];
    intros yielded0 entries0 yielded entries Hrun.
  - cbn in Hrun. injection Hrun as <- <-. cbn. split; [lia|].
    exists []. by rewrite app_nil_r.
  - cbn [foldM] in Hrun. cbn [List.filter].
    destruct (blank_line line) eqn:Hblank; cbn [negb].
    + rewrite read_calorie_line_blank in Hrun by done.
      cbn [mbind outcome_bind] in Hrun.
      destruct (IH _ _ _ _ Hrun) as (Hlen & numbers & Hnumbers & Hconcat).
      split; [rewrite Hlen, length_app; cbn; lia|].
      exists numbers. split; [done|].
      rewrite Hconcat, concat_app. cbn. by rewrite app_nil_r, <- !app_assoc.
    + rewrite read_calorie_line_entry in Hrun by done.
      destruct (py_int (strip line)) as [n| |] eqn:Hn; [|done..].
      cbn [mbind outcome_bind] in Hrun.
      destruct (IH _ _ _ _ Hrun) as (Hlen & numbers & Hnumbers & Hconcat).
      split; [done|]. exists (n :: numbers). split.
      * cbn [py_map]. rewrite Hn, Hnumbers. done.
      * rewrite Hconcat. by rewrite <- !app_assoc.
Qed.

(** X20: when [generate_elf_calories_from_file] runs to its end, it has
    yielded one list more than the file has blank lines, so at least one,
    and the lists hold, in the order of the file, the integers of the
    lines that are not blank. *)
Theorem elves_and_entries (fs : filesystem) (filepath : path) (text : string)
    (yielded : list (list Z)) :
  fs filepath = Some text →
  Day1.generate_elf_calories_from_file fs filepath = Returns yielded →
  length yielded = S (length (List.filter blank_line (file_lines text)))
  ∧ py_map (λ line, py_int (strip line))
      (List.filter (λ line, negb (blank_line line)) (file_lines text))
    = Returns (concat yielded).
Proof.
  intros Hfile. unfold Day1.generate_elf_calories_from_file, read_file.
  rewrite Hfile. cbn [mbind outcome_bind].
  destruct (foldM _ _ _) as [[ys entries]| |] eqn:Hrun; [|done..].
  cbn [mbind outcome_bind]. intros [= <-].
  destruct (read_calorie_lines _ _ _ _ _ Hrun) as (Hlen & numbers & -> & Hconcat).
  split.
  - rewrite length_app, Hlen. cbn. lia.
  - rewrite concat_app. cbn. rewrite app_nil_r, Hconcat. done.
Qed.

Lemma elves_and_entries_witness :
  length [[1000; 2000]; [4000]; [500]]
  = S (length (List.filter blank_line
                 (file_lines
                    (text_line "1000" +:+ text_line "2000" +:+ text_line ""
                     +:+ text_line "4000" +:+ text_line ""
                     +:+ text_line "500"))))
  ∧ py_map (λ line, py_int (strip line))
      (List.filter (λ line, negb (blank_line line))
         (file_lines
            (text_line "1000" +:+ text_line "2000" +:+ text_line ""
             +:+ text_line "4000" +:+ text_line "" +:+ text_line "500")))
    = Returns (concat [[1000; 2000]; [4000]; [500]]).
Proof.
  apply (elves_and_entries three_elves my_file); reflexivity.
Defined.

Lemma py_sum_from (l : list Z) (a : Z) : fold_left Z.add l a = a + py_sum l.
Proof.
  unfold py_sum. revert a.
  induction l as [|x l IH]; intros a; cbn [fold_left]; [lia|].
  rewrite (IH (a + x)), (IH (0 + x)). lia.
Qed.

Lemma py_sum_cons (x : Z) (l : list Z) : py_sum (x :: l) = x + py_sum l.
Proof. unfold py_sum at 1. cbn. by rewrite py_sum_from. Qed.

Lemma py_sum_app (l l' : list Z) : py_sum (l ++ l') = py_sum l + py_sum l'.
Proof.
  induction l as [|x l IH]; [done|].
  cbn [app]. rewrite !py_sum_cons, IH. lia.
Qed.

Lemma py_sum_perm (l l' : list Z) : l ≡ₚ l' → py_sum l = py_sum l'.
Proof.
  induction 1; rewrite ?py_sum_cons; lia.
Qed.

Lemma insert_desc_perm (x : Z) (l : list Z) : x :: l ≡ₚ Day1.insert_desc x l.
Proof.
  induction l as [|y l IH]; [done|]. cbn [Day1.insert_desc].
  destruct (x <? y); [|done]. by rewrite <- IH, Permutation_swap.
Qed.

Lemma sorted_desc_perm (l : list Z) : l ≡ₚ foldr Day1.insert_desc [] l.
Proof.
  induction l as [|x l IH]; [done|].
  cbn [foldr]. by rewrite <- insert_desc_perm, <- IH.
Qed.

Lemma insert_desc_sorted (x : Z) (l : list Z) :
  StronglySorted Z.ge l → StronglySorted Z.ge (Day1.insert_desc x l).
Proof.
  induction 1 as [|y l Hl IH Hy]; cbn [Day1.insert_desc].
  - repeat constructor.
  - destruct (Z.ltb_spec x y).
    + constructor; [done|].
      rewrite <- insert_desc_perm. constructor; [lia|done].
    + constructor; [by constructor|].
      constructor; [lia|]. eapply Forall_impl; [exact Hy|]. intros z Hz. lia.
Qed.

Lemma sorted_desc_sorted (l : list Z) :
  StronglySorted Z.ge (foldr Day1.insert_desc [] l).
Proof.
  induction l as [|x l IH]; [constructor|]. by apply insert_desc_sorted.
Qed.

(** Of a list sorted from the largest down, the first [k] elements have
    the largest sum among the sublists of [k] elements. *)
Lemma take_sorted_largest (s : list Z) :
  StronglySorted Z.ge s →
  ∀ (k : nat) (chosen : list Z),
    chosen ⊆+ s → length chosen = k →
    py_sum chosen <= py_sum (take k s).
Proof.
  induction 1 as [|x s Hs IH Hx]; intros k chosen Hsub Hlen.
  - apply submseteq_nil_r in Hsub as ->. by destruct k.
  - destruct k as [|k].
    { destruct chosen; [done|discriminate Hlen]. }
    cbn [take]. rewrite py_sum_cons.
    apply submseteq_cons_r in Hsub as [Hsub|(chosen' & Hperm & Hsub)].
    + pose proof (submseteq_length _ _ Hsub) as Hle.
      specialize (IH (S k) chosen Hsub Hlen).
      destruct (lookup_lt_is_Some_2 s k) as [y Hy]; [lia|].
      rewrite (take_S_r _ _ _ Hy), py_sum_app in IH.
      rewrite Forall_lookup in Hx. specialize (Hx k y Hy).
      change (py_sum [y]) with (0 + y) in IH. lia.
    + rewrite (py_sum_perm _ _ Hperm), py_sum_cons.
      assert (length chosen' = k) as Hlen'.
      { apply Permutation_length in Hperm. cbn in Hperm. lia. }
      specialize (IH k chosen' Hsub Hlen'). lia.
Qed.

Lemma generator_yields_something (fs : filesystem) (filepath : path)
    (yielded : list (list Z)) :
  Day1.generate_elf_calories_from_file fs filepath = Returns yielded →
  yielded ≠ [].
Proof.
  unfold Day1.generate_elf_calories_from_file.
  destruct (read_file fs filepath) as [text| |]; [|done..].
  cbn [mbind outcome_bind].
  destruct (foldM _ _ _) as [[ys entries]| |]; [|done..].
  cbn [mbind outcome_bind]. intros [= <-]. by destruct ys.
Qed.

Lemma top_one_is_maximum (l : list Z) :
  l ≠ [] → py_max l = Returns (py_sum (Day1.nlargest 1 l)).
Proof.
  intros Hne. destruct l as [|x l]; [done|].
  destruct (py_max_spec (x :: l) x ltac:(by left)) as (m & Hmax & Hin & Hle).
  rewrite Hmax. f_equal. unfold Day1.nlargest.
  pose proof (sorted_desc_perm (x :: l)) as Hperm.
  pose proof (sorted_desc_sorted (x :: l)) as Hsorted.
  destruct (foldr Day1.insert_desc [] (x :: l)) as [|top rest].
  { by apply Permutation_nil_r in Hperm. }
  change (m = 0 + top).
  apply StronglySorted_inv in Hsorted as [_ Hall].
  assert (top ∈ x :: l) as Htop by (rewrite Hperm; by left).
  assert (m ∈ top :: rest) as Hm by by rewrite <- Hperm.
  specialize (Hle top Htop).
  apply elem_of_cons in Hm as [->|Hm]; [lia|].
  rewrite Forall_forall in Hall. specialize (Hall m Hm). lia.
Qed.

(** X21: [part_2_solution] with a single elf to consider is
    [part_1_solution]: the sum of the one largest total is the maximum of
    the totals.  The maximum is taken over a list that is never empty, as
    the generator always yields a last list. *)
Theorem top_one_is_part_1 (fs : filesystem) (script_file p q : path) :
  Day1.part_2_solution fs script_file p 1
  = Day1.part_1_solution fs script_file q.
Proof.
  unfold Day1.part_2_solution, Day1.part_1_solution,
    Day1.carried_calories_per_elf.
  destruct (Day1.generate_elf_calories_from_file _ _) as [calories| |] eqn:Hrun;
    [|done..].
  cbn [mbind outcome_bind]. symmetry. apply top_one_is_maximum.
  apply generator_yields_something in Hrun. by destruct calories.
Qed.

(** X22: [part_2_solution] returns the largest sum that [n] of the elves'
    totals can have (all of them, when there are fewer than [n] elves). *)
Theorem part_2_is_largest_total (fs : filesystem) (script_file p : path)
    (n : nat) (elf_calories : outcome (list (list Z))) (carried : list Z) :
  Day1.carried_calories_per_elf fs script_file elf_calories = Returns carried →
  ∃ top,
    Day1.part_2_solution fs script_file p n = Returns (py_sum top)
    ∧ top ⊆+ carried
    ∧ length top = (n `min` length carried)%nat
    ∧ ∀ chosen, chosen ⊆+ carried →
                length chosen = (n `min` length carried)%nat →
                py_sum chosen <= py_sum top.
Proof.
  intros Hcarried. exists (Day1.nlargest n carried).
  pose proof (sorted_desc_perm carried) as Hperm.
  unfold Day1.nlargest. split; [|split; [|split]].
  - unfold Day1.part_2_solution. destruct n as [|n]; [done|].
    change (Day1.carried_calories_per_elf fs script_file
              (Day1.generate_elf_calories_from_file fs p))
      with (Day1.carried_calories_per_elf fs script_file elf_calories).
    by rewrite Hcarried.
  - rewrite Hperm at 2. apply sublist_submseteq, sublist_take.
  - by rewrite length_take, <- Hperm.
  - intros chosen Hsub Hlen. rewrite Hperm in Hsub.
    pose proof (take_sorted_largest _ (sorted_desc_sorted carried) _ _ Hsub Hlen)
      as Hle.
    destruct (Nat.min_spec n (length carried)) as [[_ Hmin]|[Hge Hmin]];
      rewrite Hmin in Hle; [done|].
    rewrite take_ge in Hle by (rewrite <- Hperm; lia).
    rewrite take_ge by (rewrite <- Hperm; lia). done.
Qed.

Lemma part_2_is_largest_total_witness :
  ∃ top,
    Day1.part_2_solution three_elves day1_script my_file 2
    = Returns (py_sum top)
    ∧ top ⊆+ [3000; 4000; 500]
    ∧ length top = (2 `min` length [3000; 4000; 500])%nat
    ∧ ∀ chosen, chosen ⊆+ [3000; 4000; 500] →
                length chosen = (2 `min` length [3000; 4000; 500])%nat →
                py_sum chosen <= py_sum top.
Proof.
  apply (part_2_is_largest_total three_elves day1_script my_file 2
           (Returns [])).
  reflexivity.
Defined.

(** ** Python's [str] and [int] on integers *)

Lemma digit_char_spec (d : Z) :
  0 <= d < 10 →
  is_digit (digit_char d) = true ∧ ord (digit_char d) - 48 = d.
Proof.
  intros Hd.
  assert (d = 0 ∨ d = 1 ∨ d = 2 ∨ d = 3 ∨ d = 4 ∨ d = 5 ∨ d = 6 ∨ d = 7
          ∨ d = 8 ∨ d = 9) as Hcases by lia.
  repeat destruct Hcases as [->|Hcases]; try subst d; by vm_compute.
Qed.

Lemma str_pos_go_app (fuel : nat) :
  ∀ (n : Z) (acc : list ascii),
    str_pos_go fuel n acc = str_pos_go fuel n [] ++ acc.
Proof.
  induction fuel as [|fuel IH]; intros n acc; [done|].
  cbn [str_pos_go]. destruct (n <? 10); [done|].
  rewrite (IH _ (_ :: acc)), (IH _ [_]), <- app_assoc. done.
Qed.

Lemma digits_value_app (l l' : list ascii) (acc : Z) :
  digits_value (l ++ l') acc = digits_value l' (digits_value l acc).
Proof. apply fold_left_app. Qed.

(** The digits that [str] writes for a natural number denote it. *)
Lemma str_pos_go_digits (fuel : nat) :
  ∀ n : Z,
    0 <= n → (Z.to_nat n <= fuel)%nat → (1 <= fuel)%nat →
    str_pos_go fuel n [] ≠ []
    ∧ Forall (λ c, is_digit c = true) (str_pos_go fuel n [])
    ∧ digits_value (str_pos_go fuel n []) 0 = n.
Proof.
  induction fuel as [|fuel IH]; intros n Hn Hfuel Hone; [lia|].
  cbn [str_pos_go]. destruct (Z.ltb_spec n 10).
  - destruct (digit_char_spec n ltac:(lia)) as [Hdigit Hord].
    split; [done|]. split; [by repeat constructor|].
    unfold digits_value. cbn. lia.
  - assert (0 <= n mod 10 < 10) as Hmod by (apply Z.mod_pos_bound; lia).
    assert (1 <= n / 10 < n) as Hdiv.
    { split; [apply Z.div_le_lower_bound; lia|apply Z.div_lt; lia]. }
    destruct (digit_char_spec (n mod 10) Hmod) as [Hdigit Hord].
    destruct (IH (n / 10)) as (Hne & Hall & Hval); [lia..|].
    rewrite str_pos_go_app. split; [|split].
    + by destruct (str_pos_go fuel (n / 10) []).
    + apply Forall_app. split; [done|]. by repeat constructor.
    + rewrite digits_value_app, Hval. unfold digits_value. cbn [fold_left].
      rewrite Hord. pose proof (Z.div_mod n 10). lia.
Qed.

Lemma int_digits_digits (l : list ascii) :
  Forall (λ c, is_digit c = true) l → l ≠ [] →
  ∀ (acc : Z) (after_digit : bool),
    int_digits l acc after_digit = Some (digits_value l acc).
Proof.
  induction 1 as [|c l Hc Hl IH]; intros Hne acc after_digit; [done|].
  cbn [int_digits]. rewrite Hc. destruct l as [|c' l]; [done|].
  by rewrite IH.
Qed.

Lemma is_digit_not_space (c : ascii) : is_digit c = true → is_space c = false.
Proof.
  unfold is_digit, is_space. intros [H1 H2]%andb_true_iff.
  apply Z.leb_le in H1, H2.
  repeat (apply orb_false_iff; split); try apply andb_false_iff;
    try (left; apply Z.leb_gt; lia); try (right; apply Z.leb_gt; lia);
    apply Z.eqb_neq; lia.
Qed.

Lemma is_digit_not (c c' : ascii) :
  is_digit c = true → is_digit c' = false → Ascii.eqb c c' = false.
Proof.
  intros Hc Hc'. destruct (Ascii.eqb_spec c c') as [->|]; [congruence|done].
Qed.

Lemma lstrip_no_space (l : list ascii) :
  Forall (λ c, is_space c = false) l → lstrip l = l.
Proof. destruct 1 as [|c l Hc _]; [done|]. cbn. by rewrite Hc. Qed.

Lemma strip_no_space (s : string) :
  Forall (λ c, is_space c = false) (chars s) → strip s = s.
Proof.
  intros Hs. unfold strip. rewrite (lstrip_no_space _ Hs).
  rewrite lstrip_no_space by by apply Forall_rev.
  by rewrite rev_involutive, str_of_chars.
Qed.

(** What [str] writes for an integer: an optional minus sign and
    digits that denote its absolute value. *)
Lemma str_int_chars (n : Z) :
  ∃ digits,
    digits ≠ []
    ∧ Forall (λ c, is_digit c = true) digits
    ∧ digits_value digits 0 = Z.abs n
    ∧ chars (str_int n) = if n <? 0 then "-"%char :: digits else digits.
Proof.
  unfold str_int. destruct (Z.ltb_spec n 0).
  - destruct (str_pos_go_digits (Z.to_nat (- n)) (- n)) as (Hne & Hall & Hval);
      [lia..|].
    eexists. rewrite chars_str_of. repeat split; [done..|lia].
  - destruct (str_pos_go_digits (S (Z.to_nat n)) n) as (Hne & Hall & Hval);
      [lia..|].
    eexists. rewrite chars_str_of. repeat split; [done..|lia].
Qed.

Lemma py_int_str_int (n : Z) : py_int (str_int n) = Returns n.
Proof.
  destruct (str_int_chars n) as (digits & Hne & Hall & Hval & Hchars).
  unfold py_int. rewrite strip_no_space.
  - rewrite Hchars. destruct (Z.ltb_spec n 0).
    + cbn. rewrite int_digits_digits, Hval by done. cbn. f_equal. lia.
    + destruct digits as [|c digits]; [done|].
      inversion Hall as [|? ? Hc Hall']; subst.
      rewrite !(is_digit_not c) by done.
      rewrite int_digits_digits, Hval by done. f_equal. lia.
  - rewrite Hchars.
    assert (Forall (λ c, is_space c = false) digits) as Hdigits.
    { eapply Forall_impl; [exact Hall|]. apply is_digit_not_space. }
    destruct (n <? 0); [by constructor|done].
Qed.

(** ** Day 4: the two counts *)

Lemma elem_of_range_set (x start stop : Z) :
  x ∈ Day4.range_set start stop ↔ start <= x < stop.
Proof.
  unfold Day4.range_set.
  rewrite elem_of_list_to_set, list_elem_of_In, in_map_iff. split.
  - intros (i & <- & Hi%in_seq). lia.
  - intros Hx. exists (Z.to_nat (x - start)). split; [lia|].
    apply in_seq. lia.
Qed.

Lemma span_digits_app (digits rest : list ascii) :
  Forall (λ c, is_digit c = true) digits →
  (∀ c, head rest = Some c → is_digit c = false) →
  Day4.span_digits (digits ++ rest) = (digits, rest).
Proof.
  induction 1 as [|c digits Hc Hdigits IH]; intros Hrest.
  - destruct rest as [|c rest]; [done|].
    cbn. by rewrite (Hrest c eq_refl).
  - cbn [app Day4.span_digits]. by rewrite Hc, IH.
Qed.

Lemma str_of_app (l l' : list ascii) : str_of (l ++ l') = str_of l +:+ str_of l'.
Proof.
  induction l as [|c l IH]; [done|].
  cbn [app]. change (str_of (c :: ?x)) with (String c (str_of x)).
  by rewrite IH.
Qed.

Lemma str_append_assoc (s t u : string) : (s +:+ t) +:+ u = s +:+ t +:+ u.
Proof.
  induction s as [|c s IH]; [done|].
  change (String c ((s +:+ t) +:+ u) = String c (s +:+ t +:+ u)).
  by rewrite IH.
Qed.

(** The digits of a natural number, as [str] writes them. *)
Lemma str_int_digits (n : Z) :
  0 <= n →
  chars (str_int n) ≠ [] ∧ Forall (λ c, is_digit c = true) (chars (str_int n)).
Proof.
  intros Hn. destruct (str_int_chars n) as (digits & Hne & Hall & _ & Hchars).
  destruct (Z.ltb_spec n 0); [lia|]. by rewrite Hchars.
Qed.

Lemma assignment_to_range_set_text (a b : Z) (rest : string) :
  0 <= a → 0 <= b → not_a_digit_next rest →
  Day4.assignment_to_range_set (assignment_text (a, b) +:+ rest)
  = Returns (Day4.range_set a (b + 1)).
Proof.
  intros Ha Hb Hrest.
  destruct (str_int_digits a Ha) as [Hnea Halla].
  destruct (str_int_digits b Hb) as [Hneb Hallb].
  unfold Day4.assignment_to_range_set, Day4.re_match_assignment, assignment_text.
  cbn [fst snd]. rewrite !chars_app. cbn [chars list_ascii_of_string app].
  fold (chars rest). rewrite <- !app_assoc. cbn [app].
  rewrite (span_digits_app _ _ Halla) by (by intros c [= <-]).
  destruct (chars (str_int a)) as [|ca dsa] eqn:Hdsa; [done|].
  cbv beta iota zeta. rewrite Ascii.eqb_refl.
  rewrite (span_digits_app _ _ Hallb) by done.
  destruct (chars (str_int b)) as [|cb dsb] eqn:Hdsb; [done|].
  cbv beta iota zeta.
  rewrite <- Hdsa, <- Hdsb, !str_of_chars, !py_int_str_int. done.
Qed.

(** X23: [assignment_to_range_set] reads a text that starts with two
    natural numbers joined by a dash as the set of the integers from the
    first to the second, both included, whatever follows the second number;
    the set is empty when the second number is the smaller one. *)
Theorem assignment_to_range_set_members (a b : Z) (rest : string) :
  0 <= a → 0 <= b → not_a_digit_next rest →
  ∃ sections,
    Day4.assignment_to_range_set (str_int a +:+ "-" +:+ str_int b +:+ rest)
    = Returns sections
    ∧ ∀ x, x ∈ sections ↔ a <= x <= b.
Proof.
  intros Ha Hb Hrest. exists (Day4.range_set a (b + 1)). split.
  - rewrite <- (assignment_to_range_set_text a b rest) by done.
    unfold assignment_text. cbn [fst snd].
    by rewrite !str_append_assoc.
  - intros x. rewrite elem_of_range_set. lia.
Qed.

Lemma assignment_to_range_set_members_witness :
  ∃ sections,
    Day4.assignment_to_range_set (str_int 2 +:+ "-" +:+ str_int 4 +:+ " or so")
    = Returns sections
    ∧ ∀ x, x ∈ sections ↔ 2 <= x <= 4.
Proof.
  apply (assignment_to_range_set_members 2 4 " or so"); [lia|lia|].
  intros c [= <-]. reflexivity.
Defined.

Lemma lies_within_subset (inner outer : Z * Z) :
  bool_decide (Day4.range_set inner.1 (inner.2 + 1)
               ⊆ Day4.range_set outer.1 (outer.2 + 1))
  = lies_within inner outer.
Proof.
  destruct inner as [a b], outer as [c d]. unfold lies_within. cbn [fst snd].
  destruct (Z.ltb_spec b a) as [Hempty|Hfull]; cbn [orb].
  - apply bool_decide_eq_true_2. intros x Hx%elem_of_range_set. lia.
  - destruct (Z.leb_spec c a) as [Hca|Hca]; cbn [andb].
    + destruct (Z.leb_spec b d) as [Hbd|Hbd].
      * apply bool_decide_eq_true_2. intros x Hx%elem_of_range_set.
        apply elem_of_range_set. lia.
      * apply bool_decide_eq_false_2. intros Hsub.
        specialize (Hsub b). rewrite !elem_of_range_set in Hsub. lia.
    + apply bool_decide_eq_false_2. intros Hsub.
      specialize (Hsub a). rewrite !elem_of_range_set in Hsub. lia.
Qed.

Lemma ranges_overlap_intersection (left right : Z * Z) :
  negb (bool_decide (Day4.range_set left.1 (left.2 + 1)
                     ∩ Day4.range_set right.1 (right.2 + 1) = ∅))
  = ranges_overlap (left, right).
Proof.
  destruct left as [a b], right as [c d]. unfold ranges_overlap. cbn [fst snd].
  destruct (Z.leb_spec (Z.max a c) (Z.min b d)) as [Hmeet|Hapart].
  - rewrite bool_decide_eq_false_2; [done|]. intros Hempty.
    assert (Z.max a c ∈ (∅ : gset Z)) as Hin; [|by apply elem_of_empty in Hin].
    rewrite <- Hempty, elem_of_intersection, !elem_of_range_set. lia.
  - rewrite bool_decide_eq_true_2; [done|].
    apply set_eq. intros x.
    rewrite elem_of_intersection, !elem_of_range_set, elem_of_empty. lia.
Qed.

Lemma ranges_overlap_sym (left right : Z * Z) :
  ranges_overlap (right, left) = ranges_overlap (left, right).
Proof.
  unfold ranges_overlap. cbn [fst snd].
  by rewrite (Z.max_comm right.1), (Z.min_comm right.2).
Qed.

Lemma digit_not_comma (c : ascii) : is_digit c = true → c ≠ ","%char.
Proof. by intros Hc ->. Qed.

Lemma digit_not_newline (c : ascii) : is_digit c = true → c ≠ newline.
Proof. by intros Hc ->. Qed.

Lemma split_go_comma (x y cur : list ascii) :
  ","%char ∉ x →
  split_go [","%char] (x ++ ","%char :: y) cur 0
  = str_of (rev cur ++ x) :: split_go [","%char] y [] 0.
Proof.
  revert cur. induction x as [|c x IH]; intros cur Hx.
  - cbn. by rewrite app_nil_r.
  - cbn [app split_go is_prefix].
    destruct (Ascii.eqb_spec "," c) as [<-|_]; [destruct Hx; by left|].
    cbn [andb]. rewrite IH by (intros Hin; apply Hx; by right).
    cbn [rev]. by rewrite <- app_assoc.
Qed.

Lemma split_go_comma_free (x cur : list ascii) :
  ","%char ∉ x →
  split_go [","%char] x cur 0 = [str_of (rev cur ++ x)].
Proof.
  revert cur. induction x as [|c x IH]; intros cur Hx.
  - cbn. by rewrite app_nil_r.
  - cbn [split_go is_prefix].
    destruct (Ascii.eqb_spec "," c) as [<-|_]; [destruct Hx; by left|].
    cbn [andb]. rewrite IH by (intros Hin; apply Hx; by right).
    cbn [rev]. by rewrite <- app_assoc.
Qed.

(** The characters of an assignment are digits and one dash. *)
Lemma assignment_text_chars (r : Z * Z) (c : ascii) :
  0 <= r.1 → 0 <= r.2 → c ∈ chars (assignment_text r) →
  is_digit c = true ∨ c = "-"%char.
Proof.
  intros H1 H2. unfold assignment_text. rewrite !chars_app.
  destruct (str_int_digits _ H1) as [_ Hall1].
  destruct (str_int_digits _ H2) as [_ Hall2].
  rewrite Forall_forall in Hall1, Hall2.
  rewrite !elem_of_app. intros [?|[Hdash|?]]; auto.
  apply list_elem_of_singleton in Hdash. auto.
Qed.

Lemma split_assignment_line (pair : (Z * Z) * (Z * Z)) :
  0 <= pair.1.1 → 0 <= pair.1.2 → 0 <= pair.2.1 → 0 <= pair.2.2 →
  Day4.split_assignments (assignment_line pair)
  = Returns (assignment_text pair.1,
             assignment_text pair.2 +:+ String newline "").
Proof.
  intros H1 H2 H3 H4. unfold Day4.split_assignments, split, assignment_line.
  rewrite chars_app, (chars_app ","). change (chars ",") with [","%char].
  cbn [app]. rewrite split_go_comma.
  - rewrite split_go_comma_free.
    + cbn [rev app]. by rewrite !str_of_chars.
    + rewrite chars_app, elem_of_app.
      intros [Hin|Hin].
      * by destruct (assignment_text_chars _ _ H3 H4 Hin) as [Hd|Heq].
      * by apply list_elem_of_singleton in Hin.
  - intros Hin. by destruct (assignment_text_chars _ _ H1 H2 Hin) as [Hd|Heq].
Qed.

Lemma file_lines_assignments (pairs : list ((Z * Z) * (Z * Z))) :
  Forall (λ pair, 0 <= pair.1.1 ∧ 0 <= pair.1.2
                  ∧ 0 <= pair.2.1 ∧ 0 <= pair.2.2) pairs →
  file_lines (assignments_file pairs) = map assignment_line pairs.
Proof.
  unfold file_lines, assignments_file.
  induction 1 as [|pair pairs (H1 & H2 & H3 & H4) Hpairs IH]; [done|].
  cbn [map]. rewrite chars_concat_cons. unfold assignment_line at 1.
  rewrite !chars_app. cbn [chars list_ascii_of_string].
  change (list_ascii_of_string ?s) with (chars s).
  rewrite <- !app_assoc. cbn [app].
  set (A := chars (assignment_text pair.1)).
  set (B := chars (assignment_text pair.2)).
  set (R := chars (String.concat "" (map assignment_line pairs))) in *.
  replace (A ++ ","%char :: B ++ newline :: R)
    with ((A ++ ","%char :: B) ++ newline :: R) by (by rewrite <- app_assoc).
  rewrite file_lines_go_line.
  - rewrite IH. f_equal. cbn [rev app]. unfold assignment_line.
    rewrite <- (str_of_chars (_ +:+ _)). f_equal.
    rewrite !chars_app. cbn [chars list_ascii_of_string].
    change (list_ascii_of_string ?s) with (chars s).
    fold A B. by rewrite <- !app_assoc.
  - rewrite in_app_iff. intros [Hin|[Hin|Hin]].
    + apply list_elem_of_In in Hin.
      by destruct (assignment_text_chars _ _ H1 H2 Hin) as [Hd| Heq].
    + discriminate Hin.
    + apply list_elem_of_In in Hin.
      by destruct (assignment_text_chars _ _ H3 H4 Hin) as [Hd| Heq].
Qed.

Lemma assignment_to_range_set_left (r : Z * Z) :
  0 <= r.1 → 0 <= r.2 →
  Day4.assignment_to_range_set (assignment_text r)
  = Returns (Day4.range_set r.1 (r.2 + 1)).
Proof.
  intros H1 H2. rewrite <- (append_empty_r (assignment_text r)).
  destruct r as [a b]. by apply assignment_to_range_set_text.
Qed.

Lemma assignment_to_range_set_right (r : Z * Z) :
  0 <= r.1 → 0 <= r.2 →
  Day4.assignment_to_range_set (assignment_text r +:+ String newline "")
  = Returns (Day4.range_set r.1 (r.2 + 1)).
Proof.
  intros H1 H2. destruct r as [a b].
  apply assignment_to_range_set_text; [done..|]. by intros c [= <-].
Qed.

Lemma count_line_pair (test : gset Z → gset Z → bool) (count : Z)
    (left_assignment right_assignment : string) :
  count_line test count (Returns (left_assignment, right_assignment))
  = (left_range ← Day4.assignment_to_range_set left_assignment;
     right_range ← Day4.assignment_to_range_set right_assignment;
     Returns (if test left_range right_range then count + 1 else count)).
Proof. done. Qed.

Lemma count_pairs_fold (test : gset Z → gset Z → bool) (fs : filesystem)
    (filepath : path) (text : string) :
  fs filepath = Some text →
  Day4.count_pairs test fs filepath
  = foldM (count_line test) (map Day4.split_assignments (file_lines text)) 0.
Proof.
  intros Hfile.
  unfold Day4.count_pairs, Day4.generate_assignment_pairs, read_file.
  by rewrite Hfile.
Qed.

Lemma count_assignment_lines (test : gset Z → gset Z → bool)
    (pairs : list ((Z * Z) * (Z * Z))) :
  Forall (λ pair, 0 <= pair.1.1 ∧ 0 <= pair.1.2
                  ∧ 0 <= pair.2.1 ∧ 0 <= pair.2.2) pairs →
  ∀ count,
    foldM (count_line test) (map Day4.split_assignments
                               (map assignment_line pairs)) count
    = Returns
        (count
         + Z.of_nat
             (length
                (List.filter
                   (λ pair, test (Day4.range_set pair.1.1 (pair.1.2 + 1))
                              (Day4.range_set pair.2.1 (pair.2.2 + 1)))
                   pairs))).
Proof.
  induction 1 as [|pair pairs (H1 & H2 & H3 & H4) Hpairs IH]; intros count.
  - cbn. f_equal. lia.
  - cbn [map foldM List.filter].
    rewrite split_assignment_line, count_line_pair by done.
    rewrite assignment_to_range_set_left, assignment_to_range_set_right by done.
    cbn [mbind outcome_bind fst snd]. rewrite IH.
    destruct (test _ _); cbn [length]; f_equal; lia.
Qed.

(** X24: on a file of lines [a-b,c-d] of natural numbers, [part_1] returns
    the number of lines on which one assignment lies within the other, and
    [part_2] the number of lines on which the two assignments have a
    section in common.  An assignment whose end is before its start counts
    as lying within the other one, and never as having a section in
    common with it. *)
Theorem day4_counts (fs : filesystem) (filepath : path)
    (pairs : list ((Z * Z) * (Z * Z))) :
  Forall (λ pair, 0 <= pair.1.1 ∧ 0 <= pair.1.2
                  ∧ 0 <= pair.2.1 ∧ 0 <= pair.2.2) pairs →
  fs filepath = Some (assignments_file pairs) →
  Day4.part_1 fs filepath
  = Returns (Z.of_nat (length (List.filter one_contains_other pairs)))
  ∧ Day4.part_2 fs filepath
    = Returns (Z.of_nat (length (List.filter ranges_overlap pairs))).
Proof.
  intros Hpairs Hfile. unfold Day4.part_1, Day4.part_2.
  rewrite !(count_pairs_fold _ _ _ _ Hfile).
  rewrite (file_lines_assignments _ Hpairs), !count_assignment_lines by done.
  split.
  - f_equal. rewrite Z.add_0_l. do 2 f_equal.
    apply filter_ext. intros [left right].
    by rewrite !lies_within_subset.
  - f_equal. rewrite Z.add_0_l. do 2 f_equal.
    apply filter_ext. intros [left right]. cbn [fst snd].
    rewrite !ranges_overlap_intersection, ranges_overlap_sym.
    apply orb_diag.
Qed.

Lemma day4_counts_witness :
  Day4.part_1 (λ _, Some (assignments_file [((2, 4), (6, 8)); ((6, 6), (4, 6));
                                          ((5, 7), (7, 9)); ((5, 3), (1, 1))]))
    my_file
  = Returns (Z.of_nat (length (List.filter one_contains_other
                                 [((2, 4), (6, 8)); ((6, 6), (4, 6));
                                  ((5, 7), (7, 9)); ((5, 3), (1, 1))])))
  ∧ Day4.part_2 (λ _, Some (assignments_file [((2, 4), (6, 8)); ((6, 6), (4, 6));
                                            ((5, 7), (7, 9)); ((5, 3), (1, 1))]))
      my_file
    = Returns (Z.of_nat (length (List.filter ranges_overlap
                                   [((2, 4), (6, 8)); ((6, 6), (4, 6));
                                    ((5, 7), (7, 9)); ((5, 3), (1, 1))]))).
Proof.
  apply (day4_counts _ my_file [((2, 4), (6, 8)); ((6, 6), (4, 6));
                                ((5, 7), (7, 9)); ((5, 3), (1, 1))]).
  - repeat constructor; cbn; lia.
  - reflexivity.
Defined.

(** ** Day 4: the lines that the parts accept *)

Lemma span_digits_digits (s digits rest : list ascii) :
  Day4.span_digits s = (digits, rest) →
  Forall (λ c, is_digit c = true) digits.
Proof.
  revert digits rest. induction s as [|c s IH]; intros digits rest.
  - intros [= <- <-]. constructor.
  - cbn [Day4.span_digits]. destruct (is_digit c) eqn:Hc.
    + destruct (Day4.span_digits s) as [digits' rest'].
      intros [= <- <-]. constructor; [done|]. by eapply IH.
    + intros [= <- <-]. constructor.
Qed.

Lemma py_int_digits (digits : list ascii) :
  digits ≠ [] → Forall (λ c, is_digit c = true) digits →
  py_int (str_of digits) = Returns (digits_value digits 0).
Proof.
  intros Hne Hall. unfold py_int. rewrite strip_no_space.
  - rewrite chars_str_of. destruct digits as [|c digits]; [done|].
    inversion Hall as [|? ? Hc Hall']; subst.
    rewrite (is_digit_not c "-"), (is_digit_not c "+") by done.
    by rewrite int_digits_digits.
  - rewrite chars_str_of. eapply Forall_impl; [exact Hall|].
    intros c. apply is_digit_not_space.
Qed.

Lemma assignment_to_range_set_matched (assignment : string) :
  Day4.re_match_assignment assignment ≠ None →
  ∃ r, Day4.assignment_to_range_set assignment = Returns r.
Proof.
  unfold Day4.assignment_to_range_set, Day4.re_match_assignment.
  destruct (Day4.span_digits (chars assignment)) as [first rest] eqn:Hfirst.
  destruct first as [|c first]; [done|]. destruct rest as [|dash rest]; [done|].
  destruct (Ascii.eqb dash "-"); [|done].
  destruct (Day4.span_digits rest) as [last rest'] eqn:Hlast.
  destruct last as [|d last]; [done|]. intros _.
  rewrite !py_int_digits;
    [by eexists|done|by eapply span_digits_digits|done
    |by eapply span_digits_digits].
Qed.

Lemma count_line_matched (test : gset Z → gset Z → bool) (count : Z)
    (line : string) :
  ¬ unmatched_assignment_line line →
  ∃ n, count_line test count (Day4.split_assignments line) = Returns n.
Proof.
  unfold unmatched_assignment_line, count_line, Day4.split_assignments.
  destruct (split line ",") as [|l [|r [|? ?]]]; try (by intros []).
  intros Hmatched. cbn [mbind outcome_bind].
  destruct (assignment_to_range_set_matched l) as [a ->]; [tauto|].
  destruct (assignment_to_range_set_matched r) as [b ->]; [tauto|].
  by eexists.
Qed.

Lemma count_lines_matched (test : gset Z → gset Z → bool) (lines : list string) :
  (∀ line, line ∈ lines → ¬ unmatched_assignment_line line) →
  ∀ count, ∃ n,
    foldM (count_line test) (map Day4.split_assignments lines) count
    = Returns n.
Proof.
  induction lines as [|line lines IH]; intros Hlines count; [by eexists|].
  cbn [map foldM].
  destruct (count_line_matched test count line) as [n ->];
    [apply Hlines; by left|].
  cbn [mbind outcome_bind]. apply IH. intros l Hl. apply Hlines. by right.
Qed.

(** X30: the parts of day 4 raise only for a line that the script cannot
    take apart: on a file whose every line splits at its one comma into
    two fields that each begin with digits, a dash and digits, [part_1]
    and [part_2] return a count, whatever follows the second number of a
    field. *)
Theorem day4_accepts_matched_lines (fs : filesystem) (filepath : path)
    (text : string) :
  fs filepath = Some text →
  (∀ line, line ∈ file_lines text → ¬ unmatched_assignment_line line) →
  ∃ n m, Day4.part_1 fs filepath = Returns n
         ∧ Day4.part_2 fs filepath = Returns m.
Proof.
  intros Hfile Hlines. unfold Day4.part_1, Day4.part_2.
  rewrite !(count_pairs_fold _ fs filepath text Hfile).
  destruct (count_lines_matched
              (λ left_range right_range,
                 bool_decide (left_range ⊆ right_range)
                 || bool_decide (right_range ⊆ left_range))
              (file_lines text) Hlines 0) as [n ->].
  destruct (count_lines_matched
              (λ left_range right_range,
                 negb (bool_decide (left_range ∩ right_range = ∅))
                 || negb (bool_decide (right_range ∩ left_range = ∅)))
              (file_lines text) Hlines 0) as [m ->].
  by exists n, m.
Qed.

Lemma day4_accepts_matched_lines_witness :
  ∃ n m, Day4.part_1 (λ _, Some trailing_text) my_file = Returns n
         ∧ Day4.part_2 (λ _, Some trailing_text) my_file = Returns m.
Proof.
  apply (day4_accepts_matched_lines (λ _, Some trailing_text) my_file
           trailing_text eq_refl).
  intros line Hline.
  assert (line = trailing_text) as ->.
  { vm_compute in Hline. by apply list_elem_of_singleton in Hline. }
  vm_compute. by intros [|].
Defined.

(** ** Day 10: reading the program *)

Lemma file_lines_text_lines (lines : list string) :
  Forall no_newline lines →
  file_lines (String.concat "" (map text_line lines)) = map text_line lines.
Proof.
  unfold file_lines. induction 1 as [|line lines Hline Hlines IH]; [done|].
  cbn [map]. rewrite chars_concat_cons. unfold text_line at 1.
  rewrite chars_app. change (chars (String newline "")) with [newline].
  rewrite <- app_assoc. cbn [app].
  rewrite file_lines_go_line by done. rewrite IH. f_equal.
  cbn [rev app]. unfold text_line.
  by rewrite <- (str_of_chars (_ +:+ _)), chars_app.
Qed.

Lemma is_space_newline : is_space newline = true.
Proof. done. Qed.

(** Stripping a line whose text has no white space at either end. *)
Lemma strip_text_line (body : list ascii) (first last : ascii) :
  head body = Some first → is_space first = false →
  head (rev body) = Some last → is_space last = false →
  strip (text_line (str_of body)) = str_of body.
Proof.
  intros Hfirst Hfirst' Hlast Hlast'. unfold strip, text_line.
  rewrite chars_app, chars_str_of. change (chars (String newline "")) with [newline].
  destruct body as [|c body]; [done|]. injection Hfirst as ->.
  cbn [app lstrip]. rewrite Hfirst'.
  change (first :: body ++ [newline]) with ((first :: body) ++ [newline]).
  rewrite rev_app_distr. cbn [rev app lstrip]. rewrite is_space_newline.
  destruct (rev body ++ [first]) as [|c rest] eqn:Hrev;
    [by destruct (rev body)|].
  cbn [rev] in Hlast. rewrite Hrev in Hlast. injection Hlast as ->.
  cbn [lstrip]. rewrite Hlast'. rewrite <- Hrev, rev_app_distr, rev_involutive.
  done.
Qed.

Lemma str_int_no_space (n : Z) :
  Forall (λ c, is_space c = false) (chars (str_int n)).
Proof.
  destruct (str_int_chars n) as (digits & _ & Hall & _ & ->).
  assert (Forall (λ c, is_space c = false) digits) as Hdigits.
  { eapply Forall_impl; [exact Hall|]. apply is_digit_not_space. }
  destruct (n <? 0); [by constructor|done].
Qed.

Lemma str_int_not_empty (n : Z) : chars (str_int n) ≠ [].
Proof.
  destruct (str_int_chars n) as (digits & Hne & _ & _ & ->).
  by destruct (n <? 0).
Qed.

Lemma split_whitespace_go_word (word cur : list ascii) :
  Forall (λ c, is_space c = false) word →
  split_whitespace_go word cur
  = match rev cur ++ word with
    | [] => []
    | _ => [str_of (rev cur ++ word)]
    end.
Proof.
  intros Hword. revert cur.
  induction Hword as [|c word Hc Hword IH]; intros cur.
  - cbn [split_whitespace_go]. rewrite app_nil_r.
    destruct cur as [|c cur]; [done|]. cbn [rev].
    by destruct (rev cur ++ [c]) eqn:Hrev; [destruct (rev cur)|].
  - cbn [split_whitespace_go]. rewrite Hc, IH. cbn [rev].
    by rewrite <- app_assoc.
Qed.

Lemma parse_addx (n : Z) :
  Day10.parse_instruction (text_line (op_text (Addx n)))
  = Returns (op_instruction (Addx n)).
Proof.
  pose proof (str_int_no_space n) as Hspace.
  pose proof (str_int_not_empty n) as Hne.
  unfold Day10.parse_instruction. cbn [op_text].
  assert (strip (text_line ("addx " +:+ str_int n)) = "addx " +:+ str_int n) as ->.
  { rewrite <- (str_of_chars ("addx " +:+ str_int n)), chars_app.
    destruct (chars (str_int n)) as [|c digits] eqn:Hdigits using rev_ind;
      [done|].
    apply Forall_app in Hspace as [_ Hlast]. inversion Hlast; subst.
    apply (strip_text_line _ "a" c); [done|done| |done].
    change (chars "addx ") with ["a"; "d"; "d"; "x"; " "]%char.
    rewrite app_assoc, rev_app_distr. done. }
  change ("addx " +:+ str_int n) with (String "a" ("ddx " +:+ str_int n)).
  cbn [String.eqb Ascii.eqb]. cbn [Bool.eqb].
  change (String "a" ("ddx " +:+ str_int n)) with ("addx " +:+ str_int n).
  unfold split_whitespace. rewrite chars_app.
  change (chars "addx ") with ["a"; "d"; "d"; "x"; " "]%char.
  cbn [app split_whitespace_go is_space]. 
  change (is_space "a") with false. change (is_space "d") with false.
  change (is_space "x") with false. change (is_space " ") with true.
  cbn iota. rewrite split_whitespace_go_word by done. cbn [rev app].
  destruct (chars (str_int n)) as [|c digits] eqn:Hdigits; [done|].
  rewrite <- Hdigits, str_of_chars.
  change (str_of (rev ["x"; "d"; "d"; "a"]%char)) with "addx".
  cbn [String.eqb]. rewrite py_int_str_int. done.
Qed.

Lemma parse_noop :
  Day10.parse_instruction (text_line (op_text Noop))
  = Returns (op_instruction Noop).
Proof. by vm_compute. Qed.

Lemma op_text_no_newline (o : op) : no_newline (op_text o).
Proof.
  destruct o as [|n]; [literal_no_newline|].
  unfold no_newline. cbn [op_text]. rewrite chars_app, in_app_iff.
  intros [Hin|Hin]; [revert Hin; literal_no_newline|].
  by apply (str_int_no_newline n).
Qed.

Lemma generate_program (fs : filesystem) (filepath : path) (ops : list op) :
  fs filepath = Some (program_text ops) →
  Day10.generate_instructions fs filepath = Returns (map op_instruction ops).
Proof.
  intros Hfile. unfold Day10.generate_instructions, read_file.
  rewrite Hfile. cbn [mbind outcome_bind]. unfold program_text.
  rewrite <- (map_map op_text text_line), file_lines_text_lines.
  - clear Hfile. induction ops as [|o ops IH]; [done|].
    cbn [map py_map]. rewrite IH.
    destruct o as [|n]; [by rewrite parse_noop|by rewrite parse_addx].
  - apply Forall_forall. intros line (o & <- & _)%list_elem_of_In%in_map_iff.
    apply op_text_no_newline.
Qed.

(** X25: [generate_instructions] reads back a program written one
    instruction per line, [noop] or [addx] followed by an integer, negative
    or not: a [noop] takes one cycle and adds nothing, an [addx] takes two
    cycles and adds its integer. *)
Theorem program_is_read_back (fs : filesystem) (filepath : path)
    (ops : list op) :
  fs filepath = Some (program_text ops) →
  Day10.generate_instructions fs filepath = Returns (map op_instruction ops).
Proof. apply generate_program. Qed.

Lemma program_is_read_back_witness :
  Day10.generate_instructions
    (λ _, Some (program_text [Noop; Addx 3; Addx (-5)])) my_file
  = Returns (map op_instruction [Noop; Addx 3; Addx (-5)]).
Proof.
  apply (program_is_read_back _ my_file [Noop; Addx 3; Addx (-5)]).
  reflexivity.
Defined.

(** *** The reports of part 1 *)

Lemma reports_app (trace trace' : list Z) (increment : Z) :
  ∀ cycle next,
    reports (trace ++ trace') cycle next increment
    = reports trace cycle next increment
      ++ reports trace' (cycle + Z.of_nat (length trace))
           (next_report trace cycle next increment) increment.
Proof.
  induction trace as [|x trace IH]; intros cycle next.
  - cbn. by rewrite Z.add_0_r.
  - cbn [app reports next_report length]. rewrite Nat2Z.inj_succ.
    replace (cycle + Z.succ (Z.of_nat (length trace)))
      with (cycle + 1 + Z.of_nat (length trace)) by lia.
    destruct (cycle =? next); rewrite IH; done.
Qed.

Lemma report_instruction (processed register_value increment : Z) (n : nat) :
  ∀ (j : nat) (next : Z) (yielded : list (Z * Z)),
    fold_left
      (λ '(next_cycle_to_report, yielded) instruction_cycle_index,
         if processed + instruction_cycle_index =? next_cycle_to_report
         then (next_cycle_to_report + increment,
               yielded ++ [(next_cycle_to_report, register_value)])
         else (next_cycle_to_report, yielded))
      (map Z.of_nat (seq j n)) (next, yielded)
    = (next_report (replicate n register_value) (processed + Z.of_nat j)
         next increment,
       yielded ++ reports (replicate n register_value)
                    (processed + Z.of_nat j) next increment).
Proof.
  induction n as [|n IH]; intros j next yielded.
  - cbn. by rewrite app_nil_r.
  - cbn [seq map fold_left replicate reports next_report].
    replace (processed + Z.of_nat j + 1) with (processed + Z.of_nat (S j)) by lia.
    destruct (processed + Z.of_nat j =? next); rewrite IH; [|done].
    by rewrite <- app_assoc.
Qed.

Lemma report_instruction_cycles (processed register_value increment : Z)
    (n : nat) (next : Z) (yielded : list (Z * Z)) :
  fold_left
    (λ '(next_cycle_to_report, yielded) instruction_cycle_index,
       if processed + instruction_cycle_index =? next_cycle_to_report
       then (next_cycle_to_report + increment,
             yielded ++ [(next_cycle_to_report, register_value)])
       else (next_cycle_to_report, yielded))
    (Day10.cycle_indices n) (next, yielded)
  = (next_report (replicate n register_value) (processed + 1) next increment,
     yielded ++ reports (replicate n register_value) (processed + 1) next
                  increment).
Proof. apply (report_instruction _ _ _ _ 1%nat). Qed.

Lemma report_cycle_values_trace (increment : Z)
    (instructions : list Day10.instruction) :
  ∀ (processed register_value next : Z) (yielded : list (Z * Z)),
    (fold_left
       (λ '((num_cycles_processed, register_value, next_cycle_to_report),
            yielded) instr,
          let '(next_cycle_to_report, yielded) :=
            fold_left
              (λ '(next_cycle_to_report, yielded) instruction_cycle_index,
                 if num_cycles_processed + instruction_cycle_index
                    =? next_cycle_to_report
                 then (next_cycle_to_report + increment,
                       yielded ++ [(next_cycle_to_report, register_value)])
                 else (next_cycle_to_report, yielded))
              (Day10.cycle_indices (Day10.num_cycles instr))
              (next_cycle_to_report, yielded) in
          ((num_cycles_processed + Z.of_nat (Day10.num_cycles instr),
            register_value + Day10.register_increase instr,
            next_cycle_to_report), yielded))
       instructions ((processed, register_value, next), yielded)).2
    = yielded ++ reports (register_trace instructions register_value)
                   (processed + 1) next increment.
Proof.
  induction instructions as [|instr instructions IH];
    intros processed register_value next yielded.
  - cbn. by rewrite app_nil_r.
  - cbn [fold_left register_trace].
    rewrite report_instruction_cycles. cbv beta iota zeta.
    rewrite IH, reports_app, length_replicate.
    rewrite <- app_assoc. do 3 f_equal. lia.
Qed.

Lemma reports_spec (increment : Z) (trace : list Z) :
  0 < increment →
  ∀ cycle next,
    cycle <= next →
    (∀ c x, (c, x) ∈ reports trace cycle next increment
            ↔ (∃ k : nat, c = next + Z.of_nat k * increment)
              ∧ cycle <= c
              ∧ trace !! Z.to_nat (c - cycle) = Some x)
    ∧ StronglySorted (λ p q : Z * Z, p.1 < q.1)
        (reports trace cycle next increment).
Proof.
  intros Hinc. induction trace as [|x0 trace IH]; intros cycle next Hle.
  - cbn. split; [|constructor]. intros c x. split.
    + by intros ?%elem_of_nil.
    + by intros (_ & _ & ?).
  - cbn [reports]. destruct (Z.eqb_spec cycle next) as [<-|Hne].
    + destruct (IH (cycle + 1) (cycle + increment) ltac:(lia)) as [Hin Hsorted].
      split.
      * intros c x. rewrite elem_of_cons, Hin. split.
        -- intros [[= -> ->]|((k & ->) & Hc & Hx)].
           ++ split; [exists 0%nat; lia|]. split; [lia|].
              by rewrite Z.sub_diag.
           ++ split; [exists (S k); lia|]. split; [lia|].
              replace (Z.to_nat (cycle + increment + Z.of_nat k * increment
                                 - cycle))
                with (S (Z.to_nat (cycle + increment + Z.of_nat k * increment
                                   - (cycle + 1)))) by nia.
              done.
        -- intros ((k & ->) & Hc & Hx). destruct k as [|k].
           ++ left. rewrite Z.mul_0_l, Z.add_0_r, Z.sub_diag in Hx.
              cbn in Hx. injection Hx as <-. f_equal. lia.
           ++ right. split; [exists k; lia|]. split; [nia|].
              replace (Z.to_nat (cycle + Z.of_nat (S k) * increment - cycle))
                with (S (Z.to_nat (cycle + Z.of_nat (S k) * increment
                                   - (cycle + 1)))) in Hx by nia.
              done.
      * constructor; [done|]. apply Forall_forall. intros [c x] Hcx.
        apply Hin in Hcx as ((k & ->) & _ & _). cbn [fst]. nia.
    + destruct (IH (cycle + 1) next ltac:(lia)) as [Hin Hsorted].
      split; [|done]. intros c x. rewrite Hin. split.
      * intros ((k & ->) & Hc & Hx). split; [by exists k|]. split; [lia|].
        replace (Z.to_nat (next + Z.of_nat k * increment - cycle))
          with (S (Z.to_nat (next + Z.of_nat k * increment - (cycle + 1))))
          by nia.
        done.
      * intros ((k & ->) & Hc & Hx). split; [by exists k|]. split; [nia|].
        replace (Z.to_nat (next + Z.of_nat k * increment - cycle))
          with (S (Z.to_nat (next + Z.of_nat k * increment - (cycle + 1))))
          in Hx by nia.
        done.
Qed.

(** X26: [report_cycle_values] yields, in increasing order of the cycles,
    exactly the pairs of a cycle [first + k * increment] that the program
    reaches and of the value that the register has during that cycle,
    that is before the instruction running then has added anything. *)
Theorem report_cycle_values_spec (instructions : list Day10.instruction)
    (first_cycle_to_report cycle_to_report_increment : Z) :
  1 <= first_cycle_to_report → 0 < cycle_to_report_increment →
  (∀ cycle_index cycle_value,
     (cycle_index, cycle_value)
       ∈ Day10.report_cycle_values instructions first_cycle_to_report
           cycle_to_report_increment
     ↔ (∃ k : nat,
          cycle_index
          = first_cycle_to_report + Z.of_nat k * cycle_to_report_increment)
       ∧ 1 <= cycle_index
       ∧ register_trace instructions 1 !! Z.to_nat (cycle_index - 1)
         = Some cycle_value)
  ∧ StronglySorted (λ p q : Z * Z, p.1 < q.1)
      (Day10.report_cycle_values instructions first_cycle_to_report
         cycle_to_report_increment).
Proof.
  intros Hfirst Hinc. unfold Day10.report_cycle_values.
  rewrite report_cycle_values_trace. cbn [app]. rewrite Z.add_0_l.
  by apply reports_spec.
Qed.

Lemma report_cycle_values_spec_witness :
  (∀ cycle_index cycle_value,
     (cycle_index, cycle_value)
       ∈ Day10.report_cycle_values
           (map op_instruction [Noop; Addx 3; Addx (-5)]) 2 2
     ↔ (∃ k : nat, cycle_index = 2 + Z.of_nat k * 2)
       ∧ 1 <= cycle_index
       ∧ register_trace (map op_instruction [Noop; Addx 3; Addx (-5)]) 1
           !! Z.to_nat (cycle_index - 1)
         = Some cycle_value)
  ∧ StronglySorted (λ p q : Z * Z, p.1 < q.1)
      (Day10.report_cycle_values
         (map op_instruction [Noop; Addx 3; Addx (-5)]) 2 2).
Proof.
  apply (report_cycle_values_spec
           (map op_instruction [Noop; Addx 3; Addx (-5)]) 2 2); lia.
Defined.

(** *** The image of part 2 *)

Lemma draw_app (trace trace' : list Z) :
  ∀ cycle crt_rows current_crt_row,
    draw (trace ++ trace') cycle crt_rows current_crt_row
    = draw trace' (cycle + Z.of_nat (length trace))
        (draw trace cycle crt_rows current_crt_row).1
        (draw trace cycle crt_rows current_crt_row).2.
Proof.
  induction trace as [|sprite trace IH]; intros cycle crt_rows current_crt_row.
  - cbn. by rewrite Z.add_0_r.
  - cbn [app draw length]. rewrite Nat2Z.inj_succ.
    replace (cycle + Z.succ (Z.of_nat (length trace)))
      with (cycle + 1 + Z.of_nat (length trace)) by lia.
    cbv zeta. destruct (cycle mod 40 =? 0); by rewrite IH.
Qed.

(** The array of the sprite positions, as long as it does not wrap. *)
Lemma np_contains_sprite (column sprite : Z) :
  (if np_contains [sprite; sprite + 1; sprite + 2] column
   then "#"%char else "."%char)
  = pixel column sprite.
Proof.
  unfold np_contains, pixel. cbn [existsb].
  by rewrite orb_false_r, orb_assoc.
Qed.

Lemma int64_wrap_fits (x : Z) : fits_int64 x → int64_wrap x = x.
Proof.
  unfold fits_int64, int64_wrap. intros Hx.
  rewrite Z.mod_small; lia.
Qed.

Lemma np_add_sprite (sprite increase : Z) :
  fits_int64 (sprite + increase) →
  fits_int64 (sprite + increase + 2) →
  np_add [sprite; sprite + 1; sprite + 2] increase
  = [sprite + increase; sprite + increase + 1; sprite + increase + 2].
Proof.
  unfold fits_int64. intros Hlow Hhigh. unfold np_add. cbn [map].
  rewrite !int64_wrap_fits by (unfold fits_int64; lia).
  do 2 f_equal; [lia|]. f_equal. lia.
Qed.

Lemma draw_instruction (processed sprite : Z) (n : nat) :
  ∀ (j : nat) (crt_rows : list string) (current_crt_row : list ascii),
    fold_left
      (λ '(crt_rows, current_crt_row) instruction_cycle_index,
         let crt_char :=
           if np_contains [sprite; sprite + 1; sprite + 2]
                (Z.of_nat (length current_crt_row))
           then "#"%char else "."%char in
         let current_crt_row := current_crt_row ++ [crt_char] in
         if (processed + instruction_cycle_index) mod 40 =? 0
         then (crt_rows ++ [str_of current_crt_row], [])
         else (crt_rows, current_crt_row))
      (map Z.of_nat (seq j n)) (crt_rows, current_crt_row)
    = draw (replicate n sprite) (processed + Z.of_nat j) crt_rows
        current_crt_row.
Proof.
  induction n as [|n IH]; intros j crt_rows current_crt_row; [done|].
  cbn [seq map fold_left replicate draw]. cbv beta iota zeta.
  replace (processed + Z.of_nat j + 1) with (processed + Z.of_nat (S j)) by lia.
  rewrite np_contains_sprite.
  destruct ((processed + Z.of_nat j) mod 40 =? 0); by rewrite IH.
Qed.

Lemma draw_instruction_cycles (processed sprite : Z) (n : nat)
    (crt_rows : list string) (current_crt_row : list ascii) :
  fold_left
    (λ '(crt_rows, current_crt_row) instruction_cycle_index,
       let crt_char :=
         if np_contains [sprite; sprite + 1; sprite + 2]
              (Z.of_nat (length current_crt_row))
         then "#"%char else "."%char in
       let current_crt_row := current_crt_row ++ [crt_char] in
       if (processed + instruction_cycle_index) mod 40 =? 0
       then (crt_rows ++ [str_of current_crt_row], [])
       else (crt_rows, current_crt_row))
    (Day10.cycle_indices n) (crt_rows, current_crt_row)
  = draw (replicate n sprite) (processed + 1) crt_rows current_crt_row.
Proof. apply (draw_instruction _ _ _ 1%nat). Qed.

Lemma part_2_trace (instructions : list Day10.instruction) :
  ∀ (processed sprite : Z) (crt_rows : list string)
    (current_crt_row : list ascii),
    sprites_fit instructions sprite →
    (let '(_, _, crt_rows', current_crt_row') :=
       fold_left
         (λ '(num_cycles_processed, sprite_positions, crt_rows,
              current_crt_row) instr,
            let '(crt_rows, current_crt_row) :=
              fold_left
                (λ '(crt_rows, current_crt_row) instruction_cycle_index,
                   let crt_char :=
                     if np_contains sprite_positions
                          (Z.of_nat (length current_crt_row))
                     then "#"%char else "."%char in
                   let current_crt_row := current_crt_row ++ [crt_char] in
                   if (num_cycles_processed + instruction_cycle_index) mod 40
                      =? 0
                   then (crt_rows ++ [str_of current_crt_row], [])
                   else (crt_rows, current_crt_row))
                (Day10.cycle_indices (Day10.num_cycles instr))
                (crt_rows, current_crt_row) in
            (num_cycles_processed + Z.of_nat (Day10.num_cycles instr),
             np_add sprite_positions (Day10.register_increase instr),
             crt_rows, current_crt_row))
         instructions
         (processed, [sprite; sprite + 1; sprite + 2], crt_rows,
          current_crt_row) in
     (crt_rows', current_crt_row'))
    = draw (register_trace instructions sprite) (processed + 1) crt_rows
        current_crt_row.
Proof.
  induction instructions as [|instr instructions IH];
    intros processed sprite crt_rows current_crt_row Hfit; [done|].
  destruct Hfit as (_ & Hlow & Hhigh & Hfit).
  cbn [fold_left register_trace].
  rewrite draw_instruction_cycles, draw_app, length_replicate.
  destruct (draw (replicate (Day10.num_cycles instr) sprite) (processed + 1)
              crt_rows current_crt_row) as [crt_rows1 current_crt_row1].
  cbv beta iota zeta. rewrite (np_add_sprite _ _ Hlow Hhigh).
  rewrite (IH _ _ _ _ Hfit). cbn [fst snd]. f_equal. lia.
Qed.

Lemma length_concat_rows (crt_rows : list string) :
  Forall (λ row, length (chars row) = 40%nat) crt_rows →
  length (concat (map chars crt_rows)) = (40 * length crt_rows)%nat.
Proof.
  induction 1 as [|row crt_rows Hrow Hrows IH]; [done|].
  cbn [map concat length]. rewrite length_app, Hrow, IH. lia.
Qed.

Lemma length_pixels (trace : list Z) :
  ∀ cycle, length (pixels trace cycle) = length trace.
Proof.
  induction trace as [|sprite trace IH]; intros cycle; [done|].
  cbn. by rewrite IH.
Qed.

Lemma draw_spec (trace : list Z) :
  ∀ cycle crt_rows current_crt_row,
    Z.of_nat (length current_crt_row) = (cycle - 1) mod 40 →
    Forall (λ row, length (chars row) = 40%nat) crt_rows →
    Forall (λ row, length (chars row) = 40%nat)
      (draw trace cycle crt_rows current_crt_row).1
    ∧ (length (draw trace cycle crt_rows current_crt_row).2 < 40)%nat
    ∧ concat (map chars (draw trace cycle crt_rows current_crt_row).1)
      ++ (draw trace cycle crt_rows current_crt_row).2
      = concat (map chars crt_rows) ++ current_crt_row ++ pixels trace cycle.
Proof.
  induction trace as [|sprite trace IH];
    intros cycle crt_rows current_crt_row Hcolumn Hrows;
    pose proof (Z.mod_pos_bound (cycle - 1) 40 ltac:(lia)) as Hbound.
  - cbn [draw pixels fst snd]. rewrite app_nil_r. split; [done|].
    split; [lia|done].
  - cbn [draw pixels]. cbv zeta. rewrite Hcolumn.
    destruct (Z.eqb_spec (cycle mod 40) 0) as [Hend|Hmore].
    + destruct (IH (cycle + 1)
                  (crt_rows
                   ++ [str_of (current_crt_row
                               ++ [pixel ((cycle - 1) mod 40) sprite])]) [])
        as (Hall & Hlast & Hconcat).
      * cbn [length]. replace (cycle + 1 - 1) with cycle by lia. lia.
      * apply Forall_app. split; [done|]. constructor; [|constructor].
        rewrite chars_str_of, length_app. cbn [length].
        Z.div_mod_to_equations. lia.
      * split; [done|]. split; [done|]. rewrite Hconcat.
        rewrite map_app, concat_app. cbn [map concat].
        rewrite chars_str_of, app_nil_r. cbn [app].
        by rewrite <- !app_assoc.
    + destruct (IH (cycle + 1) crt_rows
                  (current_crt_row ++ [pixel ((cycle - 1) mod 40) sprite]))
        as (Hall & Hlast & Hconcat).
      * rewrite length_app. cbn [length].
        replace (cycle + 1 - 1) with cycle by lia.
        Z.div_mod_to_equations. lia.
      * done.
      * split; [done|]. split; [done|]. rewrite Hconcat.
        by rewrite <- !app_assoc.
Qed.

(** X27: the image that [part_2] returns is made of rows of 40 pixels
    joined by newlines.  Read row after row, its pixels are those drawn
    cycle after cycle: a ['#'] when the column, that is the number of
    cycles already run modulo 40, is one of the three sprite positions
    during the cycle, a ['.'] otherwise.  The pixels of a last row that is
    not complete are dropped.  (The sprite positions are assumed to fit
    the 64-bit integers they are kept in.) *)
Theorem crt_image (fs : filesystem) (filepath : path)
    (instructions : list Day10.instruction) :
  Day10.generate_instructions fs filepath = Returns instructions →
  sprites_fit instructions 0 →
  ∃ crt_rows,
    Day10.part_2 fs filepath
    = Returns (String.concat (String newline "") crt_rows)
    ∧ Forall (λ row, length (chars row) = 40%nat) crt_rows
    ∧ (40 * length crt_rows <= length (register_trace instructions 0)
       < 40 * length crt_rows + 40)%nat
    ∧ concat (map chars crt_rows)
      = take (40 * length crt_rows) (pixels (register_trace instructions 0) 1).
Proof.
  intros Hprogram Hfit. unfold Day10.part_2. rewrite Hprogram.
  cbn [mbind outcome_bind].
  pose proof (part_2_trace instructions 0 0 [] [] Hfit) as Htrace.
  destruct (fold_left _ instructions _) as [[[processed sprite] crt_rows] row].
  destruct (draw_spec (register_trace instructions 0) 1 [] [])
    as (Hall & Hlast & Hconcat); [done|done|].
  change (0 + 1) with 1 in Htrace. rewrite <- Htrace in Hall, Hlast, Hconcat.
  cbn [fst snd app map concat] in Hall, Hlast, Hconcat.
  exists crt_rows. split; [done|]. split; [done|].
  pose proof (length_concat_rows _ Hall) as Hlen.
  pose proof (f_equal length Hconcat) as Htotal.
  rewrite length_app, length_pixels, Hlen in Htotal.
  split; [lia|]. rewrite <- Hconcat, <- Hlen. by rewrite take_app_length.
Qed.

Lemma crt_image_witness :
  ∃ crt_rows,
    Day10.part_2 (λ _, Some (program_text (replicate 21 (Addx 1)))) my_file
    = Returns (String.concat (String newline "") crt_rows)
    ∧ Forall (λ row, length (chars row) = 40%nat) crt_rows
    ∧ (40 * length crt_rows
       <= length (register_trace
                    (map op_instruction (replicate 21 (Addx 1))) 0)
       < 40 * length crt_rows + 40)%nat
    ∧ concat (map chars crt_rows)
      = take (40 * length crt_rows)
          (pixels (register_trace
                     (map op_instruction (replicate 21 (Addx 1))) 0) 1).
Proof.
  apply (crt_image _ my_file (map op_instruction (replicate 21 (Addx 1)))).
  - by vm_compute.
  - cbn. unfold fits_int64. repeat split; lia.
Defined.

(** ** What the other main entry points print *)

Lemma single_no_newline (value : string) :
  no_newline value → no_newline (String.concat " " [value]).
Proof. done. Qed.

Lemma str_num_no_newline (x : num) : no_newline (Day12.str_num x).
Proof.
  destruct x as [n|]; [apply str_int_no_newline|literal_no_newline].
Qed.

Lemma str_best_no_newline (b : Day16.best) : no_newline (Day16.str_best b).
Proof.
  destruct b as [|n]; [literal_no_newline|apply str_int_no_newline].
Qed.

(** X28: the main entry points of day 12, day 4 and day 16, when they run
    to their end, write exactly two lines, the answer of part 1 and then
    the answer of part 2: after the labels ["Part 1:"] and ["Part 2:"]
    for days 12 and 16, alone on the line for day 4.  An answer that is
    [math.inf] or [float("-inf")] is written [inf] or [-inf]. *)
Theorem other_main_entry_points_output (fuel : nat) (fs : filesystem)
    (script_file : path)
    (re_search : string → option (string * string * string))
    (shortest_paths : nat → list (nat * nat) → nat → nat → Z)
    (set_iter : gset nat → list nat) :
  ((Day12.main fuel fs script_file).2 = Returns tt →
   ∃ a b,
     Day12.part_1 fuel fs script_file (Day12.default_filepath script_file)
       = Returns a
     ∧ Day12.part_2 fuel fs script_file (Day12.default_filepath script_file)
       = Returns b
     ∧ output_lines (Day12.main fuel fs script_file).1
       = [py_print ["Part 1:"; Day12.str_num a];
          py_print ["Part 2:"; Day12.str_num b]])
  ∧ ((Day4.main fs script_file).2 = Returns tt →
     ∃ a b,
       Day4.part_1 fs (Day4.default_filepath script_file) = Returns a
       ∧ Day4.part_2 fs (Day4.default_filepath script_file) = Returns b
       ∧ output_lines (Day4.main fs script_file).1
         = [py_print [str_int a]; py_print [str_int b]])
  ∧ ((Day16.main re_search shortest_paths set_iter fs script_file).2
       = Returns tt →
     ∃ a b,
       Day16.part_1 re_search shortest_paths set_iter fs
         (Day16.default_filepath script_file) "AA" 30 = Returns a
       ∧ Day16.part_2 re_search shortest_paths set_iter fs
           (Day16.default_filepath script_file) "AA" 26 = Returns b
       ∧ output_lines
           (Day16.main re_search shortest_paths set_iter fs script_file).1
         = [py_print ["Part 1:"; str_int a];
            py_print ["Part 2:"; Day16.str_best b]]).
Proof.
  split; [|split].
  - unfold Day12.main. cbn [run_prints].
    destruct (Day12.part_1 _ _ _ _) as [a| |]; [|done..].
    destruct (Day12.part_2 _ _ _ _) as [b| |]; [|done..].
    cbn [mbind outcome_bind mret outcome_ret fst snd].
    intros _. exists a, b. split; [done|]. split; [done|].
    rewrite !output_lines_print
      by (apply labelled_no_newline;
          [literal_no_newline|apply str_num_no_newline]).
    done.
  - unfold Day4.main. cbn [run_prints].
    destruct (Day4.part_1 _ _) as [a| |]; [|done..].
    destruct (Day4.part_2 _ _) as [b| |]; [|done..].
    cbn [mbind outcome_bind mret outcome_ret fst snd].
    intros _. exists a, b. split; [done|]. split; [done|].
    rewrite !output_lines_print
      by (apply single_no_newline, str_int_no_newline).
    done.
  - unfold Day16.main. cbn [run_prints].
    destruct (Day16.part_1 _ _ _ _ _ _ _) as [a| |]; [|done..].
    destruct (Day16.part_2 _ _ _ _ _ _ _) as [b| |]; [|done..].
    cbn [mbind outcome_bind mret outcome_ret fst snd].
    intros _. exists a, b. split; [done|]. split; [done|].
    rewrite output_lines_print
      by (apply labelled_no_newline;
          [literal_no_newline|apply str_int_no_newline]).
    rewrite output_lines_print
      by (apply labelled_no_newline;
          [literal_no_newline|apply str_best_no_newline]).
    done.
Qed.

Lemma other_main_entry_points_output_witness :
  (∃ a b,
     Day12.part_1 3 (λ _, Some "SaE") day12_script
       (Day12.default_filepath day12_script) = Returns a
     ∧ Day12.part_2 3 (λ _, Some "SaE") day12_script
         (Day12.default_filepath day12_script) = Returns b
     ∧ output_lines (Day12.main 3 (λ _, Some "SaE") day12_script).1
       = [py_print ["Part 1:"; Day12.str_num a];
          py_print ["Part 2:"; Day12.str_num b]])
  ∧ ∃ a b,
      Day4.part_1 (λ _, Some "") (Day4.default_filepath day12_script)
      = Returns a
      ∧ Day4.part_2 (λ _, Some "") (Day4.default_filepath day12_script)
        = Returns b
      ∧ output_lines (Day4.main (λ _, Some "") day12_script).1
        = [py_print [str_int a]; py_print [str_int b]].
Proof.
  destruct (other_main_entry_points_output 3 (λ _, Some "SaE") day12_script
              (λ _, None) (λ _ _ _ _, 0) elements) as (Hday12 & _ & _).
  destruct (other_main_entry_points_output 3 (λ _, Some "") day12_script
              (λ _, None) (λ _ _ _ _, 0) elements) as (_ & Hday4 & _).
  split; [apply Hday12; reflexivity|apply Hday4; reflexivity].
Defined.

(** ** The file that the entry points read *)






(** ** Day 16: two runs that go through their sets in opposite orders *)

Lemma day16_main_two_runs_witness :
  Day16.recursively_generate_visiting_orders elements (one_hop 3 [])
    0%nat {[1%nat; 2%nat]} [] 30
  ≠ Day16.recursively_generate_visiting_orders (λ X, rev (elements X))
      (one_hop 3 []) 0%nat {[1%nat; 2%nat]} [] 30
  ∧ Day16.main valve_search one_hop elements valves_here day16_script
    = (py_print ["Part 1:"; "416"] +:+ py_print ["Part 2:"; "360"], Returns tt)
  ∧ Day16.main valve_search one_hop elements valves_here day16_script
    = Day16.main valve_search one_hop (λ X, rev (elements X)) valves_there
        day16_script.
Proof.
  split; [by vm_compute|]. split; [by vm_compute|].
  apply (day16_main_two_runs valve_search one_hop
           elements (λ X, rev (elements X)) valves_here valves_there
           day16_script).
  - intros X. apply Permutation_rev.
  - reflexivity.
Defined.
